(** * ts-morph-analyzer: a shallow embedding of the analysis scripts

    The development follows the three TypeScript scripts of the
    [ts-morph-analyzer] skill:

    - [code-smells.ts]        (module [CodeSmells]),
    - [trace-calls.ts]        (module [TraceCalls]),
    - [extract-signatures.ts] (module [ExtractSignatures]).

    The ts-morph symbol model is an external library.  Its answers (the
    syntax tree of a declaration, the references of a declaration, the
    declarations a call expression resolves to, ...) are data of the
    embedding: records and trees that carry exactly what the scripts read
    from the library.  Mutable JavaScript state ([reports], [visited],
    [pathStack], ...) is threaded explicitly through the functions. *)

From Stdlib Require Import ZArith Lia.
From stdpp Require Import base strings list gmap sets pretty.

Set Warnings "-register-all,-clear-no-such-hyp".

Open Scope string_scope.
Open Scope list_scope.
Open Scope Z_scope.

(** ** JavaScript helpers shared by the scripts *)

Module Js.

(** Truthiness of a string value: the empty string is falsy. *)
Definition truthy (s : string) : bool :=
  match s with EmptyString => false | _ => true end.

(** [x || dflt] for [x : string | undefined]. *)
Definition orElse (x : option string) (dflt : string) : string :=
  match x with
  | Some s => if truthy s then s else dflt
  | None => dflt
  end.

(** A value of type [string | undefined] inside a template literal. *)
Definition template (x : option string) : string :=
  match x with Some s => s | None => "undefined" end.

(** [s.startsWith(p)] *)
Definition startsWith (s p : string) : bool := String.prefix p s.

(** [xs.join(sep)] *)
Definition join (sep : string) (xs : list string) : string :=
  String.concat sep xs.

(** [args.indexOf(x)]; [None] stands for -1. *)
Fixpoint indexOf (x : string) (args : list string) : option nat :=
  match args with
  | [] => None
  | a :: rest =>
      if String.eqb a x then Some O
      else match indexOf x rest with Some i => Some (S i) | None => None end
  end.

(** [args.includes(x)] *)
Definition includes (x : string) (args : list string) : bool :=
  existsb (String.eqb x) args.

(** The guard [idx !== -1 && args[idx + 1]] followed by a read of
    [args[idx + 1]]: the string that is handed to [parseInt], if any. *)
Definition optionValue (flag : string) (args : list string) : option string :=
  match indexOf flag args with
  | Some i =>
      match nth_error args (S i) with
      | Some v => if truthy v then Some v else None
      | None => None
      end
  | None => None
  end.

End Js.

(** ** Syntax trees as ts-morph exposes them *)

Module Ast.

Inductive OperatorToken :=
| AmpersandAmpersandToken
| BarBarToken
| OtherToken.

(** The syntax kinds the scripts test for; every other kind is
    [OtherKind]. *)
Inductive SyntaxKind :=
| IfStatement
| ConditionalExpression
| ForStatement
| ForInStatement
| ForOfStatement
| WhileStatement
| DoStatement
| CaseClause
| CatchClause
| TryStatement
| SwitchStatement
| BinaryExpression (operatorToken : OperatorToken)
| Block
| ParameterKind
| FunctionDeclarationKind
| MethodDeclarationKind
| OtherKind.

Inductive Node := mkNode (kind : SyntaxKind) (childNodes : list Node).

Definition getKind (n : Node) : SyntaxKind :=
  match n with mkNode k _ => k end.

Definition getChildren (n : Node) : list Node :=
  match n with mkNode _ cs => cs end.

(** [n.forEachChild(cb)], the callback acting on a state. *)
Definition forEachChild {S : Type} (cb : Node -> S -> S) (n : Node) (s : S) : S :=
  fold_left (fun acc c => cb c acc) (getChildren n) s.

(** [n.forEachDescendant(cb)]: every descendant, parents before their
    children, in document order; [n] itself is not visited. *)
Fixpoint forEachDescendant {S : Type} (cb : Node -> S -> S) (n : Node) (s : S) : S :=
  match n with
  | mkNode _ cs =>
      fold_left (fun acc c => forEachDescendant cb c (cb c acc)) cs s
  end.

(** The descendants as a list, in the same order. *)
Fixpoint descendants (n : Node) : list Node :=
  match n with
  | mkNode _ cs => flat_map (fun c => c :: descendants c) cs
  end.

Definition isIfStatement (n : Node) : bool :=
  match getKind n with IfStatement => true | _ => false end.
Definition isConditionalExpression (n : Node) : bool :=
  match getKind n with ConditionalExpression => true | _ => false end.
Definition isForStatement (n : Node) : bool :=
  match getKind n with ForStatement => true | _ => false end.
Definition isForInStatement (n : Node) : bool :=
  match getKind n with ForInStatement => true | _ => false end.
Definition isForOfStatement (n : Node) : bool :=
  match getKind n with ForOfStatement => true | _ => false end.
Definition isWhileStatement (n : Node) : bool :=
  match getKind n with WhileStatement => true | _ => false end.
Definition isDoStatement (n : Node) : bool :=
  match getKind n with DoStatement => true | _ => false end.
Definition isCaseClause (n : Node) : bool :=
  match getKind n with CaseClause => true | _ => false end.
Definition isCatchClause (n : Node) : bool :=
  match getKind n with CatchClause => true | _ => false end.
Definition isTryStatement (n : Node) : bool :=
  match getKind n with TryStatement => true | _ => false end.
Definition isSwitchStatement (n : Node) : bool :=
  match getKind n with SwitchStatement => true | _ => false end.
Definition isBinaryExpression (n : Node) : bool :=
  match getKind n with BinaryExpression _ => true | _ => false end.

End Ast.

(** ** The declarations of a source file, as the scripts query them *)

Module Model.

Inductive Scope := ScopePublic | ScopeProtected | ScopePrivate.

Record ParameterDeclaration := {
  paramGetName : string;
  paramIsOptional : bool;
  paramTypeText : string;            (* [p.getType().getText()] *)
}.

(** [FunctionDeclaration | MethodDeclaration] *)
Record FunctionLike := {
  fnGetName : option string;         (* [getName()], possibly undefined *)
  fnIsExportable : bool;             (* [Node.isExportable(fn)] *)
  fnIsExportedFlag : bool;           (* [fn.isExported()] *)
  fnStartLineNumber : Z;
  fnEndLineNumber : Z;
  fnTypeParameters : list string;    (* [getText()] of each type parameter *)
  fnParameters : list ParameterDeclaration;
  fnReturnTypeText : string;         (* [getReturnType().getText()] *)
  fnIsAsync : bool;
  fnIsStatic : bool;
  fnGetScope : Scope;
  fnJsDocs : list string;            (* [getText()] of each JSDoc block *)
  fnNode : Ast.Node;                 (* the syntax tree of the declaration *)
  fnGetBody : option Ast.Node;       (* the body, one of the children of [fnNode] *)
}.

Record ClassDeclaration := {
  clsGetName : option string;
  clsIsExportable : bool;
  clsIsExportedFlag : bool;
  clsStartLineNumber : Z;
  clsTypeParameters : list string;
  clsGetExtends : option string;     (* text of the extends clause *)
  clsGetImplements : list string;
  clsGetMethods : list FunctionLike;
  clsGetProperties : list string;
  clsJsDocs : list string;
}.

Record InterfaceDeclaration := {
  ifaceGetName : string;
  ifaceIsExportable : bool;
  ifaceIsExportedFlag : bool;
  ifaceStartLineNumber : Z;
  ifaceTypeParameters : list string;
  ifaceGetExtends : list string;
  ifaceJsDocs : list string;
}.

Record TypeAliasDeclaration := {
  aliasGetName : string;
  aliasIsExportable : bool;
  aliasIsExportedFlag : bool;
  aliasStartLineNumber : Z;
  aliasTypeParameters : list string;
  aliasTypeText : string;            (* [getType().getText()] *)
  aliasJsDocs : list string;
}.

(** The top-level statements of a file, in the order they are written. *)
Inductive Statement :=
| StFunction (fn : FunctionLike)
| StClass (cls : ClassDeclaration)
| StInterface (iface : InterfaceDeclaration)
| StTypeAlias (typeAlias : TypeAliasDeclaration)
| StImport (moduleSpecifierValue : string)
| StOther.

Record SourceFile := {
  sfGetFilePath : string;
  sfStatements : list Statement;
  sfGetEndLineNumber : Z;
}.

(** [sourceFile.getFunctions()] and its siblings keep the file order. *)
Definition getFunctions (sf : SourceFile) : list FunctionLike :=
  omap (fun st => match st with StFunction fn => Some fn | _ => None end)
       (sfStatements sf).

Definition getClasses (sf : SourceFile) : list ClassDeclaration :=
  omap (fun st => match st with StClass c => Some c | _ => None end)
       (sfStatements sf).

Definition getInterfaces (sf : SourceFile) : list InterfaceDeclaration :=
  omap (fun st => match st with StInterface i => Some i | _ => None end)
       (sfStatements sf).

Definition getTypeAliases (sf : SourceFile) : list TypeAliasDeclaration :=
  omap (fun st => match st with StTypeAlias t => Some t | _ => None end)
       (sfStatements sf).

Definition getImportDeclarations (sf : SourceFile) : list string :=
  omap (fun st => match st with StImport m => Some m | _ => None end)
       (sfStatements sf).

Definition newline : string := String (Ascii.ascii_of_nat 10) EmptyString.

(** [getJsDoc(node)]: [null] when there is no JSDoc block. *)
Definition getJsDoc (jsDocs : list string) : option string :=
  match jsDocs with
  | [] => None
  | _ => Some (Js.join newline jsDocs)
  end.

(** [!getJsDoc(node)] *)
Definition lacksJsDoc (jsDocs : list string) : bool :=
  match getJsDoc jsDocs with
  | None => true
  | Some s => negb (Js.truthy s)
  end.

(** [isExported(node)]: only exportable nodes can be exported. *)
Definition isExported (isExportable exportedFlag : bool) : bool :=
  if isExportable then exportedFlag else false.

Definition fnIsExported (fn : FunctionLike) : bool :=
  isExported (fnIsExportable fn) (fnIsExportedFlag fn).

Definition clsIsExported (c : ClassDeclaration) : bool :=
  isExported (clsIsExportable c) (clsIsExportedFlag c).

Definition ifaceIsExported (i : InterfaceDeclaration) : bool :=
  isExported (ifaceIsExportable i) (ifaceIsExportedFlag i).

Definition aliasIsExported (t : TypeAliasDeclaration) : bool :=
  isExported (aliasIsExportable t) (aliasIsExportedFlag t).

End Model.

(** ** code-smells.ts *)

Module CodeSmells.
Import Ast Model.

Inductive Severity := warning | error.

Record SmellReport := {
  type : string;
  severity : Severity;
  file : string;
  line : option Z;
  message : string;
  details : option string;
}.

Record Thresholds := {
  maxParams : Z;
  maxFunctionLines : Z;
  maxFileLines : Z;
  maxNestingDepth : Z;
  maxComplexity : Z;
}.

Record SmellOptions := {
  checks : gset string;
  exportedOnly : bool;
  thresholds : Thresholds;
}.

Definition DEFAULT_THRESHOLDS : Thresholds := {|
  maxParams := 5;
  maxFunctionLines := 50;
  maxFileLines := 500;
  maxNestingDepth := 4;
  maxComplexity := 10;
|}.

Definition ALL_CHECKS : list string :=
  [ "circular-deps"; "large-functions"; "many-params"; "missing-jsdoc";
    "deep-nesting"; "large-files"; "god-classes" ].

Definition severity_eqb (a b : Severity) : bool :=
  match a, b with
  | warning, warning | error, error => true
  | _, _ => false
  end.

Definition countLines (fn : FunctionLike) : Z :=
  fnEndLineNumber fn - fnStartLineNumber fn + 1.

(** The constructs that open a nesting level. *)
Definition isNestingConstruct (n : Node) : bool :=
  isIfStatement n || isForStatement n || isForInStatement n ||
  isForOfStatement n || isWhileStatement n || isDoStatement n ||
  isTryStatement n || isSwitchStatement n.

(** The inner [traverse] of [getMaxNestingDepth]; the captured variable
    [maxDepth] is passed along. *)
Fixpoint traverse (n : Node) (depth : Z) (maxDepth : Z) : Z :=
  match n with
  | mkNode k cs =>
      if isNestingConstruct (mkNode k cs) then
        fold_left (fun acc child => traverse child (depth + 1) acc) cs
                  (Z.max maxDepth (depth + 1))
      else
        fold_left (fun acc child => traverse child depth acc) cs maxDepth
  end.

Definition getMaxNestingDepth (node : Node) : Z := traverse node 0 0.

(** First [if] of the callback of [getCyclomaticComplexity]. *)
Definition isBranchingNode (descendant : Node) : bool :=
  isIfStatement descendant || isConditionalExpression descendant ||
  isForStatement descendant || isForInStatement descendant ||
  isForOfStatement descendant || isWhileStatement descendant ||
  isDoStatement descendant || isCaseClause descendant ||
  isCatchClause descendant.

(** Second [if] of the callback: a binary expression whose operator is
    [&&] or [||]. *)
Definition isLogicalOperation (descendant : Node) : bool :=
  match getKind descendant with
  | BinaryExpression AmpersandAmpersandToken => true
  | BinaryExpression BarBarToken => true
  | _ => false
  end.

(** One call of the callback on the counter [complexity]. *)
Definition complexityCallback (descendant : Node) (complexity : Z) : Z :=
  let complexity :=
    if isBranchingNode descendant then complexity + 1 else complexity in
  if isLogicalOperation descendant then complexity + 1 else complexity.

Definition getCyclomaticComplexity (node : Node) : Z :=
  forEachDescendant complexityCallback node 1.

(** [className ? `${className}.${name}` : name] *)
Definition fullNameOf (className : option string) (name : string) : string :=
  match className with
  | Some c => if Js.truthy c then c +:+ "." +:+ name else name
  | None => name
  end.

Section WithEnvironment.

(** [path.relative(process.cwd(), p)] *)
Variable relative : string -> string.
(** [path.normalize(path.join(path.dirname(filePath), specifier))] *)
Variable resolveSpecifier : string -> string -> string.
(** [project.getSourceFile(path.resolve(p))] is defined *)
Variable hasSourceFile : string -> bool.
(** [parseInt(s, 10)] on the integers it yields *)
Variable parseInt : string -> Z.

(** The closure [checkFn] of [checkLargeFunctions], acting on [reports]. *)
Definition checkFn_largeFunctions (options : SmellOptions) (filePath : string)
    (reports : list SmellReport) (fn : FunctionLike) (className : option string)
    : list SmellReport :=
  if exportedOnly options && negb (fnIsExported fn) then reports else
  let lines := countLines fn in
  let name := Js.orElse (fnGetName fn) "(anonymous)" in
  let fullName := fullNameOf className name in
  let reports :=
    if lines >? maxFunctionLines (thresholds options) then
      reports ++ [ {|
        type := "large-function";
        severity := if lines >? maxFunctionLines (thresholds options) * 2
                    then error else warning;
        file := filePath;
        line := Some (fnStartLineNumber fn);
        message := fullName +:+ " is " +:+ pretty lines +:+ " lines (max: "
                   +:+ pretty (maxFunctionLines (thresholds options)) +:+ ")";
        details := None |} ]
    else reports in
  let complexity := getCyclomaticComplexity (fnNode fn) in
  if complexity >? maxComplexity (thresholds options) then
    reports ++ [ {|
      type := "high-complexity";
      severity := if complexity >? maxComplexity (thresholds options) * 2
                  then error else warning;
      file := filePath;
      line := Some (fnStartLineNumber fn);
      message := fullName +:+ " has cyclomatic complexity of "
                 +:+ pretty complexity +:+ " (max: "
                 +:+ pretty (maxComplexity (thresholds options)) +:+ ")";
      details := None |} ]
  else reports.

(** The two loops shared by the per-function checks: every function of
    the file, then every method of every class. *)
Definition forEachFunctionAndMethod
    (checkFn : list SmellReport -> FunctionLike -> option string -> list SmellReport)
    (sourceFile : SourceFile) : list SmellReport :=
  let reports :=
    fold_left (fun reports fn => checkFn reports fn None)
              (getFunctions sourceFile) [] in
  fold_left
    (fun reports cls =>
       fold_left (fun reports method => checkFn reports method (clsGetName cls))
                 (clsGetMethods cls) reports)
    (getClasses sourceFile) reports.

Definition checkLargeFunctions (sourceFile : SourceFile) (options : SmellOptions)
    : list SmellReport :=
  let filePath := relative (sfGetFilePath sourceFile) in
  forEachFunctionAndMethod (checkFn_largeFunctions options filePath) sourceFile.

Definition checkFn_manyParams (options : SmellOptions) (filePath : string)
    (reports : list SmellReport) (fn : FunctionLike) (className : option string)
    : list SmellReport :=
  if exportedOnly options && negb (fnIsExported fn) then reports else
  let params := Z.of_nat (length (fnParameters fn)) in
  let name := Js.orElse (fnGetName fn) "(anonymous)" in
  let fullName := fullNameOf className name in
  if params >? maxParams (thresholds options) then
    reports ++ [ {|
      type := "many-params";
      severity := if params >? maxParams (thresholds options) + 3
                  then error else warning;
      file := filePath;
      line := Some (fnStartLineNumber fn);
      message := fullName +:+ " has " +:+ pretty params +:+ " parameters (max: "
                 +:+ pretty (maxParams (thresholds options)) +:+ ")";
      details := Some "Consider using an options object instead" |} ]
  else reports.

Definition checkManyParams (sourceFile : SourceFile) (options : SmellOptions)
    : list SmellReport :=
  let filePath := relative (sfGetFilePath sourceFile) in
  forEachFunctionAndMethod (checkFn_manyParams options filePath) sourceFile.

Definition checkMissingJsDoc (sourceFile : SourceFile) (options : SmellOptions)
    : list SmellReport :=
  let filePath := relative (sfGetFilePath sourceFile) in
  let reports :=
    fold_left
      (fun reports fn =>
         if negb (fnIsExported fn) then reports else
         if lacksJsDoc (fnJsDocs fn) then
           reports ++ [ {|
             type := "missing-jsdoc";
             severity := warning;
             file := filePath;
             line := Some (fnStartLineNumber fn);
             message := "Exported function '"
                        +:+ Js.orElse (fnGetName fn) "(anonymous)"
                        +:+ "' lacks JSDoc";
             details := None |} ]
         else reports)
      (getFunctions sourceFile) [] in
  fold_left
    (fun reports cls =>
       if negb (clsIsExported cls) then reports else
       let reports :=
         if lacksJsDoc (clsJsDocs cls) then
           reports ++ [ {|
             type := "missing-jsdoc";
             severity := warning;
             file := filePath;
             line := Some (clsStartLineNumber cls);
             message := "Exported class '"
                        +:+ Js.orElse (clsGetName cls) "(anonymous)"
                        +:+ "' lacks JSDoc";
             details := None |} ]
         else reports in
       fold_left
         (fun reports method =>
            match fnGetScope method with
            | ScopePrivate => reports
            | _ =>
                if lacksJsDoc (fnJsDocs method) then
                  reports ++ [ {|
                    type := "missing-jsdoc";
                    severity := warning;
                    file := filePath;
                    line := Some (fnStartLineNumber method);
                    message := "Public method '" +:+ Js.template (clsGetName cls)
                               +:+ "." +:+ Js.template (fnGetName method)
                               +:+ "' lacks JSDoc";
                    details := None |} ]
                else reports
            end)
         (clsGetMethods cls) reports)
    (getClasses sourceFile) reports.

Definition checkFn_deepNesting (options : SmellOptions) (filePath : string)
    (reports : list SmellReport) (fn : FunctionLike) (className : option string)
    : list SmellReport :=
  let depth := getMaxNestingDepth (fnNode fn) in
  let name := Js.orElse (fnGetName fn) "(anonymous)" in
  let fullName := fullNameOf className name in
  if depth >? maxNestingDepth (thresholds options) then
    reports ++ [ {|
      type := "deep-nesting";
      severity := if depth >? maxNestingDepth (thresholds options) + 2
                  then error else warning;
      file := filePath;
      line := Some (fnStartLineNumber fn);
      message := fullName +:+ " has nesting depth of " +:+ pretty depth
                 +:+ " (max: " +:+ pretty (maxNestingDepth (thresholds options))
                 +:+ ")";
      details := Some "Consider extracting nested logic into separate functions" |} ]
  else reports.

Definition checkDeepNesting (sourceFile : SourceFile) (options : SmellOptions)
    : list SmellReport :=
  let filePath := relative (sfGetFilePath sourceFile) in
  forEachFunctionAndMethod (checkFn_deepNesting options filePath) sourceFile.

Definition checkLargeFiles (sourceFile : SourceFile) (options : SmellOptions)
    : list SmellReport :=
  let filePath := relative (sfGetFilePath sourceFile) in
  let lines := sfGetEndLineNumber sourceFile in
  if lines >? maxFileLines (thresholds options) then
    [ {| type := "large-file";
         severity := if lines >? maxFileLines (thresholds options) * 2
                     then error else warning;
         file := filePath;
         line := None;
         message := "File is " +:+ pretty lines +:+ " lines (max: "
                    +:+ pretty (maxFileLines (thresholds options)) +:+ ")";
         details := Some "Consider splitting into multiple modules" |} ]
  else [].

Definition checkGodClasses (sourceFile : SourceFile) (options : SmellOptions)
    : list SmellReport :=
  let filePath := relative (sfGetFilePath sourceFile) in
  fold_left
    (fun reports cls =>
       let methods := Z.of_nat (length (clsGetMethods cls)) in
       let properties := Z.of_nat (length (clsGetProperties cls)) in
       let reports :=
         if methods >? 20 then
           reports ++ [ {|
             type := "god-class";
             severity := if methods >? 30 then error else warning;
             file := filePath;
             line := Some (clsStartLineNumber cls);
             message := "Class '" +:+ Js.template (clsGetName cls) +:+ "' has "
                        +:+ pretty methods +:+ " methods";
             details := Some "Consider splitting responsibilities into multiple classes" |} ]
         else reports in
       if properties >? 15 then
         reports ++ [ {|
           type := "god-class";
           severity := warning;
           file := filePath;
           line := Some (clsStartLineNumber cls);
           message := "Class '" +:+ Js.template (clsGetName cls) +:+ "' has "
                      +:+ pretty properties +:+ " properties";
           details := None |} ]
       else reports)
    (getClasses sourceFile) [].

(** *** Circular dependencies *)

(** [Set<string>.add]: a set keeps insertion order and no duplicates. *)
Definition setAdd (x : string) (s : list string) : list string :=
  if existsb (String.eqb x) s then s else s ++ [x].

(** [Map<string, Set<string>>.set]: an existing key keeps its place. *)
Fixpoint mapSet (k : string) (v : list string) (g : list (string * list string))
    : list (string * list string) :=
  match g with
  | [] => [(k, v)]
  | (k', v') :: rest =>
      if String.eqb k' k then (k, v) :: rest else (k', v') :: mapSet k v rest
  end.

(** [graph.get(node)] *)
Fixpoint mapGet (g : list (string * list string)) (k : string)
    : option (list string) :=
  match g with
  | [] => None
  | (k', v') :: rest => if String.eqb k' k then Some v' else mapGet rest k
  end.

Definition mapKeys (g : list (string * list string)) : list string :=
  map fst g.

Definition RESOLVE_SUFFIXES : list string :=
  [ ".ts"; ".tsx"; ".js"; ".jsx"; "/index.ts"; "/index.tsx"; "/index.js" ].

(** The body of the import loop for one local module specifier. *)
Definition resolveImport (filePath moduleSpecifier : string) : string :=
  let resolvedPath := resolveSpecifier filePath moduleSpecifier in
  match find (fun ext => hasSourceFile (resolvedPath +:+ ext)) RESOLVE_SUFFIXES with
  | Some ext => resolvedPath +:+ ext
  | None => resolvedPath
  end.

Definition buildGraph (project : list SourceFile) : list (string * list string) :=
  fold_left
    (fun graph sourceFile =>
       let filePath := relative (sfGetFilePath sourceFile) in
       let deps :=
         fold_left
           (fun deps moduleSpecifier =>
              if Js.startsWith moduleSpecifier "." || Js.startsWith moduleSpecifier "/"
              then setAdd (resolveImport filePath moduleSpecifier) deps
              else deps)
           (getImportDeclarations sourceFile) [] in
       mapSet filePath deps graph)
    project [].

(** The variables captured by [dfs]. *)
Record DfsState := {
  visited : gset string;
  recursionStack : gset string;
  pathStack : list string;
  reports : list SmellReport;
}.

Definition cycleReport (cycle : list string) (dep : string) : SmellReport := {|
  type := "circular-dependency";
  severity := error;
  file := hd dep cycle;
  line := None;
  message := "Circular dependency detected";
  details := Some (Js.join " → " cycle) |}.

(** The branch of the loop of [dfs] for a dependency that is already
    visited. *)
Definition visitSeen (dep : string) (st : DfsState) : DfsState :=
  if decide (dep ∈ recursionStack st) then
    match Js.indexOf dep (pathStack st) with
    | Some cycleStart =>
        let cycle := drop cycleStart (pathStack st) ++ [dep] in
        {| visited := visited st;
           recursionStack := recursionStack st;
           pathStack := pathStack st;
           reports := reports st ++ [cycleReport cycle dep] |}
    | None => st
    end
  else st.

(** The loop [for (const dep of deps)] of [dfs]; [recur] is the recursive
    call [dfs(dep)], which fails when its bound is exhausted. *)
Fixpoint visitDependencies (recur : string -> DfsState -> option DfsState)
    (deps : list string) (st : DfsState) : option DfsState :=
  match deps with
  | [] => Some st
  | dep :: rest =>
      if decide (dep ∈ visited st) then visitDependencies recur rest (visitSeen dep st)
      else match recur dep st with
           | Some st' => visitDependencies recur rest st'
           | None => None
           end
  end.

(** [dfs(node)].  The recursion of the script is bounded by the number of
    nodes that are not yet visited; [fuel] bounds it here, and [None] means
    that the bound was too small. *)
Fixpoint dfs (fuel : nat) (graph : list (string * list string)) (node : string)
    (st : DfsState) : option DfsState :=
  match fuel with
  | O => None
  | S fuel' =>
      let entered := {|
        visited := {[node]} ∪ visited st;
        recursionStack := {[node]} ∪ recursionStack st;
        pathStack := pathStack st ++ [node];
        reports := reports st |} in
      let deps := default [] (mapGet graph node) in
      match visitDependencies (dfs fuel' graph) deps entered with
      | Some st' =>
          Some {| visited := visited st';
                  recursionStack := recursionStack st' ∖ {[node]};
                  pathStack := removelast (pathStack st');
                  reports := reports st' |}
      | None => None
      end
  end.

(** Every node the traversal can reach: the keys and the dependencies. *)
Definition graphNodes (graph : list (string * list string)) : list string :=
  mapKeys graph ++ concat (map snd graph).

(** One more than the number of distinct nodes: the bound handed to [dfs]. *)
Definition dfsFuel (graph : list (string * list string)) : nat :=
  S (size (list_to_set (graphNodes graph) : gset string)).

(** The final loop of [checkCircularDeps] over [graph.keys()]. *)
Fixpoint dfsRoots (graph : list (string * list string)) (nodes : list string)
    (st : DfsState) : option DfsState :=
  match nodes with
  | [] => Some st
  | node :: rest =>
      if decide (node ∈ visited st) then dfsRoots graph rest st
      else match dfs (dfsFuel graph) graph node st with
           | Some st' => dfsRoots graph rest st'
           | None => None
           end
  end.

Definition initialDfsState : DfsState := {|
  visited := ∅; recursionStack := ∅; pathStack := []; reports := [] |}.

Definition findCycles (graph : list (string * list string)) : option DfsState :=
  dfsRoots graph (mapKeys graph) initialDfsState.

Definition checkCircularDeps (project : list SourceFile) : list SmellReport :=
  match findCycles (buildGraph project) with
  | Some st => reports st
  | None => []
  end.

(** *** The entry point *)

(** The [while] loop of [main] that collects the [--check] values. *)
Fixpoint parseChecks (args : list string) (checks : gset string) : gset string :=
  match args with
  | [] => checks
  | arg :: rest =>
      if String.eqb arg "--check" then
        match rest with
        | value :: rest' =>
            if Js.truthy value then parseChecks rest' ({[value]} ∪ checks)
            else parseChecks rest checks
        | [] => checks
        end
      else parseChecks rest checks
  end.

Definition parseThresholds (args : list string) : Thresholds := {|
  maxParams :=
    match Js.optionValue "--max-params" args with
    | Some v => parseInt v | None => maxParams DEFAULT_THRESHOLDS end;
  maxFunctionLines :=
    match Js.optionValue "--max-fn-lines" args with
    | Some v => parseInt v | None => maxFunctionLines DEFAULT_THRESHOLDS end;
  maxFileLines :=
    match Js.optionValue "--max-file-lines" args with
    | Some v => parseInt v | None => maxFileLines DEFAULT_THRESHOLDS end;
  maxNestingDepth :=
    match Js.optionValue "--max-nesting" args with
    | Some v => parseInt v | None => maxNestingDepth DEFAULT_THRESHOLDS end;
  maxComplexity := maxComplexity DEFAULT_THRESHOLDS |}.

Definition parseOptions (args : list string) : SmellOptions :=
  let checks := parseChecks args ∅ in
  {| checks := if decide (checks = ∅) then list_to_set ALL_CHECKS else checks;
     exportedOnly := Js.includes "--exported" args;
     thresholds := parseThresholds args |}.

(** The part of [main] that runs the checks and fills [allReports]. *)
Definition runChecks (options : SmellOptions) (sourceFiles : list SourceFile)
    : list SmellReport :=
  let has c := bool_decide (c ∈ checks options) in
  let allReports :=
    if has "circular-deps" then checkCircularDeps sourceFiles else [] in
  fold_left
    (fun allReports sourceFile =>
       let allReports :=
         if has "large-functions"
         then allReports ++ checkLargeFunctions sourceFile options else allReports in
       let allReports :=
         if has "many-params"
         then allReports ++ checkManyParams sourceFile options else allReports in
       let allReports :=
         if has "missing-jsdoc"
         then allReports ++ checkMissingJsDoc sourceFile options else allReports in
       let allReports :=
         if has "deep-nesting"
         then allReports ++ checkDeepNesting sourceFile options else allReports in
       let allReports :=
         if has "large-files"
         then allReports ++ checkLargeFiles sourceFile options else allReports in
       if has "god-classes"
       then allReports ++ checkGodClasses sourceFile options else allReports)
    sourceFiles allReports.

(** [allReports.some(r => r.severity === "error")] *)
Definition hasErrors (allReports : list SmellReport) : bool :=
  existsb (fun r => severity_eqb (severity r) error) allReports.

(** [main]: the exit code of the process and the findings it printed.
    [loaded] is what the project holds after the files are added, or
    [None] when the target path cannot be read (the promise rejects and
    the handler exits with 1).  The test [!targetPath] holds when [find]
    yields nothing and when it yields the empty string.  A run that
    reaches the end of [main] without [process.exit] ends with code 0. *)
Definition main (args : list string) (loaded : option (list SourceFile))
    : Z * list SmellReport :=
  if Js.includes "--help" args || (length args =? 0)%nat then (0, []) else
  match find (fun arg => negb (Js.startsWith arg "--")) args with
  | None => (1, [])
  | Some targetPath =>
      if negb (Js.truthy targetPath) then (1, []) else
      let options := parseOptions args in
      match loaded with
      | None => (1, [])
      | Some sourceFiles =>
          if (length sourceFiles =? 0)%nat then (1, []) else
          let allReports := runChecks options sourceFiles in
          if hasErrors allReports then (1, allReports) else (0, allReports)
      end
  end.

End WithEnvironment.

End CodeSmells.

(** ** trace-calls.ts *)

Module TraceCalls.

(** The optional field [signature] of the interface is never assigned by
    the script and is left out. *)
Inductive CallNode :=
  mkCallNode (name : string) (file : string) (line : Z) (children : list CallNode).

Definition name (n : CallNode) : string :=
  match n with mkCallNode x _ _ _ => x end.
Definition file (n : CallNode) : string :=
  match n with mkCallNode _ x _ _ => x end.
Definition line (n : CallNode) : Z :=
  match n with mkCallNode _ _ x _ => x end.
Definition children (n : CallNode) : list CallNode :=
  match n with mkCallNode _ _ _ x => x end.

Inductive Direction := up | down | both.

Record TraceOptions := {
  direction : Direction;
  maxDepth : Z;
  showTree : bool;
  showUsage : bool;
}.

(** A node of the syntax tree as the tracer looks at it: a function or
    method declaration (named by its index in the project), an arrow
    function, or anything else. *)
Inductive SyntaxNode :=
| FunctionDeclarationNode (decl : nat)
| MethodDeclarationNode (decl : nat)
| ArrowFunctionNode
| OtherNode.

(** One entry of [findReferencesAsNodes()]. *)
Record ReferenceNode := {
  refIsDefinition : bool;            (* [ref === node || ref === node.getNameNode()] *)
  refAncestors : list SyntaxNode;    (* parent first, source file last *)
}.

(** [descendant.getExpression()] of a call expression. *)
Inductive Expression :=
| Identifier (getText : string)
| PropertyAccessExpression (getName : string)
| OtherExpression.

Record CallExpression := {
  getExpression : Expression;
  (* [expression.getType().getSymbol()?.getDeclarations() || []] *)
  getDeclarations : list SyntaxNode;
}.

(** [FunctionDeclaration | MethodDeclaration] with the answers of the
    symbol model the tracer asks for. *)
Record Declaration := {
  getName : option string;
  getFilePath : string;              (* [getSourceFile().getFilePath()] *)
  getStartLineNumber : Z;
  findReferencesAsNodes : list ReferenceNode;
  (* the call expressions met by [body.forEachDescendant], in order;
     [None] when the declaration has no body *)
  getBody : option (list CallExpression);
}.

(** The key put in [visited]: [`${filePath}:${name}`]. *)
Definition keyOf (filePath name : string) : string :=
  filePath +:+ ":" +:+ name.

(** The predicate handed to [ref.getFirstAncestor]. *)
Definition isFunctionLike (ancestor : SyntaxNode) : bool :=
  match ancestor with
  | FunctionDeclarationNode _ | MethodDeclarationNode _ | ArrowFunctionNode => true
  | OtherNode => false
  end.

Definition getFirstAncestor (condition : SyntaxNode -> bool)
    (ancestors : list SyntaxNode) : option SyntaxNode :=
  find condition ancestors.

(** [containingFn] when it passes the test
    [containingFn && (isFunctionDeclaration || isMethodDeclaration)]. *)
Definition containingDeclaration (ref : ReferenceNode) : option nat :=
  match getFirstAncestor isFunctionLike (refAncestors ref) with
  | Some (FunctionDeclarationNode c) => Some c
  | Some (MethodDeclarationNode c) => Some c
  | _ => None
  end.

(** [calledName] of a call expression; the empty string when the callee
    is neither an identifier nor a property access. *)
Definition calledNameOf (expression : Expression) : string :=
  match expression with
  | Identifier text => text
  | PropertyAccessExpression n => n
  | OtherExpression => ""
  end.

Section WithProject.

(** [path.relative(process.cwd(), p)] *)
Variable relative : string -> string.
(** The declarations of the project. *)
Variable project : nat -> Declaration.

Definition nameOf (d : nat) : string :=
  Js.orElse (getName (project d)) "(anonymous)".

Definition nodeKeyOf (d : nat) : string :=
  keyOf (getFilePath (project d)) (nameOf d).

(** The body of the loop of [getCallers] for one reference: [acc] holds
    the array [callers] and the set [visited], which is one object
    shared by all calls; [recur] is the recursive call at [depth + 1]. *)
Definition visitReference
    (recur : nat -> gset string -> list CallNode * gset string)
    (acc : list CallNode * gset string) (ref : ReferenceNode)
    : list CallNode * gset string :=
  if refIsDefinition ref then acc else
  match containingDeclaration ref with
  | Some containingFn =>
      let callerName := nameOf containingFn in
      let callerFile := relative (getFilePath (project containingFn)) in
      let callerLine := getStartLineNumber (project containingFn) in
      let callerKey := keyOf (getFilePath (project containingFn)) callerName in
      if decide (callerKey ∈ acc.2) then acc else
      let result := recur containingFn acc.2 in
      (acc.1 ++ [mkCallNode callerName callerFile callerLine result.1], result.2)
  | None => acc
  end.

(** The body of [getCallers] below the depth test.  The set [visited]
    is passed in and handed back. *)
Definition getCallersBody
    (recur : nat -> gset string -> list CallNode * gset string)
    (node : nat) (visited : gset string) : list CallNode * gset string :=
  let nodeKey := nodeKeyOf node in
  if decide (nodeKey ∈ visited) then ([], visited) else
  let visited := {[nodeKey]} ∪ visited in
  fold_left (visitReference recur) (findReferencesAsNodes (project node))
            ([], visited).

(** [getCallers] with [remaining] levels left before [depth >= maxDepth]. *)
Fixpoint getCallersWithin (remaining : nat)
    : nat -> gset string -> list CallNode * gset string :=
  match remaining with
  | O => fun _ visited => ([], visited)
  | S remaining' => getCallersBody (getCallersWithin remaining')
  end.

Definition getCallers (node : nat) (depth maxDepth : Z) (visited : gset string)
    : list CallNode * gset string :=
  getCallersWithin (Z.to_nat (maxDepth - depth)) node visited.

(** The body of [getCallees] below the depth test.  Every recursive
    call gets its own copy [new Set(visited)], so the set is passed by
    value and nothing is handed back. *)
Definition getCalleesBody
    (recur : nat -> gset string -> list CallNode)
    (node : nat) (visited : gset string) : list CallNode :=
  let nodeKey := nodeKeyOf node in
  if decide (nodeKey ∈ visited) then [] else
  let visited := {[nodeKey]} ∪ visited in
  match getBody (project node) with
  | None => []
  | Some calls =>
      fold_left
        (fun callees call =>
           let calledName := calledNameOf (getExpression call) in
           if Js.truthy calledName then
             fold_left
               (fun callees def =>
                  match def with
                  | FunctionDeclarationNode d | MethodDeclarationNode d =>
                      let calleeFile := relative (getFilePath (project d)) in
                      let calleeLine := getStartLineNumber (project d) in
                      let calleeKey := keyOf (getFilePath (project d)) calledName in
                      if decide (calleeKey ∈ visited) then callees else
                      callees ++ [mkCallNode calledName calleeFile calleeLine
                                             (recur d visited)]
                  | _ => callees
                  end)
               (getDeclarations call) callees
           else callees)
        calls []
  end.

Fixpoint getCalleesWithin (remaining : nat) : nat -> gset string -> list CallNode :=
  match remaining with
  | O => fun _ _ => []
  | S remaining' => getCalleesBody (getCalleesWithin remaining')
  end.

Definition getCallees (node : nat) (depth maxDepth : Z) (visited : gset string)
    : list CallNode :=
  getCalleesWithin (Z.to_nat (maxDepth - depth)) node visited.

(** [parseInt(s, 10)] on the integers it yields *)
Variable parseInt : string -> Z.

(** The options object built by [main]. *)
Definition parseOptions (args : list string) : TraceOptions := {|
  direction :=
    if Js.includes "--down" args
    then (if Js.includes "--up" args then both else down)
    else up;
  maxDepth :=
    match Js.optionValue "--depth" args with
    | Some v => parseInt v
    | None => 3
    end;
  showTree := Js.includes "--tree" args;
  showUsage := Js.includes "--show-usage" args |}.

(** The two traces of [main] for the declaration [fn]: the callers tree
    when the direction is [up] or [both], the callees tree when it is
    [down] or [both]. *)
Definition traceUp (fn : nat) (options : TraceOptions) : list CallNode :=
  (getCallers fn 0 (maxDepth options) ∅).1.

Definition traceDown (fn : nat) (options : TraceOptions) : list CallNode :=
  getCallees fn 0 (maxDepth options) ∅.

Definition trace (fn : nat) (options : TraceOptions)
    : option (list CallNode) * option (list CallNode) :=
  ( match direction options with
    | up | both => Some (traceUp fn options)
    | down => None
    end,
    match direction options with
    | down | both => Some (traceDown fn options)
    | up => None
    end ).

End WithProject.

(** *** Measures on call trees *)

(** The identity of a node of the tree: source file and name. *)
Definition identity (n : CallNode) : string * string := (file n, name n).

(** Number of edges of the longest path from the traced declaration (the
    root, which is not itself a [CallNode]) down to a leaf. *)
Fixpoint nodeHeight (n : CallNode) : nat :=
  match n with
  | mkCallNode _ _ _ cs => S (fold_right (fun c acc => Nat.max (nodeHeight c) acc) O cs)
  end.

Definition forestHeight (forest : list CallNode) : nat :=
  fold_right (fun c acc => Nat.max (nodeHeight c) acc) O forest.

(** The identities along every path from a node down to a leaf. *)
Fixpoint pathsFrom (n : CallNode) : list (list (string * string)) :=
  match n with
  | mkCallNode nm f _ cs =>
      match cs with
      | [] => [[(f, nm)]]
      | _ => map (cons (f, nm)) (flat_map pathsFrom cs)
      end
  end.

(** The identities along every root-to-leaf path, the root included. *)
Definition rootPaths (root : string * string) (forest : list CallNode)
    : list (list (string * string)) :=
  match forest with
  | [] => [[root]]
  | _ => map (cons root) (flat_map pathsFrom forest)
  end.

(** Every node of a tree, parents first. *)
Fixpoint nodesOf (n : CallNode) : list CallNode :=
  match n with
  | mkCallNode _ _ _ cs => n :: flat_map nodesOf cs
  end.

Definition allNodes (forest : list CallNode) : list CallNode :=
  flat_map nodesOf forest.

(** The nodes at most [k] edges away from the root. *)
Fixpoint nodesWithin (k : nat) (forest : list CallNode) : list CallNode :=
  match k with
  | O => []
  | S k' => flat_map (fun n => n :: nodesWithin k' (children n)) forest
  end.

End TraceCalls.

(** ** extract-signatures.ts *)

Module ExtractSignatures.
Import Model.

Record ExtractOptions := {
  exportedOnly : bool;
  includeTypes : bool;
  jsonOutput : bool;
  includePrivate : bool;
}.

Inductive Kind := KFunction | KMethod | KClass | KInterface | KType.

Record SignatureInfo := {
  file : string;
  name : string;
  kind : Kind;
  signature : string;
  jsdoc : option string;
  exported : bool;
  line : Z;
  className : option string;
}.

(** The callback mapped over [getParameters()]. *)
Definition renderParameter (p : ParameterDeclaration) : string :=
  let optional := if paramIsOptional p then "?" else "" in
  let type := paramTypeText p in
  paramGetName p +:+ optional +:+ ": " +:+ type.

(** [typeParams ? `<${typeParams}>` : ""] *)
Definition typeParamStrOf (typeParameters : list string) : string :=
  let typeParams := Js.join ", " typeParameters in
  if Js.truthy typeParams then "<" +:+ typeParams +:+ ">" else "".

Definition getFunctionSignature (fn : FunctionLike) : string :=
  let name := Js.orElse (fnGetName fn) "(anonymous)" in
  let params := Js.join ", " (map renderParameter (fnParameters fn)) in
  let returnType := fnReturnTypeText fn in
  let async := if fnIsAsync fn then "async " else "" in
  let typeParamStr := typeParamStrOf (fnTypeParameters fn) in
  async +:+ "function " +:+ name +:+ typeParamStr +:+ "(" +:+ params +:+ "): "
        +:+ returnType.

Definition getMethodSignature (method : FunctionLike) (className : string) : string :=
  let name := Js.template (fnGetName method) in
  let params := Js.join ", " (map renderParameter (fnParameters method)) in
  let returnType := fnReturnTypeText method in
  let async := if fnIsAsync method then "async " else "" in
  let staticMod := if fnIsStatic method then "static " else "" in
  let typeParamStr := typeParamStrOf (fnTypeParameters method) in
  staticMod +:+ async +:+ name +:+ typeParamStr +:+ "(" +:+ params +:+ "): "
            +:+ returnType.

Definition getClassSignature (cls : ClassDeclaration) : string :=
  let name := Js.orElse (clsGetName cls) "(anonymous)" in
  let typeParamStr := typeParamStrOf (clsTypeParameters cls) in
  let implementsClauses := Js.join ", " (clsGetImplements cls) in
  let sig := "class " +:+ name +:+ typeParamStr in
  let sig :=
    match clsGetExtends cls with
    | Some extendsClause =>
        if Js.truthy extendsClause then sig +:+ " extends " +:+ extendsClause else sig
    | None => sig
    end in
  if Js.truthy implementsClauses then sig +:+ " implements " +:+ implementsClauses
  else sig.

Definition getInterfaceSignature (iface : InterfaceDeclaration) : string :=
  let name := ifaceGetName iface in
  let typeParamStr := typeParamStrOf (ifaceTypeParameters iface) in
  let extendsClause := Js.join ", " (ifaceGetExtends iface) in
  let sig := "interface " +:+ name +:+ typeParamStr in
  if Js.truthy extendsClause then sig +:+ " extends " +:+ extendsClause else sig.

Definition getTypeSignature (typeAlias : TypeAliasDeclaration) : string :=
  let name := aliasGetName typeAlias in
  let typeParamStr := typeParamStrOf (aliasTypeParameters typeAlias) in
  let typeText := aliasTypeText typeAlias in
  "type " +:+ name +:+ typeParamStr +:+ " = " +:+ typeText.

Section WithEnvironment.

(** [path.relative(process.cwd(), p)] *)
Variable relative : string -> string.

Definition functionInfo (relativePath : string) (fn : FunctionLike) : SignatureInfo := {|
  file := relativePath;
  name := Js.orElse (fnGetName fn) "(anonymous)";
  kind := KFunction;
  signature := getFunctionSignature fn;
  jsdoc := getJsDoc (fnJsDocs fn);
  exported := fnIsExported fn;
  line := fnStartLineNumber fn;
  className := None |}.

Definition classInfo (relativePath : string) (cls : ClassDeclaration) : SignatureInfo := {|
  file := relativePath;
  name := Js.orElse (clsGetName cls) "(anonymous)";
  kind := KClass;
  signature := getClassSignature cls;
  jsdoc := getJsDoc (clsJsDocs cls);
  exported := clsIsExported cls;
  line := clsStartLineNumber cls;
  className := None |}.

Definition methodInfo (relativePath : string) (cls : ClassDeclaration)
    (method : FunctionLike) : SignatureInfo :=
  let className := Js.orElse (clsGetName cls) "(anonymous)" in
  {| file := relativePath;
     name := Js.template (fnGetName method);
     kind := KMethod;
     signature := getMethodSignature method className;
     jsdoc := getJsDoc (fnJsDocs method);
     exported := clsIsExported cls;
     line := fnStartLineNumber method;
     className := Some className |}.

Definition interfaceInfo (relativePath : string) (iface : InterfaceDeclaration)
    : SignatureInfo := {|
  file := relativePath;
  name := ifaceGetName iface;
  kind := KInterface;
  signature := getInterfaceSignature iface;
  jsdoc := getJsDoc (ifaceJsDocs iface);
  exported := ifaceIsExported iface;
  line := ifaceStartLineNumber iface;
  className := None |}.

Definition typeAliasInfo (relativePath : string) (typeAlias : TypeAliasDeclaration)
    : SignatureInfo := {|
  file := relativePath;
  name := aliasGetName typeAlias;
  kind := KType;
  signature := getTypeSignature typeAlias;
  jsdoc := getJsDoc (aliasJsDocs typeAlias);
  exported := aliasIsExported typeAlias;
  line := aliasStartLineNumber typeAlias;
  className := None |}.

Definition isPrivate (method : FunctionLike) : bool :=
  match fnGetScope method with ScopePrivate => true | _ => false end.

(** [extractFromSourceFile]: the array [signatures] is filled by four
    loops, one after the other. *)
Definition extractFromSourceFile (sourceFile : SourceFile) (options : ExtractOptions)
    : list SignatureInfo :=
  let relativePath := relative (sfGetFilePath sourceFile) in
  (* Extract functions *)
  let signatures :=
    fold_left
      (fun signatures fn =>
         if exportedOnly options && negb (fnIsExported fn) then signatures
         else signatures ++ [functionInfo relativePath fn])
      (getFunctions sourceFile) [] in
  (* Extract classes and their methods *)
  let signatures :=
    fold_left
      (fun signatures cls =>
         if exportedOnly options && negb (clsIsExported cls) then signatures else
         let signatures := signatures ++ [classInfo relativePath cls] in
         fold_left
           (fun signatures method =>
              if negb (includePrivate options) && isPrivate method then signatures
              else signatures ++ [methodInfo relativePath cls method])
           (clsGetMethods cls) signatures)
      (getClasses sourceFile) signatures in
  (* Extract interfaces and types if requested *)
  if includeTypes options then
    let signatures :=
      fold_left
        (fun signatures iface =>
           if exportedOnly options && negb (ifaceIsExported iface) then signatures
           else signatures ++ [interfaceInfo relativePath iface])
        (getInterfaces sourceFile) signatures in
    fold_left
      (fun signatures typeAlias =>
         if exportedOnly options && negb (aliasIsExported typeAlias) then signatures
         else signatures ++ [typeAliasInfo relativePath typeAlias])
      (getTypeAliases sourceFile) signatures
  else signatures.

(** The loop of [main] that fills [allSignatures]. *)
Definition extractAll (sourceFiles : list SourceFile) (options : ExtractOptions)
    : list SignatureInfo :=
  fold_left
    (fun allSignatures sourceFile =>
       allSignatures ++ extractFromSourceFile sourceFile options)
    sourceFiles [].

End WithEnvironment.

Definition isMethodKind (k : Kind) : bool :=
  match k with KMethod => true | _ => false end.

Definition formatSignature (sig : SignatureInfo) : string :=
  let lines :=
    match jsdoc sig with
    | Some doc => if Js.truthy doc then [doc] else []
    | None => []
    end in
  let exportPrefix := if exported sig then "export " else "" in
  let hasClassName :=
    match className sig with Some c => Js.truthy c | None => false end in
  let lines :=
    if isMethodKind (kind sig) && hasClassName
    then lines ++ ["  " +:+ signature sig]
    else lines ++ [exportPrefix +:+ signature sig] in
  Js.join newline lines.

End ExtractSignatures.

(** ** Vocabulary of the properties *)

Module Props.
Import Ast Model.

(** A function or method that the exported-only guard of a check lets
    through. *)
Definition passesExportFilter (options : CodeSmells.SmellOptions) (fn : FunctionLike)
    : bool :=
  negb (CodeSmells.exportedOnly options && negb (fnIsExported fn)).

Definition isLargeFunctionFinding (r : CodeSmells.SmellReport) : bool :=
  String.eqb (CodeSmells.type r) "large-function".

Definition isHighComplexityFinding (r : CodeSmells.SmellReport) : bool :=
  String.eqb (CodeSmells.type r) "high-complexity".

(** What one call of the closure [checkFn] of [checkLargeFunctions]
    appends to [reports]. *)
Definition largeFunctionPart (options : CodeSmells.SmellOptions) (filePath : string)
    (fn : FunctionLike) (className : option string) : list CodeSmells.SmellReport :=
  CodeSmells.checkFn_largeFunctions options filePath [] fn className.

(** The constructs that the high-complexity rule counts, one each: [if],
    the ternary, the five loops, [case] and [catch] clauses, and the
    operators [&&] and [||]. *)
Definition isCountedConstruct (n : Node) : bool :=
  match getKind n with
  | IfStatement | ConditionalExpression
  | ForStatement | ForInStatement | ForOfStatement
  | WhileStatement | DoStatement
  | CaseClause | CatchClause => true
  | BinaryExpression AmpersandAmpersandToken
  | BinaryExpression BarBarToken => true
  | _ => false
  end.

(** Number of counted constructs below a node. *)
Definition countedBelow (n : Node) : Z :=
  Z.of_nat (length (List.filter isCountedConstruct (descendants n))).

(** The complexity as the rule words it: 1 plus the counted constructs
    of the body. *)
Definition bodyComplexity (fn : FunctionLike) : Z :=
  1 + match fnGetBody fn with Some body => countedBelow body | None => 0 end.

(** *** Signature rendering, as the rendering rule words it *)

(** [param: Type], with [?] before the colon for an optional parameter. *)
Definition parameterText (p : ParameterDeclaration) : string :=
  if paramIsOptional p
  then paramGetName p +:+ "?: " +:+ paramTypeText p
  else paramGetName p +:+ ": " +:+ paramTypeText p.

(** [param: Type[, ...]] *)
Fixpoint parameterListText (ps : list ParameterDeclaration) : string :=
  match ps with
  | [] => ""
  | [p] => parameterText p
  | p :: rest => parameterText p +:+ ", " +:+ parameterListText rest
  end.

(** [[<TypeParams>]]: present when the declaration has type parameters. *)
Definition typeParametersText (typeParameters : list string) : string :=
  match typeParameters with
  | [] => ""
  | _ => "<" +:+ Js.join ", " typeParameters +:+ ">"
  end.

(** [name[<TypeParams>](param: Type[, ...]): ReturnType] *)
Definition declaratorText (name : string) (fn : FunctionLike) : string :=
  name +:+ typeParametersText (fnTypeParameters fn) +:+ "("
       +:+ parameterListText (fnParameters fn) +:+ "): " +:+ fnReturnTypeText fn.

(** The rule [[async] [static] name...]: [async] before [static], no
    other leading keyword. *)
Definition ruleSignature (name : string) (fn : FunctionLike) : string :=
  (if fnIsAsync fn then "async " else "") +:+
  (if fnIsStatic fn then "static " else "") +:+ declaratorText name fn.

(** *** Extraction in declaration order *)

(** The entries of one top-level statement: a function, a class followed
    by its methods, an interface or a type alias, each after the filters
    of the extractor. *)
Definition entriesOfStatement (relativePath : string)
    (options : ExtractSignatures.ExtractOptions) (st : Statement)
    : list ExtractSignatures.SignatureInfo :=
  match st with
  | StFunction fn =>
      if ExtractSignatures.exportedOnly options && negb (fnIsExported fn) then []
      else [ExtractSignatures.functionInfo relativePath fn]
  | StClass cls =>
      if ExtractSignatures.exportedOnly options && negb (clsIsExported cls) then []
      else ExtractSignatures.classInfo relativePath cls
           :: map (ExtractSignatures.methodInfo relativePath cls)
                  (List.filter
                     (fun m => negb (negb (ExtractSignatures.includePrivate options)
                                     && ExtractSignatures.isPrivate m))
                     (clsGetMethods cls))
  | StInterface iface =>
      if negb (ExtractSignatures.includeTypes options) then []
      else if ExtractSignatures.exportedOnly options && negb (ifaceIsExported iface)
      then [] else [ExtractSignatures.interfaceInfo relativePath iface]
  | StTypeAlias typeAlias =>
      if negb (ExtractSignatures.includeTypes options) then []
      else if ExtractSignatures.exportedOnly options && negb (aliasIsExported typeAlias)
      then [] else [ExtractSignatures.typeAliasInfo relativePath typeAlias]
  | _ => []
  end.

(** The extraction as the contract words it: the statements of the unit
    in the order they are written. *)
Definition extractInDeclarationOrder (relative : string -> string)
    (sourceFile : SourceFile) (options : ExtractSignatures.ExtractOptions)
    : list ExtractSignatures.SignatureInfo :=
  flat_map (entriesOfStatement (relative (sfGetFilePath sourceFile)) options)
           (sfStatements sourceFile).

(** The declarations of a unit regrouped by kind: functions, classes,
    interfaces, type aliases; the order inside each kind is kept. *)
Definition groupedByKind (sourceFile : SourceFile) : SourceFile := {|
  sfGetFilePath := sfGetFilePath sourceFile;
  sfStatements :=
    map StFunction (getFunctions sourceFile) ++ map StClass (getClasses sourceFile)
    ++ map StInterface (getInterfaces sourceFile)
    ++ map StTypeAlias (getTypeAliases sourceFile);
  sfGetEndLineNumber := sfGetEndLineNumber sourceFile |}.

(** The declarations of a unit in the order they are written: its
    statements without the imports and the statements that declare
    nothing the extractor looks at. *)
Definition declarationsOf (sourceFile : SourceFile) : list Statement :=
  List.filter
    (fun st => match st with
               | StFunction _ | StClass _ | StInterface _ | StTypeAlias _ => true
               | _ => false
               end)
    (sfStatements sourceFile).

(** *** Call trees *)

(** A node of the tree carries the key [`${filePath}:${name}`] of a
    declaration when its [file] is the relative form of [filePath]. *)
Definition carriesKey (relative : string -> string) (cn : TraceCalls.CallNode)
    (key : string) : Prop :=
  exists filePath,
    relative filePath = TraceCalls.file cn /\
    key = TraceCalls.keyOf filePath (TraceCalls.name cn).

(** No key of [keys] is carried by the node. *)
Definition freshFor (relative : string -> string) (keys : gset string)
    (cn : TraceCalls.CallNode) : Prop :=
  forall key, carriesKey relative cn key -> key ∉ keys.

(** The identity under which a declaration is reported. *)
Definition declaredIdentity (relative : string -> string)
    (project : nat -> TraceCalls.Declaration) (d : nat) : string * string :=
  (relative (TraceCalls.getFilePath (project d)), TraceCalls.nameOf project d).

(** Every call that resolves to a function or method declaration is
    written with the declared name of that declaration (no alias). *)
Definition resolvesByDeclaredName (project : nat -> TraceCalls.Declaration) : Prop :=
  forall node calls call d,
    TraceCalls.getBody (project node) = Some calls ->
    In call calls ->
    In (TraceCalls.FunctionDeclarationNode d) (TraceCalls.getDeclarations call)
    \/ In (TraceCalls.MethodDeclarationNode d) (TraceCalls.getDeclarations call) ->
    Js.truthy (TraceCalls.calledNameOf (TraceCalls.getExpression call)) = true ->
    TraceCalls.calledNameOf (TraceCalls.getExpression call) = TraceCalls.nameOf project d.

(** What the loop of [getCallees] emits for one call expression of a
    body: nothing when the callee is neither an identifier nor a property
    access; otherwise, for every function or method declaration the call
    resolves to, nothing when the key built from the name written at the
    call site is in [seen], and else one node under that name whose
    children are [below] that declaration. *)
Definition emittedForCall (relative : string -> string)
    (project : nat -> TraceCalls.Declaration) (seen : gset string)
    (below : nat -> list TraceCalls.CallNode) (call : TraceCalls.CallExpression)
    : list TraceCalls.CallNode :=
  let calledName := TraceCalls.calledNameOf (TraceCalls.getExpression call) in
  if Js.truthy calledName then
    flat_map
      (fun def =>
         match def with
         | TraceCalls.FunctionDeclarationNode d | TraceCalls.MethodDeclarationNode d =>
             if decide (TraceCalls.keyOf (TraceCalls.getFilePath (project d)) calledName
                        ∈ seen)
             then []
             else [TraceCalls.mkCallNode calledName
                     (relative (TraceCalls.getFilePath (project d)))
                     (TraceCalls.getStartLineNumber (project d)) (below d)]
         | _ => []
         end)
      (TraceCalls.getDeclarations call)
  else [].



(** What holds of the pair (callers so far, visited set) while
    [getCallers] runs with [remaining] levels left: the set only grows
    from [low]; no node carries a key of [fresh]; the nodes above the last
    level are in the set and pairwise distinct; no identity repeats along
    a path; and every key of the set is old or carried by a node. *)
Definition tracedWithin (relative : string -> string) (remaining : nat)
    (low fresh : gset string) (acc : list TraceCalls.CallNode * gset string) : Prop :=
  low ⊆ acc.2 /\
  (TraceCalls.forestHeight acc.1 <= remaining)%nat /\
  Forall (freshFor relative fresh) (TraceCalls.allNodes acc.1) /\
  Forall (fun cn => exists key, carriesKey relative cn key /\ key ∈ acc.2)
         (TraceCalls.nodesWithin (pred remaining) acc.1) /\
  List.NoDup (map TraceCalls.identity (TraceCalls.nodesWithin (pred remaining) acc.1)) /\
  Forall (fun p => List.NoDup p) (flat_map TraceCalls.pathsFrom acc.1) /\
  (forall key, key ∈ acc.2 ->
     key ∈ fresh \/
     exists cn, In cn (TraceCalls.allNodes acc.1) /\ carriesKey relative cn key).

(** What holds of the callees pushed so far by [getCallees] with
    [remaining] levels left: at most [remaining] levels, no node carries a
    key of [fresh], and (under [consistent]) no identity repeats along a
    path. *)
Definition calleesTraced (relative : string -> string) (consistent : Prop)
    (remaining : nat) (fresh : gset string) (forest : list TraceCalls.CallNode) : Prop :=
  (TraceCalls.forestHeight forest <= remaining)%nat /\
  Forall (freshFor relative fresh) (TraceCalls.allNodes forest) /\
  (consistent -> Forall (fun p => List.NoDup p) (flat_map TraceCalls.pathsFrom forest)).

(** *** Dependency cycles *)

(** [b] is a dependency of [a] in the graph. *)
Definition isEdge (graph : list (string * list string)) (a b : string) : Prop :=
  exists deps, CodeSmells.mapGet graph a = Some deps /\ In b deps.

(** Every consecutive pair of the list is an edge of the graph. *)
Fixpoint chain (graph : list (string * list string)) (nodes : list string) : Prop :=
  match nodes with
  | a :: rest =>
      match rest with
      | b :: _ => isEdge graph a b /\ chain graph rest
      | [] => True
      end
  | [] => True
  end.

(** A cycle as it is reported: a first node, further nodes, and the first
    node again; no node twice before the closing one; consecutive nodes
    joined by edges. *)
Definition isSimpleCycle (graph : list (string * list string)) (cycle : list string)
    : Prop :=
  exists first body,
    cycle = first :: body ++ [first] /\
    List.NoDup (first :: body) /\
    chain graph cycle.

(** A finding of [checkCircularDeps] that is built from a simple cycle of
    the graph. *)
Definition reportsSimpleCycle (graph : list (string * list string))
    (r : CodeSmells.SmellReport) : Prop :=
  exists cycle,
    isSimpleCycle graph cycle /\
    CodeSmells.type r = "circular-dependency" /\
    CodeSmells.severity r = CodeSmells.error /\
    CodeSmells.file r = hd "" cycle /\
    CodeSmells.details r = Some (Js.join " → " cycle).

(** What holds of the variables of [dfs] between two steps: the path has
    no repetition, it is what the recursion stack holds, its nodes are
    visited, it follows edges, and every report so far is a simple cycle. *)
Definition dfsInvariant (graph : list (string * list string)) (st : CodeSmells.DfsState)
    : Prop :=
  List.NoDup (CodeSmells.pathStack st) /\
  (forall x, x ∈ CodeSmells.recursionStack st <-> In x (CodeSmells.pathStack st)) /\
  (forall x, In x (CodeSmells.pathStack st) -> x ∈ CodeSmells.visited st) /\
  chain graph (CodeSmells.pathStack st) /\
  Forall (reportsSimpleCycle graph) (CodeSmells.reports st).

End Props.

(** ** Concrete inputs *)

Module Examples.
Import Ast Model.

(** A function declaration with an empty body and no parameters that
    spans the given lines. *)
Definition plainFunction (fnName : string) (isExportedFlag : bool)
    (startLine endLine : Z) : FunctionLike := {|
  fnGetName := Some fnName;
  fnIsExportable := true;
  fnIsExportedFlag := isExportedFlag;
  fnStartLineNumber := startLine;
  fnEndLineNumber := endLine;
  fnTypeParameters := [];
  fnParameters := [];
  fnReturnTypeText := "void";
  fnIsAsync := false;
  fnIsStatic := false;
  fnGetScope := ScopePublic;
  fnJsDocs := [];
  fnNode := mkNode FunctionDeclarationKind [mkNode Block []];
  fnGetBody := Some (mkNode Block []) |}.

(** [function pick(a, b = a || "x") {}]: the only logical operator sits
    in the initializer of a parameter. *)
Definition functionWithDefault : FunctionLike := {|
  fnGetName := Some "pick";
  fnIsExportable := true;
  fnIsExportedFlag := true;
  fnStartLineNumber := 1;
  fnEndLineNumber := 1;
  fnTypeParameters := [];
  fnParameters :=
    [ {| paramGetName := "a"; paramIsOptional := false; paramTypeText := "string" |};
      {| paramGetName := "b"; paramIsOptional := true; paramTypeText := "string" |} ];
  fnReturnTypeText := "void";
  fnIsAsync := false;
  fnIsStatic := false;
  fnGetScope := ScopePublic;
  fnJsDocs := [];
  fnNode :=
    mkNode FunctionDeclarationKind
      [ mkNode OtherKind [];
        mkNode ParameterKind [mkNode OtherKind []];
        mkNode ParameterKind
          [ mkNode OtherKind [];
            mkNode (BinaryExpression BarBarToken) [mkNode OtherKind []; mkNode OtherKind []] ];
        mkNode Block [] ];
  fnGetBody := Some (mkNode Block []) |}.

(** A function that is not exported and whose body is a sequence of
    [count] empty [if] statements. *)
Definition branchyFunction (isExportedFlag : bool) (count : nat) : FunctionLike := {|
  fnGetName := Some "dispatch";
  fnIsExportable := true;
  fnIsExportedFlag := isExportedFlag;
  fnStartLineNumber := 1;
  fnEndLineNumber := 30;
  fnTypeParameters := [];
  fnParameters := [];
  fnReturnTypeText := "void";
  fnIsAsync := false;
  fnIsStatic := false;
  fnGetScope := ScopePublic;
  fnJsDocs := [];
  fnNode :=
    mkNode FunctionDeclarationKind
      [ mkNode OtherKind [];
        mkNode Block (List.repeat (mkNode IfStatement [mkNode OtherKind []; mkNode Block []]) count) ];
  fnGetBody :=
    Some (mkNode Block (List.repeat (mkNode IfStatement [mkNode OtherKind []; mkNode Block []]) count)) |}.

(** The working directory is [/w], the analysed files live in [/src]:
    [path.relative("/w", "/src/a.ts")] is ["../src/a.ts"]. *)
Definition relativeToW (p : string) : string := ".." +:+ p.

(** [/src/big.ts]: one exported function of 120 lines and one private
    function of 60 lines. *)
Definition bigFile : SourceFile := {|
  sfGetFilePath := "/src/big.ts";
  sfStatements :=
    [ StFunction (plainFunction "load" true 1 120);
      StFunction (plainFunction "helper" false 122 181) ];
  sfGetEndLineNumber := 182 |}.

(** [static async fetch(id: string, opts?: Options): Promise<User>] *)
Definition fetchMethod : FunctionLike := {|
  fnGetName := Some "fetch";
  fnIsExportable := false;
  fnIsExportedFlag := false;
  fnStartLineNumber := 12;
  fnEndLineNumber := 20;
  fnTypeParameters := [];
  fnParameters :=
    [ {| paramGetName := "id"; paramIsOptional := false; paramTypeText := "string" |};
      {| paramGetName := "opts"; paramIsOptional := true; paramTypeText := "Options" |} ];
  fnReturnTypeText := "Promise<User>";
  fnIsAsync := true;
  fnIsStatic := true;
  fnGetScope := ScopePublic;
  fnJsDocs := [];
  fnNode := mkNode MethodDeclarationKind [mkNode Block []];
  fnGetBody := Some (mkNode Block []) |}.

(** [export class UserService { static async fetch(...) ... }] *)
Definition userServiceClass : ClassDeclaration := {|
  clsGetName := Some "UserService";
  clsIsExportable := true;
  clsIsExportedFlag := true;
  clsStartLineNumber := 10;
  clsTypeParameters := [];
  clsGetExtends := None;
  clsGetImplements := [];
  clsGetMethods := [fetchMethod];
  clsGetProperties := [];
  clsJsDocs := [] |}.

(** [export async function getUser(id: string): Promise<User | null>] *)
Definition getUserFunction : FunctionLike := {|
  fnGetName := Some "getUser";
  fnIsExportable := true;
  fnIsExportedFlag := true;
  fnStartLineNumber := 30;
  fnEndLineNumber := 40;
  fnTypeParameters := [];
  fnParameters :=
    [ {| paramGetName := "id"; paramIsOptional := false; paramTypeText := "string" |} ];
  fnReturnTypeText := "Promise<User | null>";
  fnIsAsync := true;
  fnIsStatic := false;
  fnGetScope := ScopePublic;
  fnJsDocs := [];
  fnNode := mkNode FunctionDeclarationKind [mkNode Block []];
  fnGetBody := Some (mkNode Block []) |}.

(** [/src/users.ts]: the class is written before the function. *)
Definition usersFile : SourceFile := {|
  sfGetFilePath := "/src/users.ts";
  sfStatements := [ StClass userServiceClass; StFunction getUserFunction ];
  sfGetEndLineNumber := 41 |}.

(** The same declarations, the function first, after an import and with
    another statement in between. *)
Definition importingUsersFile : SourceFile := {|
  sfGetFilePath := "/src/users.ts";
  sfStatements :=
    [ StImport "./db"; StFunction getUserFunction; StOther; StClass userServiceClass ];
  sfGetEndLineNumber := 43 |}.

Definition extractEverything : ExtractSignatures.ExtractOptions := {|
  ExtractSignatures.exportedOnly := false;
  ExtractSignatures.includeTypes := true;
  ExtractSignatures.jsonOutput := true;
  ExtractSignatures.includePrivate := false |}.

Definition optionsWith (onlyExported : bool) (maxLines : Z) : CodeSmells.SmellOptions := {|
  CodeSmells.checks := list_to_set CodeSmells.ALL_CHECKS;
  CodeSmells.exportedOnly := onlyExported;
  CodeSmells.thresholds := {|
    CodeSmells.maxParams := 5;
    CodeSmells.maxFunctionLines := maxLines;
    CodeSmells.maxFileLines := 500;
    CodeSmells.maxNestingDepth := 4;
    CodeSmells.maxComplexity := 10 |} |}.

(** *** Projects for the call tracer *)

(** A reference from the body of the function [caller], through plain
    blocks and statements only. *)
Definition referenceIn (caller : nat) : TraceCalls.ReferenceNode := {|
  TraceCalls.refIsDefinition := false;
  TraceCalls.refAncestors :=
    [ TraceCalls.OtherNode; TraceCalls.OtherNode;
      TraceCalls.FunctionDeclarationNode caller; TraceCalls.OtherNode ] |}.

(** The name node of the declaration itself. *)
Definition definitionReference : TraceCalls.ReferenceNode := {|
  TraceCalls.refIsDefinition := true;
  TraceCalls.refAncestors := [ TraceCalls.OtherNode ] |}.

(** A call [callee()] that resolves to the function [decl]. *)
Definition callTo (calledName : string) (decl : nat) : TraceCalls.CallExpression := {|
  TraceCalls.getExpression := TraceCalls.Identifier calledName;
  TraceCalls.getDeclarations := [ TraceCalls.FunctionDeclarationNode decl ] |}.

Definition functionIn (path fnName : string) (startLine : Z)
    (references : list TraceCalls.ReferenceNode)
    (calls : list TraceCalls.CallExpression) : TraceCalls.Declaration := {|
  TraceCalls.getName := Some fnName;
  TraceCalls.getFilePath := path;
  TraceCalls.getStartLineNumber := startLine;
  TraceCalls.findReferencesAsNodes := references;
  TraceCalls.getBody := Some calls |}.

(** [function f() { g(); }  function g() { f(); }] in [/src/loop.ts]. *)
Definition mutualProject (d : nat) : TraceCalls.Declaration :=
  match d with
  | O => functionIn "/src/loop.ts" "f" 1
           [definitionReference; referenceIn 1] [callTo "g" 1]
  | _ => functionIn "/src/loop.ts" "g" 5
           [definitionReference; referenceIn 0] [callTo "f" 0]
  end.

(** [function f() { g(); }  function g() { const again = f; again(); }]
    in [/src/again.ts]: [g] calls [f] back under the name [again]. *)
Definition aliasBackProject (d : nat) : TraceCalls.Declaration :=
  match d with
  | O => functionIn "/src/again.ts" "f" 1
           [definitionReference; referenceIn 1] [callTo "g" 1]
  | _ => functionIn "/src/again.ts" "g" 5
           [definitionReference; referenceIn 0] [callTo "again" 0]
  end.

(** [function f() { const go = h; go(); }
     function h() { const go = k; go(); }
     function k() {}] in [/src/alias.ts]: both calls are written [go()],
    and resolve to the declarations of [h] and of [k]. *)
Definition aliasProject (d : nat) : TraceCalls.Declaration :=
  match d with
  | O => functionIn "/src/alias.ts" "f" 1 [definitionReference] [callTo "go" 1]
  | S O => functionIn "/src/alias.ts" "h" 2 [definitionReference; referenceIn 0] [callTo "go" 2]
  | _ => functionIn "/src/alias.ts" "k" 3 [definitionReference; referenceIn 1] []
  end.


(** [function target() {}
     function a() { target(); }
     function b() { a(); }
     function c() { b(); b(); }] in [/src/chain.ts]: [c] calls [b] from
    two call sites. *)
Definition chainProject (d : nat) : TraceCalls.Declaration :=
  match d with
  | O => functionIn "/src/chain.ts" "target" 1 [definitionReference; referenceIn 1] []
  | S O => functionIn "/src/chain.ts" "a" 2 [definitionReference; referenceIn 2]
             [callTo "target" 0]
  | S (S O) => functionIn "/src/chain.ts" "b" 3
                 [definitionReference; referenceIn 3; referenceIn 3] [callTo "a" 1]
  | _ => functionIn "/src/chain.ts" "c" 4 [definitionReference]
           [callTo "b" 2; callTo "b" 2]
  end.

Definition defaultTrace : TraceCalls.TraceOptions := {|
  TraceCalls.direction := TraceCalls.both;
  TraceCalls.maxDepth := 3;
  TraceCalls.showTree := false;
  TraceCalls.showUsage := false |}.

(** *** A project with a dependency cycle *)

Definition importing (path : string) (specifiers : list string) : SourceFile := {|
  sfGetFilePath := path;
  sfStatements := map StImport specifiers;
  sfGetEndLineNumber := 10 |}.

(** [a.ts] imports [./b], [b.ts] imports [./c] and a package, [c.ts]
    imports [./a]. *)
Definition cyclicProject : list SourceFile :=
  [ importing "a.ts" ["./b"]; importing "b.ts" ["./c"; "lodash"];
    importing "c.ts" ["./a"] ].

(** Paths are kept as they are, a specifier [./x] resolves to [x], and the
    project holds the three files. *)
Definition resolveInRoot (filePath moduleSpecifier : string) : string :=
  if Js.startsWith moduleSpecifier "./"
  then String.substring 2 (String.length moduleSpecifier - 2) moduleSpecifier
  else moduleSpecifier.

Definition inCyclicProject (path : string) : bool :=
  existsb (String.eqb path) ["a.ts"; "b.ts"; "c.ts"].

End Examples.

(** ** The [Map] of arrays used to group records *)

Module JsMap.

(** [const existing = m.get(key) || []; existing.push(item);
    m.set(key, existing)] on a map that keeps the insertion order of its
    keys. *)
Fixpoint pushInto {V : Type} (key : string) (item : V) (m : list (string * list V))
    : list (string * list V) :=
  match m with
  | [] => [(key, [item])]
  | (k, items) :: rest =>
      if String.eqb k key then (k, items ++ [item]) :: rest
      else (k, items) :: pushInto key item rest
  end.

(** The loop [for (const item of items) { ... }] that fills the map. *)
Definition groupBy {V : Type} (keyOf : V -> string) (items : list V)
    : list (string * list V) :=
  fold_left (fun m item => pushInto (keyOf item) item m) items [].

End JsMap.

(** ** code-smells.ts: the textual report *)

Module CodeSmellsReport.
Import Model CodeSmells.

(** [reports.filter(r => r.severity === "error").length] *)
Definition errorCount (reports : list SmellReport) : nat :=
  length (List.filter (fun r => severity_eqb (severity r) error) reports).

(** [reports.filter(r => r.severity === "warning").length] *)
Definition warningCount (reports : list SmellReport) : nat :=
  length (List.filter (fun r => severity_eqb (severity r) warning) reports).

(** The map [byType] of [printReports]. *)
Definition byType (reports : list SmellReport) : list (string * list SmellReport) :=
  JsMap.groupBy type reports.

(** [report.line ? `${report.file}:${report.line}` : report.file]; the
    line 0 is falsy like a missing line. *)
Definition locationOf (report : SmellReport) : string :=
  match line report with
  | Some l => if l =? 0 then file report else file report +:+ ":" +:+ pretty l
  | None => file report
  end.

(** The calls of [console.log] for one report. *)
Definition reportLines (report : SmellReport) : list string :=
  let icon := if severity_eqb (severity report) error then "❌" else "⚠️" in
  [ icon +:+ " " +:+ locationOf report; "   " +:+ message report ]
  ++ match details report with
     | Some d => if Js.truthy d then ["   " +:+ d] else []
     | None => []
     end.

(** [printReports]: the arguments of the successive calls of
    [console.log]. *)
Definition printReports (reports : list SmellReport) : list string :=
  if (length reports =? 0)%nat
  then [newline +:+ "✅ No code smells detected!" +:+ newline]
  else
    [ newline +:+ "=== Code Smell Report ===";
      "Found " +:+ pretty (errorCount reports) +:+ " errors, "
               +:+ pretty (warningCount reports) +:+ " warnings" +:+ newline ]
    ++ flat_map
         (fun group =>
            (newline +:+ "## " +:+ group.1 +:+ " (" +:+ pretty (length group.2) +:+ ")"
                     +:+ newline)
            :: flat_map reportLines group.2)
         (byType reports)
    ++ [ "" ].

End CodeSmellsReport.

(** ** trace-calls.ts: finding the declaration and printing the trees *)

Module TraceCallsOutput.
Import TraceCalls.

(** What [findFunctionByName] asks of a source file: its top-level
    functions, the methods of each of its classes, and the function and
    method declarations met by [forEachDescendant], in document order. *)
Record SourceFileDeclarations := {
  getFunctions : list nat;
  getClassesMethods : list (list nat);
  getDescendantDeclarations : list nat;
}.

Section WithProject.

Variable project : nat -> Declaration.
(** [project.getSourceFile(filePath)] *)
Variable getSourceFile : string -> option SourceFileDeclarations.

(** [node.getName() === functionName] *)
Definition hasName (functionName : string) (d : nat) : bool :=
  match getName (project d) with
  | Some n => String.eqb n functionName
  | None => false
  end.

(** The loop over the classes: the first class that has a method of this
    name gives the result. *)
Fixpoint findMethod (functionName : string) (classes : list (list nat)) : option nat :=
  match classes with
  | [] => None
  | methods :: rest =>
      match find (hasName functionName) methods with
      | Some method => Some method
      | None => findMethod functionName rest
      end
  end.

Definition findFunctionByName (filePath functionName : string) : option nat :=
  match getSourceFile filePath with
  | None => None
  | Some sourceFile =>
      (* Try function declarations first *)
      match find (hasName functionName) (getFunctions sourceFile) with
      | Some fn => Some fn
      | None =>
          (* Try method declarations in classes *)
          match findMethod functionName (getClassesMethods sourceFile) with
          | Some method => Some method
          | None =>
              (* Try to find by traversing and matching name *)
              find (hasName functionName) (getDescendantDeclarations sourceFile)
          end
      end
  end.

End WithProject.

Definition dirLabel (direction : Direction) : string :=
  match direction with
  | up => "called by"
  | _ => "calls"
  end.

(** [`${dirLabel}: ${node.name} (${node.file}:${node.line})`] *)
Definition nodeText (direction : Direction) (node : CallNode) : string :=
  dirLabel direction +:+ ": " +:+ name node +:+ " (" +:+ file node +:+ ":"
           +:+ pretty (line node) +:+ ")".

(** [printTree]: the lines logged for one node and its subtree;
    [isLastNode] is [i === nodes.length - 1]. *)
Fixpoint printTreeNode (direction : Direction) (prefix : string) (isLastNode : bool)
    (node : CallNode) : list string :=
  match node with
  | mkCallNode nm f l cs =>
      let connector := if isLastNode then "└── " else "├── " in
      let childPrefix := if isLastNode then "    " else "│   " in
      (prefix +:+ connector +:+ nodeText direction (mkCallNode nm f l cs))
      :: (fix loop (nodes : list CallNode) : list string :=
            match nodes with
            | [] => []
            | n :: rest =>
                printTreeNode direction (prefix +:+ childPrefix)
                              (match rest with [] => true | _ => false end) n
                ++ loop rest
            end) cs
  end.

(** [printTree(nodes, prefix, isLast, direction)]; the parameter [isLast]
    is not read by the script. *)
Fixpoint printTree (direction : Direction) (prefix : string) (nodes : list CallNode)
    : list string :=
  match nodes with
  | [] => []
  | n :: rest =>
      printTreeNode direction prefix (match rest with [] => true | _ => false end) n
      ++ printTree direction prefix rest
  end.

(** ["  ".repeat(indent)] *)
Fixpoint indentation (indent : nat) : string :=
  match indent with
  | O => ""
  | S k => "  " +:+ indentation k
  end.

(** [printFlat]: the lines logged for one node and its subtree. *)
Fixpoint printFlatNode (direction : Direction) (indent : nat) (node : CallNode)
    : list string :=
  match node with
  | mkCallNode nm f l cs =>
      (indentation indent +:+ nodeText direction (mkCallNode nm f l cs))
      :: flat_map (printFlatNode direction (S indent)) cs
  end.

Definition printFlat (direction : Direction) (indent : nat) (nodes : list CallNode)
    : list string :=
  flat_map (printFlatNode direction indent) nodes.

(** The part of [main] that prints one direction of the trace. *)
Definition printTrace (direction : Direction) (showTree : bool) (nodes : list CallNode)
    : list string :=
  if (length nodes =? 0)%nat then
    [ match direction with up => "  No callers found" | _ => "  No callees found" end ]
  else if showTree then printTree direction "" nodes
  else printFlat direction 1 nodes.

End TraceCallsOutput.

(** ** extract-signatures.ts: the grouped listing *)

Module ExtractSignaturesOutput.
Import Model ExtractSignatures.

Definition groupByFile (signatures : list SignatureInfo)
    : list (string * list SignatureInfo) :=
  JsMap.groupBy file signatures.

(** [sig.className === currentClass], for [sig.className : string |
    undefined] and [currentClass : string | null]. *)
Definition sameClass (sigClassName currentClass : option string) : bool :=
  match sigClassName, currentClass with
  | Some a, Some b => String.eqb a b
  | _, _ => false
  end.

Definition isClassKind (k : Kind) : bool :=
  match k with KClass => true | _ => false end.

(** One iteration of the loop of [main] over the signatures of a file:
    the lines logged so far and the variable [currentClass]. *)
Definition printSignature (acc : list string * option string) (sig : SignatureInfo)
    : list string * option string :=
  if isClassKind (kind sig) then
    (acc.1 ++ [formatSignature sig +:+ " {"], Some (name sig))
  else if isMethodKind (kind sig) && sameClass (className sig) acc.2 then
    (acc.1 ++ [formatSignature sig], acc.2)
  else
    match acc.2 with
    | Some _ =>
        if sameClass (className sig) acc.2
        then (acc.1 ++ [formatSignature sig], acc.2)
        else (acc.1 ++ ["}" +:+ newline] ++ [formatSignature sig], None)
    | None => (acc.1 ++ [formatSignature sig], None)
    end.

(** The lines logged for one file of the grouped listing. *)
Definition printFile (group : string * list SignatureInfo) : list string :=
  let header := newline +:+ "// " +:+ group.1 +:+ newline in
  let printed := fold_left printSignature group.2 ([header], None) in
  match printed.2 with
  | Some _ => printed.1 ++ ["}"]
  | None => printed.1
  end.

(** The textual branch of [main]. *)
Definition printListing (allSignatures : list SignatureInfo) : list string :=
  flat_map printFile (groupByFile allSignatures).

End ExtractSignaturesOutput.

(** ** Vocabulary of the further properties *)

Module MoreProps.
Import Ast Model.

(** The keys of a list in the order of their first occurrence. *)
Definition firstOccurrences (keys : list string) : list string :=
  fold_left (fun seen k => CodeSmells.setAdd k seen) keys [].

(** The items of a list that have a given key, in their order. *)
Definition itemsWithKey {V : Type} (keyOf : V -> string) (items : list V) (k : string)
    : list V :=
  List.filter (fun item => String.eqb (keyOf item) k) items.

(** The lines of the report for the findings of one type: the heading
    with the type and their number, then the lines of each of them, in the
    order of the findings. *)
Definition reportSection (reports : list CodeSmells.SmellReport) (t : string)
    : list string :=
  (newline +:+ "## " +:+ t +:+ " ("
     +:+ pretty (length (itemsWithKey CodeSmells.type reports t)) +:+ ")" +:+ newline)
  :: flat_map CodeSmellsReport.reportLines (itemsWithKey CodeSmells.type reports t).

(** What the filters of the signature extractor guarantee of one emitted
    record. *)
Definition passesExtractFilters (relativePath : string) (sourceFile : SourceFile)
    (options : ExtractSignatures.ExtractOptions) (sig : ExtractSignatures.SignatureInfo)
    : Prop :=
  ExtractSignatures.file sig = relativePath /\
  (ExtractSignatures.exportedOnly options = true ->
   ExtractSignatures.exported sig = true) /\
  (ExtractSignatures.includeTypes options = false ->
   ExtractSignatures.kind sig <> ExtractSignatures.KInterface /\
   ExtractSignatures.kind sig <> ExtractSignatures.KType) /\
  (ExtractSignatures.kind sig = ExtractSignatures.KMethod ->
   exists cls method,
     In cls (getClasses sourceFile) /\ In method (clsGetMethods cls) /\
     sig = ExtractSignatures.methodInfo relativePath cls method /\
     (ExtractSignatures.includePrivate options = false ->
      fnGetScope method <> ScopePrivate)).

(** The length of the longest chain of control-flow statements nested in
    one another within the subtree of a node, the node included. *)
Fixpoint nestingOf (n : Node) : Z :=
  match n with
  | mkNode k cs =>
      let below := fold_right (fun c deepest => Z.max (nestingOf c) deepest) 0 cs in
      if CodeSmells.isNestingConstruct (mkNode k cs) then 1 + below else below
  end.

(** The check that raises findings of a given type. *)
Definition checkOfType (t : string) : option string :=
  if String.eqb t "circular-dependency" then Some "circular-deps"
  else if String.eqb t "large-function" || String.eqb t "high-complexity"
  then Some "large-functions"
  else if String.eqb t "many-params" then Some "many-params"
  else if String.eqb t "missing-jsdoc" then Some "missing-jsdoc"
  else if String.eqb t "deep-nesting" then Some "deep-nesting"
  else if String.eqb t "large-file" then Some "large-files"
  else if String.eqb t "god-class" then Some "god-classes"
  else None.

Definition raisedBy (check : string) (r : CodeSmells.SmellReport) : Prop :=
  checkOfType (CodeSmells.type r) = Some check.

(** A finding of the missing-JSDoc check. *)
Definition missingJsDocFinding (filePath : string) (startLine : Z) (text : string)
    : CodeSmells.SmellReport := {|
  CodeSmells.type := "missing-jsdoc";
  CodeSmells.severity := CodeSmells.warning;
  CodeSmells.file := filePath;
  CodeSmells.line := Some startLine;
  CodeSmells.message := text;
  CodeSmells.details := None |}.

Definition undocumentedFunctionFinding (filePath : string) (fn : FunctionLike)
    : CodeSmells.SmellReport :=
  missingJsDocFinding filePath (fnStartLineNumber fn)
    ("Exported function '" +:+ Js.orElse (fnGetName fn) "(anonymous)" +:+ "' lacks JSDoc").

Definition undocumentedClassFinding (filePath : string) (cls : ClassDeclaration)
    : CodeSmells.SmellReport :=
  missingJsDocFinding filePath (clsStartLineNumber cls)
    ("Exported class '" +:+ Js.orElse (clsGetName cls) "(anonymous)" +:+ "' lacks JSDoc").

Definition undocumentedMethodFinding (filePath : string) (cls : ClassDeclaration)
    (method : FunctionLike) : CodeSmells.SmellReport :=
  missingJsDocFinding filePath (fnStartLineNumber method)
    ("Public method '" +:+ Js.template (clsGetName cls) +:+ "."
       +:+ Js.template (fnGetName method) +:+ "' lacks JSDoc").

(** The findings of the missing-JSDoc check that stem from one function,
    from one method, and from one class with its methods. *)
Definition undocumentedFunction (filePath : string) (fn : FunctionLike)
    : list CodeSmells.SmellReport :=
  if fnIsExported fn && lacksJsDoc (fnJsDocs fn)
  then [undocumentedFunctionFinding filePath fn] else [].

Definition undocumentedMethod (filePath : string) (cls : ClassDeclaration)
    (method : FunctionLike) : list CodeSmells.SmellReport :=
  match fnGetScope method with
  | ScopePrivate => []
  | _ => if lacksJsDoc (fnJsDocs method)
         then [undocumentedMethodFinding filePath cls method] else []
  end.

Definition undocumentedClass (filePath : string) (cls : ClassDeclaration)
    : list CodeSmells.SmellReport :=
  if clsIsExported cls then
    (if lacksJsDoc (clsJsDocs cls) then [undocumentedClassFinding filePath cls] else [])
    ++ flat_map (undocumentedMethod filePath cls) (clsGetMethods cls)
  else [].

(** *** Dependency cycles *)

(** The graph has a closed walk: a node from which a chain of edges leads
    back to itself. *)
Definition hasCycle (graph : list (string * list string)) : Prop :=
  exists first body, Props.chain graph (first :: body ++ [first]).

(** Every dependency of a node of the list stands before it in the list. *)
Definition dependenciesFirst (graph : list (string * list string)) (order : list string)
    : Prop :=
  forall before node after,
    order = before ++ node :: after ->
    forall dep, Props.isEdge graph node dep -> In dep before.

(** [order] lists the nodes that [dfs] has left, each after its
    dependencies. *)
Definition finishedInOrder (graph : list (string * list string))
    (st : CodeSmells.DfsState) (order : list string) : Prop :=
  (forall x, In x order <->
             x ∈ CodeSmells.visited st /\ x ∉ CodeSmells.recursionStack st) /\
  dependenciesFirst graph order.

(** An import whose specifier starts with a dot or a slash. *)
Definition isLocalSpecifier (moduleSpecifier : string) : bool :=
  Js.startsWith moduleSpecifier "." || Js.startsWith moduleSpecifier "/".

(** *** Call trees *)

(** A forest cut below its first [k] levels. *)
Fixpoint truncate (k : nat) (forest : list TraceCalls.CallNode)
    : list TraceCalls.CallNode :=
  match k with
  | O => []
  | S k' =>
      map (fun n => TraceCalls.mkCallNode (TraceCalls.name n) (TraceCalls.file n)
                      (TraceCalls.line n) (truncate k' (TraceCalls.children n)))
          forest
  end.

(** A printed line that shows a node after some lead of indentation or of
    tree drawing. *)
Definition showsNode (direction : TraceCalls.Direction) (printed : string)
    (node : TraceCalls.CallNode) : Prop :=
  exists lead, printed = lead +:+ TraceCallsOutput.nodeText direction node.

(** *** The findings of a run *)

(** The findings of a check, when it is enabled. *)
Definition whenEnabled (options : CodeSmells.SmellOptions) (check : string)
    (findings : list CodeSmells.SmellReport) : list CodeSmells.SmellReport :=
  if bool_decide (check ∈ CodeSmells.checks options) then findings else [].

(** The findings of the six per-file checks on one file, in the order in
    which [main] runs them. *)
Definition findingsOfFile (relative : string -> string)
    (options : CodeSmells.SmellOptions) (sourceFile : SourceFile)
    : list CodeSmells.SmellReport :=
  whenEnabled options "large-functions"
    (CodeSmells.checkLargeFunctions relative sourceFile options)
  ++ whenEnabled options "many-params"
       (CodeSmells.checkManyParams relative sourceFile options)
  ++ whenEnabled options "missing-jsdoc"
       (CodeSmells.checkMissingJsDoc relative sourceFile options)
  ++ whenEnabled options "deep-nesting"
       (CodeSmells.checkDeepNesting relative sourceFile options)
  ++ whenEnabled options "large-files"
       (CodeSmells.checkLargeFiles relative sourceFile options)
  ++ whenEnabled options "god-classes"
       (CodeSmells.checkGodClasses relative sourceFile options).

(** The options with the flag [--exported] set or cleared. *)
Definition withExportedOnly (flag : bool) (options : CodeSmells.SmellOptions)
    : CodeSmells.SmellOptions := {|
  CodeSmells.checks := CodeSmells.checks options;
  CodeSmells.exportedOnly := flag;
  CodeSmells.thresholds := CodeSmells.thresholds options |}.

(** What one call of the closure [checkFn] of [checkManyParams] appends
    to [reports]. *)
Definition manyParamsPart (options : CodeSmells.SmellOptions) (filePath : string)
    (fn : FunctionLike) (className : option string) : list CodeSmells.SmellReport :=
  CodeSmells.checkFn_manyParams options filePath [] fn className.

(** *** The command line *)

(** An argument of the command line as the loop over [--check] reads it:
    a pair [--check <value>], or any other single argument. *)
Inductive Argument :=
| PlainArgument (text : string)
| CheckArgument (value : string).

Definition renderArgument (a : Argument) : list string :=
  match a with
  | PlainArgument text => [text]
  | CheckArgument value => ["--check"; value]
  end.

Definition wellFormedArgument (a : Argument) : Prop :=
  match a with
  | PlainArgument text => text <> "--check"
  | CheckArgument value => value <> ""
  end.

(** The values of the [--check] pairs, in their order. *)
Definition checkValues (arguments : list Argument) : list string :=
  flat_map (fun a => match a with CheckArgument value => [value] | PlainArgument _ => [] end)
           arguments.

(** A finding of the many-params check for a function or method. *)
Definition manyParamsFinding (options : CodeSmells.SmellOptions) (filePath : string)
    (fn : FunctionLike) (className : option string) : CodeSmells.SmellReport :=
  let params := Z.of_nat (length (fnParameters fn)) in
  {| CodeSmells.type := "many-params";
     CodeSmells.severity :=
       if params >? CodeSmells.maxParams (CodeSmells.thresholds options) + 3
       then CodeSmells.error else CodeSmells.warning;
     CodeSmells.file := filePath;
     CodeSmells.line := Some (fnStartLineNumber fn);
     CodeSmells.message :=
       CodeSmells.fullNameOf className (Js.orElse (fnGetName fn) "(anonymous)")
         +:+ " has " +:+ pretty params +:+ " parameters (max: "
         +:+ pretty (CodeSmells.maxParams (CodeSmells.thresholds options)) +:+ ")";
     CodeSmells.details := Some "Consider using an options object instead" |}.

(** [fn] is a function of the file, or a method of one of its classes
    whose name is [className]. *)
Definition declaredIn (sourceFile : SourceFile) (fn : FunctionLike)
    (className : option string) : Prop :=
  (In fn (getFunctions sourceFile) /\ className = None) \/
  (exists cls, In cls (getClasses sourceFile) /\ In fn (clsGetMethods cls) /\
               className = clsGetName cls).

(** *** The listing of signatures *)

(** The line printed for a record of the listing. *)
Definition printedLine (sig : ExtractSignatures.SignatureInfo) : string :=
  if ExtractSignaturesOutput.isClassKind (ExtractSignatures.kind sig)
  then ExtractSignatures.formatSignature sig +:+ " {"
  else ExtractSignatures.formatSignature sig.

Definition classRecords (sigs : list ExtractSignatures.SignatureInfo) : nat :=
  length (List.filter (fun sig => ExtractSignaturesOutput.isClassKind
                                    (ExtractSignatures.kind sig)) sigs).

(** The lines printed for one record of the listing: a closing brace
    first when [closing] holds, then the line of the record. *)
Definition listedRecord (closing : bool) (sig : ExtractSignatures.SignatureInfo)
    : list string :=
  (if closing then ["}" +:+ newline] else []) ++ [printedLine sig].

(** The number of braces left open: one when [currentClass] is set. *)
Definition openBraces (currentClass : option string) : nat :=
  match currentClass with Some _ => 1 | None => 0 end.

(** The number of items of a list that pass a test. *)
Definition countWhere {A : Type} (test : A -> bool) (items : list A) : nat :=
  length (List.filter test items).

Definition methodCount (cls : ClassDeclaration) : Z :=
  Z.of_nat (length (clsGetMethods cls)).

Definition propertyCount (cls : ClassDeclaration) : Z :=
  Z.of_nat (length (clsGetProperties cls)).

(** The flags that set a limit, each with the limit it sets. *)
Definition thresholdFlags : list (string * (CodeSmells.Thresholds -> Z)) :=
  [ ("--max-params", CodeSmells.maxParams);
    ("--max-fn-lines", CodeSmells.maxFunctionLines);
    ("--max-file-lines", CodeSmells.maxFileLines);
    ("--max-nesting", CodeSmells.maxNestingDepth) ].

End MoreProps.

(** ** Further concrete inputs *)

Module MoreExamples.
Import Ast Model.

(** The options of [extract-signatures.ts <path> --exported --json]. *)
Definition exportedSignatures : ExtractSignatures.ExtractOptions := {|
  ExtractSignatures.exportedOnly := true;
  ExtractSignatures.includeTypes := false;
  ExtractSignatures.jsonOutput := true;
  ExtractSignatures.includePrivate := false |}.

(** [code-smells.ts src --check large-function]: the name of the check is
    misspelt. *)
Definition misspeltCheck : list string := ["src"; "--check"; "large-function"].

(** [parseInt] on the decimal numerals the examples use. *)
Definition parseSmallInt (s : string) : Z :=
  if String.eqb s "3" then 3 else if String.eqb s "8" then 8 else 0.

(** [code-smells.ts src --check missing-jsdoc] *)
Definition onlyMissingJsDoc : list string := ["src"; "--check"; "missing-jsdoc"].

(** The declarations of [/src/chain.ts] as [findFunctionByName] sees
    them; no other file is loaded. *)
Definition chainSourceFile (filePath : string)
    : option TraceCallsOutput.SourceFileDeclarations :=
  if String.eqb filePath "/src/chain.ts"
  then Some {| TraceCallsOutput.getFunctions := [0; 1; 2; 3]%nat;
               TraceCallsOutput.getClassesMethods := [];
               TraceCallsOutput.getDescendantDeclarations := [0; 1; 2; 3]%nat |}
  else None.

(** [src --check many-params --exported --check large-files] *)
Definition twoChecks : list MoreProps.Argument :=
  [ MoreProps.PlainArgument "src"; MoreProps.CheckArgument "many-params";
    MoreProps.PlainArgument "--exported"; MoreProps.CheckArgument "large-files" ].

(** A function with eight parameters, exported or not. *)
Definition wideFunction (isExportedFlag : bool) : FunctionLike := {|
  fnGetName := Some "configure";
  fnIsExportable := true;
  fnIsExportedFlag := isExportedFlag;
  fnStartLineNumber := 3;
  fnEndLineNumber := 9;
  fnTypeParameters := [];
  fnParameters :=
    List.repeat {| paramGetName := "p"; paramIsOptional := false;
                   paramTypeText := "number" |} 8;
  fnReturnTypeText := "void";
  fnIsAsync := false;
  fnIsStatic := false;
  fnGetScope := ScopePublic;
  fnJsDocs := [];
  fnNode := mkNode FunctionDeclarationKind [mkNode Block []];
  fnGetBody := Some (mkNode Block []) |}.

(** [/src/wide.ts] holds that function, exported. *)
Definition wideFile : SourceFile := {|
  sfGetFilePath := "/src/wide.ts";
  sfStatements := [ StFunction (wideFunction true) ];
  sfGetEndLineNumber := 10 |}.

End MoreExamples.

(** * Properties of the scripts *)

(** ** code-smells.ts: thresholds of the per-function checks *)

(** Case analysis on every integer comparison of the goal. *)
Ltac case_gtb :=
  repeat match goal with
         | |- context [ ?a >? ?b ] => destruct (Z.gtb_spec a b); try lia
         end.

(** A loop that only pushes onto its accumulator. *)
Lemma fold_left_push {A B : Type} (step : list B -> A -> list B) (pushed : A -> list B) :
  (forall acc x, step acc x = acc ++ pushed x) ->
  forall l init, fold_left step l init = init ++ flat_map pushed l.
Proof.
  intros Hstep. induction l as [|x l IH]; intros init; simpl.
  - by rewrite app_nil_r.
  - by rewrite IH, Hstep, <- app_assoc.
Qed.

Section LargeFunctions.
Import Ast Model CodeSmells Props.

Lemma checkFn_largeFunctions_appends options filePath reports fn className :
  checkFn_largeFunctions options filePath reports fn className
  = reports ++ largeFunctionPart options filePath fn className.
Proof.
  unfold largeFunctionPart, checkFn_largeFunctions.
  destruct (exportedOnly options && negb (fnIsExported fn)).
  - by rewrite app_nil_r.
  - destruct (countLines fn >? _), (getCyclomaticComplexity _ >? _); simpl;
      rewrite <- ?app_assoc, ?app_nil_r; reflexivity.
Qed.

(** The findings of [checkLargeFunctions] on a file are what [checkFn]
    appends for every function, then for every method of every class. *)
Lemma checkLargeFunctions_by_declaration (relative : string -> string)
    (sourceFile : SourceFile) (options : SmellOptions) :
  checkLargeFunctions relative sourceFile options
  = flat_map (fun fn => largeFunctionPart options (relative (sfGetFilePath sourceFile))
                                          fn None)
             (getFunctions sourceFile)
    ++ flat_map
         (fun cls =>
            flat_map (fun method =>
                        largeFunctionPart options (relative (sfGetFilePath sourceFile))
                                          method (clsGetName cls))
                     (clsGetMethods cls))
         (getClasses sourceFile).
Proof.
  unfold checkLargeFunctions, forEachFunctionAndMethod.
  set (filePath := relative (sfGetFilePath sourceFile)).
  rewrite (fold_left_push _ (fun fn => largeFunctionPart options filePath fn None))
    by (intros; apply checkFn_largeFunctions_appends).
  apply fold_left_push. intros acc cls.
  apply fold_left_push. intros; apply checkFn_largeFunctions_appends.
Qed.

(** C1 (as amended).  For a function or method that passes the
    exported-only guard: with exactly [maxFunctionLines] lines the check
    appends no large-function finding; with one line more, and a threshold
    of at least 1, it appends exactly one, of severity warning; with
    [2 * maxFunctionLines + 1] lines, and a threshold that is not negative,
    it appends exactly one, of severity error. *)
Theorem C1_large_function_boundaries
    (options : SmellOptions) (filePath : string) (reports : list SmellReport)
    (fn : FunctionLike) (className : option string) :
  passesExportFilter options fn = true ->
  exists emitted,
    checkFn_largeFunctions options filePath reports fn className = reports ++ emitted /\
    (countLines fn = maxFunctionLines (thresholds options) ->
       List.filter isLargeFunctionFinding emitted = []) /\
    (countLines fn = maxFunctionLines (thresholds options) + 1 ->
     1 <= maxFunctionLines (thresholds options) ->
       exists r, List.filter isLargeFunctionFinding emitted = [r] /\ severity r = warning) /\
    (countLines fn = 2 * maxFunctionLines (thresholds options) + 1 ->
     0 <= maxFunctionLines (thresholds options) ->
       exists r, List.filter isLargeFunctionFinding emitted = [r] /\ severity r = error).
Proof.
  intros Hpass.
  exists (largeFunctionPart options filePath fn className).
  split; [apply checkFn_largeFunctions_appends|].
  unfold largeFunctionPart, checkFn_largeFunctions, passesExportFilter in *.
  apply negb_true_iff in Hpass. rewrite Hpass.
  set (M := maxFunctionLines (thresholds options)) in *.
  set (cx := getCyclomaticComplexity (fnNode fn)).
  split_and!.
  - intros Hlines. case_gtb; reflexivity.
  - intros Hlines Hmax. case_gtb; (eexists; split; [reflexivity|reflexivity]).
  - intros Hlines Hmax. case_gtb; (eexists; split; [reflexivity|reflexivity]).
Qed.

(** The theorem at a function of 51 lines under the default threshold. *)
Lemma C1_large_function_boundaries_witness :
  passesExportFilter (Examples.optionsWith false 50)
                     (Examples.plainFunction "render" false 10 60) = true /\
  exists r,
    List.filter isLargeFunctionFinding
           (largeFunctionPart (Examples.optionsWith false 50) "src/view.ts"
                              (Examples.plainFunction "render" false 10 60) None) = [r] /\
    severity r = warning.
Proof.
  split; [reflexivity|].
  destruct (C1_large_function_boundaries
              (Examples.optionsWith false 50) "src/view.ts" []
              (Examples.plainFunction "render" false 10 60) None)
    as (emitted & Heq & _ & Hwarn & _); [reflexivity|].
  destruct (Hwarn eq_refl) as (r & Hr & Hsev); [simpl; lia|].
  exists r. split; [|exact Hsev].
  rewrite checkFn_largeFunctions_appends in Heq.
  apply app_inv_head in Heq. rewrite Heq. exact Hr.
Defined.

(** C1 as stated fails in two ways.  Under [--exported] a function that
    is not exported is skipped by the guard at the top of [checkFn]: 51
    lines against a threshold of 50 yield no finding at all.  And with a
    threshold of 0 a one-line function ([maxFunctionLines + 1] lines) is
    reported as an error, since 1 also exceeds [2 * 0]. *)
Lemma C1_counterexample :
  (countLines (Examples.plainFunction "render" false 10 60)
     = maxFunctionLines (thresholds (Examples.optionsWith true 50)) + 1 /\
   checkFn_largeFunctions (Examples.optionsWith true 50) "src/view.ts" []
                          (Examples.plainFunction "render" false 10 60) None = []) /\
  (countLines (Examples.plainFunction "noop" true 7 7)
     = maxFunctionLines (thresholds (Examples.optionsWith false 0)) + 1 /\
   map severity
       (List.filter isLargeFunctionFinding
               (checkFn_largeFunctions (Examples.optionsWith false 0) "src/view.ts" []
                                       (Examples.plainFunction "noop" true 7 7) None))
     = [error]).
Proof. repeat split. Qed.

End LargeFunctions.

(** ** code-smells.ts: cyclomatic complexity *)

Section Complexity.
Import Ast Model CodeSmells Props.

(** Induction on syntax trees, with the hypothesis for every child. *)
Lemma Node_forall_ind (P : Node -> Prop) :
  (forall k cs, Forall P cs -> P (mkNode k cs)) -> forall n, P n.
Proof.
  intros step. fix IH 1. intros [k cs]. apply step.
  induction cs as [|c cs IHcs]; constructor; [apply IH | exact IHcs].
Qed.

(** [forEachDescendant] runs the callback over [descendants], in order. *)
Lemma forEachDescendant_fold {S : Type} (cb : Node -> S -> S) (n : Node) :
  forall s, forEachDescendant cb n s
            = fold_left (fun acc d => cb d acc) (descendants n) s.
Proof.
  induction n as [k cs IH] using Node_forall_ind. simpl.
  induction IH as [|c cs Hc _ IHcs]; intros s; simpl; [reflexivity|].
  rewrite fold_left_app, IHcs. simpl. by rewrite Hc.
Qed.

Lemma complexityCallback_step (d : Node) (complexity : Z) :
  complexityCallback d complexity
  = complexity + (if isCountedConstruct d then 1 else 0).
Proof.
  destruct d as [[| | | | | | | | | | | [| |] | | | | |] cs];
    unfold complexityCallback; cbn; lia.
Qed.

Lemma fold_complexityCallback (ds : list Node) (start : Z) :
  fold_left (fun acc d => complexityCallback d acc) ds start
  = start + Z.of_nat (length (List.filter isCountedConstruct ds)).
Proof.
  revert start. induction ds as [|d ds IH]; intros start; simpl; [lia|].
  rewrite IH, complexityCallback_step.
  destruct (isCountedConstruct d); simpl length; lia.
Qed.

Lemma getCyclomaticComplexity_count (n : Node) :
  getCyclomaticComplexity n = 1 + countedBelow n.
Proof.
  unfold getCyclomaticComplexity, countedBelow.
  by rewrite forEachDescendant_fold, fold_complexityCallback.
Qed.

Lemma descendants_child (body n : Node) :
  In body (getChildren n) -> forall d, In d (descendants body) -> In d (descendants n).
Proof.
  destruct n as [k cs]. simpl. intros Hin d Hd.
  apply in_flat_map. exists body. split; [exact Hin|]. by right.
Qed.

(** C2 (as amended).  The complexity of a function or method is 1 plus
    the number of [if], ternary, [for]/[for-in]/[for-of], [while],
    [do-while], [case], [catch] and [&&]/[||] nodes among all descendants
    of the declaration (parameters included, so at least 1 plus those of
    the body).  For a function that passes the exported-only guard, the
    check appends no high-complexity finding when the value is at most
    [maxComplexity], exactly one warning when it exceeds [maxComplexity]
    but not [2 * maxComplexity], and exactly one error when it exceeds
    [2 * maxComplexity]. *)
Theorem C2_cyclomatic_complexity
    (options : SmellOptions) (filePath : string) (reports : list SmellReport)
    (fn : FunctionLike) (className : option string) :
  let complexity := getCyclomaticComplexity (fnNode fn) in
  complexity = 1 + countedBelow (fnNode fn) /\
  (forall body, fnGetBody fn = Some body -> In body (getChildren (fnNode fn)) ->
     bodyComplexity fn <= complexity) /\
  (passesExportFilter options fn = true ->
   exists emitted,
     checkFn_largeFunctions options filePath reports fn className = reports ++ emitted /\
     (complexity <= maxComplexity (thresholds options) ->
        List.filter isHighComplexityFinding emitted = []) /\
     (maxComplexity (thresholds options) < complexity
        <= 2 * maxComplexity (thresholds options) ->
        exists r, List.filter isHighComplexityFinding emitted = [r] /\
                  severity r = warning) /\
     (2 * maxComplexity (thresholds options) < complexity ->
        exists r, List.filter isHighComplexityFinding emitted = [r] /\
                  severity r = error)).
Proof.
  intros complexity.
  assert (Hcount : complexity = 1 + countedBelow (fnNode fn))
    by apply getCyclomaticComplexity_count.
  split; [exact Hcount|]. split.
  - intros body Hbody Hchild. unfold bodyComplexity. rewrite Hbody, Hcount.
    unfold countedBelow.
    assert (length (List.filter isCountedConstruct (descendants body))
            <= length (List.filter isCountedConstruct (descendants (fnNode fn))))%nat;
      [|lia].
    destruct (fnNode fn) as [k cs]. simpl in Hchild. simpl descendants.
    apply in_split in Hchild as (before & after & ->).
    rewrite flat_map_app. simpl.
    rewrite !List.filter_app, !length_app. simpl.
    destruct (isCountedConstruct body); simpl;
      rewrite List.filter_app, length_app; lia.
  - intros Hpass.
    exists (largeFunctionPart options filePath fn className).
    split; [apply checkFn_largeFunctions_appends|].
    unfold largeFunctionPart, checkFn_largeFunctions, passesExportFilter in *.
    apply negb_true_iff in Hpass. rewrite Hpass.
    fold complexity.
    assert (0 <= countedBelow (fnNode fn)) by (unfold countedBelow; lia).
    repeat split; intros Hcx.
    + case_gtb; reflexivity.
    + case_gtb; (eexists; split; reflexivity).
    + case_gtb; (eexists; split; reflexivity).
Qed.

(** The theorem at a public function whose body holds eleven [if]
    statements: complexity 12 against the default threshold 10. *)
Lemma C2_cyclomatic_complexity_witness :
  passesExportFilter (Examples.optionsWith false 50)
                     (Examples.branchyFunction true 11) = true /\
  exists r,
    List.filter isHighComplexityFinding
           (largeFunctionPart (Examples.optionsWith false 50) "src/router.ts"
                              (Examples.branchyFunction true 11) None) = [r] /\
    severity r = warning.
Proof.
  split; [reflexivity|].
  destruct (C2_cyclomatic_complexity
              (Examples.optionsWith false 50) "src/router.ts" []
              (Examples.branchyFunction true 11) None)
    as (_ & _ & Hemit).
  destruct (Hemit eq_refl) as (emitted & Heq & _ & Hwarn & _).
  destruct Hwarn as (r & Hr & Hsev); [vm_compute; split; [reflexivity | discriminate]|].
  exists r. split; [|exact Hsev].
  rewrite checkFn_largeFunctions_appends in Heq.
  apply app_inv_head in Heq. rewrite Heq. exact Hr.
Defined.

(** C2 as stated fails in two ways.  The count runs over the whole
    declaration, not the body: [function pick(a, b = a || "x") {}] has no
    counted construct in its body, yet its complexity is 2.  And under
    [--exported] a function that is not exported is skipped: complexity
    12 against a threshold of 10 yields no finding. *)
Lemma C2_counterexample :
  (bodyComplexity Examples.functionWithDefault = 1 /\
   getCyclomaticComplexity (fnNode Examples.functionWithDefault) = 2) /\
  (getCyclomaticComplexity (fnNode (Examples.branchyFunction false 11)) = 12 /\
   maxComplexity (thresholds (Examples.optionsWith true 50)) = 10 /\
   checkFn_largeFunctions (Examples.optionsWith true 50) "src/router.ts" []
                          (Examples.branchyFunction false 11) None = []).
Proof. repeat split. Qed.

End Complexity.

(** ** code-smells.ts: the exit code *)

Section ExitCode.
Import Model CodeSmells.

Variable relative : string -> string.
Variable resolveSpecifier : string -> string -> string.
Variable hasSourceFile : string -> bool.
Variable parseInt : string -> Z.

Lemma hasErrors_spec (allReports : list SmellReport) :
  hasErrors allReports = true <-> exists r, In r allReports /\ severity r = error.
Proof.
  unfold hasErrors. rewrite existsb_exists.
  split; intros (r & Hin & Hsev); exists r; (split; [exact Hin|]).
  - by destruct (severity r).
  - by rewrite Hsev.
Qed.

(** C9.  A run that is not a help request, names a target (its first
    argument that does not start with two dashes is not empty) and loads
    at least one source file prints the findings of [runChecks], and its
    exit code is nonzero exactly when one of them has severity error; with
    warnings only, or no finding, the exit code is 0. *)
Theorem C9_exit_code_iff_error_finding
    (args : list string) (sourceFiles : list SourceFile) :
  Js.includes "--help" args = false ->
  (exists targetPath,
     find (fun arg => negb (Js.startsWith arg "--")) args = Some targetPath /\
     targetPath <> "") ->
  sourceFiles <> [] ->
  let run := main relative resolveSpecifier hasSourceFile parseInt args (Some sourceFiles) in
  run.2 = runChecks relative resolveSpecifier hasSourceFile (parseOptions parseInt args)
                    sourceFiles /\
  (run.1 <> 0 <-> exists r, In r run.2 /\ severity r = error) /\
  ((forall r, In r run.2 -> severity r = warning) -> run.1 = 0).
Proof.
  intros Hhelp (targetPath & Htarget & Hnamed) Hfiles run. subst run. unfold main.
  rewrite Hhelp, Htarget.
  destruct targetPath as [|c targetPath]; [done|].
  destruct args as [|arg args]; [discriminate|].
  destruct sourceFiles as [|sf sfs]; [done|]. simpl.
  set (allReports := runChecks _ _ _ _ _).
  pose proof (hasErrors_spec allReports) as Hspec.
  destruct (hasErrors allReports); simpl.
  - split; [reflexivity|]. split.
    + split; [intros _; by apply Hspec | discriminate].
    + intros Hwarn. destruct Hspec as [(r & Hin & Hsev) _]; [reflexivity|].
      rewrite (Hwarn r Hin) in Hsev. discriminate.
  - split; [reflexivity|]. split; [|reflexivity].
    split; [done|]. intros Herr. apply Hspec in Herr. discriminate.
Qed.

End ExitCode.

(** The theorem at [code-smells.ts /src --check large-functions] over a
    file with a 120-line function: the run exits with code 1. *)
Lemma C9_exit_code_iff_error_finding_witness :
  (CodeSmells.main Examples.relativeToW (fun _ s => s) (fun _ => false) (fun _ => 0)
                   ["/src"; "--check"; "large-functions"] (Some [Examples.bigFile])).1 <> 0
  <-> exists r,
        In r (CodeSmells.main Examples.relativeToW (fun _ s => s) (fun _ => false)
                              (fun _ => 0) ["/src"; "--check"; "large-functions"]
                              (Some [Examples.bigFile])).2
        /\ CodeSmells.severity r = CodeSmells.error.
Proof.
  apply (C9_exit_code_iff_error_finding
           Examples.relativeToW (fun _ s => s) (fun _ => false) (fun _ => 0)
           ["/src"; "--check"; "large-functions"] [Examples.bigFile]).
  - reflexivity.
  - exists "/src". split; [reflexivity | discriminate].
  - discriminate.
Defined.

(** ** extract-signatures.ts: rendering *)

Section Rendering.
Import Model ExtractSignatures Props.

Lemma renderParameter_text (p : ParameterDeclaration) :
  renderParameter p = parameterText p.
Proof. unfold renderParameter, parameterText. by destruct (paramIsOptional p). Qed.

Lemma join_parameters (ps : list ParameterDeclaration) :
  Js.join ", " (map renderParameter ps) = parameterListText ps.
Proof.
  unfold Js.join. induction ps as [|p [|q ps] IH].
  - reflexivity.
  - apply renderParameter_text.
  - change (renderParameter p +:+ ", " +:+ String.concat ", " (map renderParameter (q :: ps))
            = parameterText p +:+ ", " +:+ parameterListText (q :: ps)).
    by rewrite IH, renderParameter_text.
Qed.

Lemma join_truthy (sep first : string) (others : list string) :
  first <> "" -> Js.truthy (Js.join sep (first :: others)) = true.
Proof.
  intros Hne. unfold Js.join. destruct first as [|c first]; [done|].
  destruct others; reflexivity.
Qed.

Lemma typeParamStrOf_text (typeParameters : list string) :
  Forall (fun t => t <> "") typeParameters ->
  typeParamStrOf typeParameters = typeParametersText typeParameters.
Proof.
  intros Hne. unfold typeParamStrOf, typeParametersText.
  destruct Hne as [|t ts Ht _]; [reflexivity|].
  by rewrite join_truthy.
Qed.

(** C7 (as amended).  A function declaration renders as
    [[async ]function name[<TypeParams>](param: Type[, ...]): ReturnType]
    and a method as [[static ][async ]name[<TypeParams>](...): ReturnType]:
    the keyword [function] is part of a function's signature, and
    [static] comes before [async].  An optional parameter carries [?]
    immediately before the colon.  (Type parameters are taken to have a
    non-empty text.) *)
Theorem C7_signature_rendering (fn : FunctionLike) (className : string) :
  Forall (fun t => t <> "") (fnTypeParameters fn) ->
  getFunctionSignature fn
    = (if fnIsAsync fn then "async " else "") +:+ "function "
      +:+ declaratorText (Js.orElse (fnGetName fn) "(anonymous)") fn /\
  getMethodSignature fn className
    = (if fnIsStatic fn then "static " else "")
      +:+ (if fnIsAsync fn then "async " else "")
      +:+ declaratorText (Js.template (fnGetName fn)) fn /\
  (forall p, paramIsOptional p = true ->
     renderParameter p = paramGetName p +:+ "?: " +:+ paramTypeText p).
Proof.
  intros Hne. unfold getFunctionSignature, getMethodSignature, declaratorText.
  rewrite join_parameters, (typeParamStrOf_text _ Hne).
  split; [|split].
  - destruct (fnIsAsync fn); reflexivity.
  - destruct (fnIsStatic fn), (fnIsAsync fn); reflexivity.
  - intros p Hopt. unfold renderParameter. by rewrite Hopt.
Qed.

(** The theorem at the method of the scenario: it renders exactly as
    [static async fetch(id: string, opts?: Options): Promise<User>]. *)
Lemma C7_signature_rendering_witness :
  Forall (fun t => t <> "") (fnTypeParameters Examples.fetchMethod) /\
  getMethodSignature Examples.fetchMethod "UserService"
    = "static async fetch(id: string, opts?: Options): Promise<User>".
Proof.
  split; [constructor|].
  destruct (C7_signature_rendering Examples.fetchMethod "UserService")
    as (_ & Hmethod & _); [constructor|].
  rewrite Hmethod. reflexivity.
Defined.

(** C7 as stated fails on both kinds of declaration: the rule puts
    [async] before [static] and allows no other keyword, but the method of
    the scenario renders with [static] first, and a function renders with
    the keyword [function]. *)
Lemma C7_counterexample :
  (ruleSignature "fetch" Examples.fetchMethod
     = "async static fetch(id: string, opts?: Options): Promise<User>" /\
   getMethodSignature Examples.fetchMethod "UserService"
     = "static async fetch(id: string, opts?: Options): Promise<User>") /\
  (ruleSignature "getUser" Examples.getUserFunction
     = "async getUser(id: string): Promise<User | null>" /\
   getFunctionSignature Examples.getUserFunction
     = "async function getUser(id: string): Promise<User | null>").
Proof. repeat split. Qed.

End Rendering.

(** ** extract-signatures.ts: order of the extracted declarations *)

Section ExtractionOrder.
Import Model ExtractSignatures Props.

Variable relative : string -> string.

Lemma flat_map_map {A B C : Type} (f : B -> list C) (g : A -> B) (l : list A) :
  flat_map f (map g l) = flat_map (fun x => f (g x)) l.
Proof. induction l as [|x l IH]; simpl; [reflexivity | by rewrite IH]. Qed.

Lemma flat_map_constant_nil {A B : Type} (f : A -> list B) (l : list A) :
  (forall x, f x = []) -> flat_map f l = [].
Proof.
  intros Hf. induction l as [|x l IH]; simpl; [reflexivity | by rewrite Hf, IH].
Qed.

Lemma flat_map_filter_singleton {A B : Type} (keep : A -> bool) (f : A -> B) (l : list A) :
  flat_map (fun x => if keep x then [f x] else []) l = map f (List.filter keep l).
Proof.
  induction l as [|x l IH]; simpl; [reflexivity|].
  destruct (keep x); simpl; by rewrite IH.
Qed.

Lemma flat_map_declarations (relativePath : string) (options : ExtractOptions)
    (statements : list Statement) :
  flat_map (entriesOfStatement relativePath options)
           (List.filter
              (fun st => match st with
                         | StFunction _ | StClass _ | StInterface _ | StTypeAlias _ => true
                         | _ => false
                         end)
              statements)
  = flat_map (entriesOfStatement relativePath options) statements.
Proof.
  induction statements as [|st statements IH]; [reflexivity|].
  destruct st; cbn [List.filter flat_map]; rewrite IH; reflexivity.
Qed.

(** C8 (as amended).  The extractor emits the declarations of a unit
    kind by kind: the functions, then every class immediately followed by
    its methods, then (when types are requested) the interfaces and the
    type aliases; inside each kind the order of the file is kept.  That
    is the declaration order of the unit regrouped by kind, and it is the
    declaration order itself when the declarations of the unit, imports
    and other statements aside, are written in that grouping.  The units
    follow one another in the order of the collection. *)
Theorem C8_extraction_order (sourceFile : SourceFile) (options : ExtractOptions) :
  extractFromSourceFile relative sourceFile options
    = extractInDeclarationOrder relative (groupedByKind sourceFile) options /\
  (declarationsOf sourceFile = sfStatements (groupedByKind sourceFile) ->
   extractFromSourceFile relative sourceFile options
     = extractInDeclarationOrder relative sourceFile options) /\
  (forall sourceFiles,
     extractAll relative sourceFiles options
       = flat_map (fun sf => extractFromSourceFile relative sf options) sourceFiles).
Proof.
  assert (Hmain : extractFromSourceFile relative sourceFile options
    = extractInDeclarationOrder relative (groupedByKind sourceFile) options).
  { unfold extractFromSourceFile, extractInDeclarationOrder, groupedByKind.
    cbn [sfStatements sfGetFilePath].
    set (rp := relative (sfGetFilePath sourceFile)).
    rewrite !flat_map_app, !flat_map_map.
    rewrite (fold_left_push _ (fun fn => entriesOfStatement rp options (StFunction fn))).
    2:{ intros acc fn. simpl.
        destruct (exportedOnly options && negb (fnIsExported fn));
          [by rewrite app_nil_r | reflexivity]. }
    rewrite (fold_left_push _ (fun cls => entriesOfStatement rp options (StClass cls))).
    2:{ intros acc cls. simpl.
        destruct (exportedOnly options && negb (clsIsExported cls));
          [by rewrite app_nil_r|].
        rewrite (fold_left_push _
                   (fun m => if negb (negb (includePrivate options) && isPrivate m)
                             then [methodInfo rp cls m] else [])).
        - by rewrite flat_map_filter_singleton, <- app_assoc.
        - intros acc' m.
          destruct (negb (includePrivate options) && isPrivate m); simpl;
            [by rewrite app_nil_r | reflexivity]. }
    destruct (includeTypes options) eqn:Htypes.
    - rewrite (fold_left_push _
                 (fun i => entriesOfStatement rp options (StInterface i))).
      2:{ intros acc i. simpl. rewrite Htypes. simpl.
          destruct (exportedOnly options && negb (ifaceIsExported i));
            [by rewrite app_nil_r | reflexivity]. }
      rewrite (fold_left_push _
                 (fun t => entriesOfStatement rp options (StTypeAlias t))).
      2:{ intros acc t. simpl. rewrite Htypes. simpl.
          destruct (exportedOnly options && negb (aliasIsExported t));
            [by rewrite app_nil_r | reflexivity]. }
      by rewrite <- !app_assoc.
    - assert (Hi : flat_map (fun i => entriesOfStatement rp options (StInterface i))
                            (getInterfaces sourceFile) = []).
      { apply flat_map_constant_nil. intros i. simpl. by rewrite Htypes. }
      assert (Ht : flat_map (fun t => entriesOfStatement rp options (StTypeAlias t))
                            (getTypeAliases sourceFile) = []).
      { apply flat_map_constant_nil. intros t. simpl. by rewrite Htypes. }
      by rewrite Hi, Ht, !app_nil_r. }
  split; [exact Hmain|]. split.
  - intros Hgrouped. rewrite Hmain.
    unfold extractInDeclarationOrder. cbn [sfGetFilePath groupedByKind].
    rewrite <- (flat_map_declarations _ _ (sfStatements sourceFile)).
    fold (declarationsOf sourceFile). by rewrite Hgrouped.
  - intros sourceFiles. unfold extractAll.
    by rewrite (fold_left_push _ (fun sf => extractFromSourceFile relative sf options)).
Qed.

End ExtractionOrder.

(** The theorem at a unit that imports a module and declares a function
    and then a class: the extraction follows the declaration order. *)
Lemma C8_extraction_order_witness :
  Props.declarationsOf Examples.importingUsersFile
    = Model.sfStatements (Props.groupedByKind Examples.importingUsersFile) /\
  ExtractSignatures.extractFromSourceFile Examples.relativeToW Examples.importingUsersFile
                                          Examples.extractEverything
    = Props.extractInDeclarationOrder Examples.relativeToW Examples.importingUsersFile
                                      Examples.extractEverything.
Proof.
  split; [reflexivity|].
  destruct (C8_extraction_order Examples.relativeToW Examples.importingUsersFile
                                Examples.extractEverything) as (_ & Hgrouped & _).
  apply Hgrouped. reflexivity.
Defined.

(** C8 as stated fails when a class is written before a function: the
    function is emitted first, although the unit declares the class (and its
    method) before it. *)
Lemma C8_counterexample :
  map ExtractSignatures.name
      (Props.extractInDeclarationOrder Examples.relativeToW Examples.usersFile
                                       Examples.extractEverything)
    = ["UserService"; "fetch"; "getUser"] /\
  map ExtractSignatures.name
      (ExtractSignatures.extractFromSourceFile Examples.relativeToW Examples.usersFile
                                               Examples.extractEverything)
    = ["getUser"; "UserService"; "fetch"].
Proof. split; reflexivity. Qed.

(** A property kept by every iteration of a loop holds at its end. *)
Lemma fold_left_invariant {A B : Type} (P : A -> Prop) (f : A -> B -> A) (l : list B) :
  forall a, P a -> (forall a b, P a -> In b l -> P (f a b)) -> P (fold_left f l a).
Proof.
  induction l as [|b l IH]; intros a Ha Hstep; simpl; [exact Ha|].
  apply IH.
  - apply Hstep; [exact Ha | by left].
  - intros a' b' Ha' Hb'. apply Hstep; [exact Ha' | by right].
Qed.

(** ** trace-calls.ts: shape of the call trees *)

Section CallTrees.
Import TraceCalls Props.

(** Induction on call trees, with the hypothesis for every child. *)
Lemma CallNode_forall_ind (P : CallNode -> Prop) :
  (forall nm f l cs, Forall P cs -> P (mkCallNode nm f l cs)) -> forall n, P n.
Proof.
  intros step. fix IH 1. intros [nm f l cs]. apply step.
  induction cs as [|c cs IHcs]; constructor; [apply IH | exact IHcs].
Qed.

Lemma forestHeight_app (a b : list CallNode) :
  forestHeight (a ++ b) = Nat.max (forestHeight a) (forestHeight b).
Proof.
  unfold forestHeight. induction a as [|x a IH]; simpl; [reflexivity|].
  rewrite IH. lia.
Qed.

Lemma forestHeight_single (nm f : string) (l : Z) (cs : list CallNode) :
  forestHeight [mkCallNode nm f l cs] = S (forestHeight cs).
Proof. unfold forestHeight. simpl. lia. Qed.

Lemma nodesOf_unfold (n : CallNode) : nodesOf n = n :: allNodes (children n).
Proof. by destruct n. Qed.

Lemma allNodes_app (a b : list CallNode) :
  allNodes (a ++ b) = allNodes a ++ allNodes b.
Proof. apply flat_map_app. Qed.

Lemma allNodes_single (n : CallNode) : allNodes [n] = n :: allNodes (children n).
Proof. unfold allNodes at 1. simpl. by rewrite app_nil_r, nodesOf_unfold. Qed.

Lemma nodesWithin_app (k : nat) (a b : list CallNode) :
  nodesWithin k (a ++ b) = nodesWithin k a ++ nodesWithin k b.
Proof. destruct k; simpl; [reflexivity | apply flat_map_app]. Qed.

Lemma nodesWithin_single (k : nat) (n : CallNode) :
  nodesWithin (S k) [n] = n :: nodesWithin k (children n).
Proof. simpl. by rewrite app_nil_r. Qed.

Lemma nodesWithin_allNodes (k : nat) :
  forall forest cn, In cn (nodesWithin k forest) -> In cn (allNodes forest).
Proof.
  induction k as [|k IH]; intros forest cn; simpl; [done|].
  unfold allNodes. rewrite !in_flat_map.
  intros (n & Hn & Hcn). exists n. split; [exact Hn|].
  rewrite nodesOf_unfold. destruct Hcn as [->|Hcn]; [by left|].
  right. by apply IH.
Qed.


(** The identities of a path are identities of nodes of the tree. *)
Lemma path_identities (n : CallNode) :
  forall p i, In p (pathsFrom n) -> In i p -> In i (map identity (nodesOf n)).
Proof.
  induction n as [nm f l cs IH] using CallNode_forall_ind.
  intros p i Hp Hi. simpl in Hp. simpl.
  destruct cs as [|c cs].
  - destruct Hp as [<-|[]]. destruct Hi as [<-|[]]. by left.
  - apply in_map_iff in Hp as (q & <- & Hq).
    destruct Hi as [<-|Hi]; [by left|]. right.
    apply in_flat_map in Hq as (c' & Hc' & Hq).
    rewrite List.Forall_forall in IH.
    specialize (IH c' Hc' q i Hq Hi).
    apply in_map_iff in IH as (x & Hx & Hin).
    apply in_map_iff. exists x. split; [exact Hx|].
    apply in_flat_map. by exists c'.
Qed.

Lemma forest_path_identities (forest : list CallNode) (p : list (string * string))
    (i : string * string) :
  In p (flat_map pathsFrom forest) -> In i p -> In i (map identity (allNodes forest)).
Proof.
  intros Hp Hi. apply in_flat_map in Hp as (n & Hn & Hp).
  pose proof (path_identities n p i Hp Hi) as Hin.
  apply in_map_iff in Hin as (x & Hx & Hin).
  apply in_map_iff. exists x. split; [exact Hx|].
  apply in_flat_map. by exists n.
Qed.

(** A node that carries a key of a set differs from every node that is
    fresh for the set. *)
Lemma fresh_carried_distinct (relative : string -> string) (keys : gset string)
    (cn cn' : CallNode) (key : string) :
  freshFor relative keys cn -> carriesKey relative cn' key -> key ∈ keys ->
  identity cn <> identity cn'.
Proof.
  intros Hfresh (fp & Hfile & ->) Hin Heq.
  unfold identity in Heq. injection Heq as Hf Hn.
  apply (Hfresh (keyOf fp (name cn'))); [|exact Hin].
  exists fp. by rewrite Hf, Hn.
Qed.

Lemma freshFor_subseteq (relative : string -> string) (small large : gset string)
    (cn : CallNode) :
  small ⊆ large -> freshFor relative large cn -> freshFor relative small cn.
Proof. intros Hsub Hfresh key Hkey Hin. apply (Hfresh key Hkey). set_solver. Qed.

End CallTrees.

(** ** trace-calls.ts: the upward trace *)

Section Callers.
Import TraceCalls Props.

Variable relative : string -> string.
Variable project : nat -> Declaration.
Hypothesis relative_inj : forall p q, relative p = relative q -> p = q.

(** The node pushed for the declaration [c]. *)
Lemma callerNode_carries (c : nat) (l : Z) (cs : list CallNode) :
  carriesKey relative
    (mkCallNode (nameOf project c) (relative (getFilePath (project c))) l cs)
    (nodeKeyOf project c).
Proof. by exists (getFilePath (project c)). Qed.

Lemma pushed_fresh (keys : gset string) (filePath nm : string) (l : Z)
    (cs : list CallNode) :
  keyOf filePath nm ∉ keys ->
  freshFor relative keys (mkCallNode nm (relative filePath) l cs).
Proof.
  intros Hnew key (fp & Hfile & ->). simpl in *.
  by rewrite (relative_inj _ _ Hfile).
Qed.

Lemma tracedWithin_nil (remaining : nat) (low fresh visited : gset string) :
  low ⊆ visited -> visited ⊆ fresh ->
  tracedWithin relative remaining low fresh ([], visited).
Proof.
  intros Hlow Hfresh. unfold tracedWithin. simpl.
  split; [exact Hlow|]. split; [lia|]. split; [constructor|].
  assert (Hnone : nodesWithin (pred remaining) [] = []) by by destruct (pred remaining).
  rewrite Hnone. split; [constructor|]. split; [constructor|]. split; [constructor|].
  intros key Hkey. left. by apply Hfresh.
Qed.

(** One iteration of the loop of [getCallers], given the property of the
    level below. *)
Lemma visitReference_traced (remaining : nat)
    (recur : nat -> gset string -> list CallNode * gset string)
    (entered : gset string) :
  (forall c visited,
      tracedWithin relative remaining visited ({[nodeKeyOf project c]} ∪ visited)
                   (recur c visited) /\
      ((0 < remaining)%nat -> nodeKeyOf project c ∈ (recur c visited).2)) ->
  forall acc ref,
    tracedWithin relative (S remaining) entered entered acc ->
    tracedWithin relative (S remaining) entered entered
                 (visitReference relative project recur acc ref).
Proof.
  intros Hrec acc ref Hacc. unfold visitReference.
  destruct (refIsDefinition ref); [exact Hacc|].
  destruct (containingDeclaration ref) as [c|]; [|exact Hacc].
  destruct (decide (keyOf (getFilePath (project c)) (nameOf project c) ∈ acc.2))
    as [Hin|Hout]; [exact Hacc|].
  destruct (Hrec c acc.2) as [Hsub Hadded].
  set (result := recur c acc.2) in *.
  set (cn := mkCallNode (nameOf project c) (relative (getFilePath (project c)))
                        (getStartLineNumber (project c)) result.1).
  destruct Hacc as (Hlow & Hheight & Hfresh & Hmarked & Hdistinct & Hpaths & Hkeys).
  destruct Hsub as (Hlow' & Hheight' & Hfresh' & Hmarked' & Hdistinct' & Hpaths' & Hkeys').
  assert (Hcn_fresh : freshFor relative acc.2 cn) by by apply pushed_fresh.
  assert (Hcn_carries : carriesKey relative cn (nodeKeyOf project c))
    by apply callerNode_carries.
  assert (Hsub_fresh : Forall (freshFor relative ({[nodeKeyOf project c]} ∪ acc.2))
                              (allNodes result.1)) by exact Hfresh'.
  unfold tracedWithin. simpl.
  split; [set_solver|]. split.
  { rewrite forestHeight_app. unfold cn. rewrite forestHeight_single. lia. }
  split.
  { rewrite allNodes_app, allNodes_single. simpl children.
    apply List.Forall_app. split; [exact Hfresh|].
    constructor.
    - apply (freshFor_subseteq _ entered acc.2); [exact Hlow | exact Hcn_fresh].
    - eapply List.Forall_impl; [|exact Hsub_fresh].
      intros x Hx.
      apply (freshFor_subseteq _ entered ({[nodeKeyOf project c]} ∪ acc.2));
        [set_solver | exact Hx]. }
  destruct remaining as [|remaining'].
  { simpl. split; [constructor|]. split; [constructor|]. split.
    - rewrite flat_map_app. apply List.Forall_app. split; [exact Hpaths|].
      simpl. rewrite app_nil_r.
      assert (Hleaf : result.1 = []).
      { destruct result.1 as [|[nm f l cs] rest]; [reflexivity|].
        unfold forestHeight in Hheight'. simpl in Hheight'. lia. }
      rewrite Hleaf. constructor; [|constructor].
      constructor; [simpl; tauto | constructor].
    - intros key Hkey. rewrite allNodes_app, allNodes_single.
      destruct (Hkeys' key Hkey) as [Hold|(x & Hx & Hcarry)].
      + apply elem_of_union in Hold as [Hself|Hold].
        * apply elem_of_singleton in Hself as ->. right. exists cn.
          split; [apply in_app_iff; right; by left | exact Hcn_carries].
        * destruct (Hkeys key Hold) as [?|(x & Hx & Hcarry)]; [by left|].
          right. exists x. split; [apply in_app_iff; by left | exact Hcarry].
      + right. exists x. split; [|exact Hcarry].
        apply in_app_iff. right. right. exact Hx. }
  simpl pred in *.
  rewrite nodesWithin_app, nodesWithin_single. simpl children.
  split.
  { apply List.Forall_app. split.
    - eapply List.Forall_impl; [|exact Hmarked].
      intros x (key & Hcarry & Hkey). exists key. split; [exact Hcarry | set_solver].
    - constructor; [|exact Hmarked'].
      exists (nodeKeyOf project c). split; [exact Hcn_carries | apply Hadded; lia]. }
  split.
  { rewrite map_app. apply List.NoDup_app; [exact Hdistinct| |].
    - simpl. apply List.NoDup_cons; [|exact Hdistinct'].
      intros Hdup. apply in_map_iff in Hdup as (x & Hid & Hx).
      apply nodesWithin_allNodes in Hx.
      rewrite List.Forall_forall in Hsub_fresh.
      apply (fresh_carried_distinct relative ({[nodeKeyOf project c]} ∪ acc.2) x cn (nodeKeyOf project c));
        [by apply Hsub_fresh | exact Hcn_carries | set_solver | exact Hid].
    - intros i Hold Hnew'.
      apply in_map_iff in Hold as (x & <- & Hx).
      rewrite List.Forall_forall in Hmarked.
      destruct (Hmarked x Hx) as (key & Hcarry & Hkey).
      simpl in Hnew'. destruct Hnew' as [Hid|Hnew'].
      + by apply (fresh_carried_distinct relative acc.2 cn x key).
      + apply in_map_iff in Hnew' as (y & Hid & Hy).
        apply nodesWithin_allNodes in Hy.
        rewrite List.Forall_forall in Hsub_fresh.
        apply (fresh_carried_distinct relative ({[nodeKeyOf project c]} ∪ acc.2) y x key);
          [by apply Hsub_fresh | exact Hcarry | set_solver | exact Hid]. }
  split.
  { rewrite flat_map_app. apply List.Forall_app. split; [exact Hpaths|].
    simpl. rewrite app_nil_r.
    destruct result.1 as [|child rest] eqn:Hchildren.
    - constructor; [|constructor]. constructor; [simpl; tauto | constructor].
    - apply List.Forall_forall. intros p Hp.
      apply in_map_iff in Hp as (q & <- & Hq).
      apply List.NoDup_cons.
      + intros Hdup.
        pose proof (forest_path_identities _ _ _ Hq Hdup) as Hin.
        apply in_map_iff in Hin as (x & Hid & Hx).
        rewrite List.Forall_forall in Hsub_fresh.
        apply (fresh_carried_distinct relative ({[nodeKeyOf project c]} ∪ acc.2) x cn (nodeKeyOf project c));
          [by apply Hsub_fresh | exact Hcn_carries | set_solver | exact Hid].
      + rewrite List.Forall_forall in Hpaths'. by apply Hpaths'. }
  intros key Hkey. rewrite allNodes_app, allNodes_single.
  destruct (Hkeys' key Hkey) as [Hold|(x & Hx & Hcarry)].
  + apply elem_of_union in Hold as [Hself|Hold].
    * apply elem_of_singleton in Hself as ->. right. exists cn.
      split; [apply in_app_iff; right; by left | exact Hcn_carries].
    * destruct (Hkeys key Hold) as [?|(x & Hx & Hcarry)]; [by left|].
      right. exists x. split; [apply in_app_iff; by left | exact Hcarry].
  + right. exists x. split; [|exact Hcarry].
    apply in_app_iff. right. right. exact Hx.
Qed.

(** One level of [getCallers], given the property of the level below. *)
Lemma getCallersBody_traced (remaining : nat)
    (recur : nat -> gset string -> list CallNode * gset string) :
  (forall c visited,
      tracedWithin relative remaining visited ({[nodeKeyOf project c]} ∪ visited)
                   (recur c visited) /\
      ((0 < remaining)%nat -> nodeKeyOf project c ∈ (recur c visited).2)) ->
  forall node visited,
    tracedWithin relative (S remaining) visited ({[nodeKeyOf project node]} ∪ visited)
                 (getCallersBody relative project recur node visited) /\
    nodeKeyOf project node ∈ (getCallersBody relative project recur node visited).2.
Proof.
  intros Hrec node visited. unfold getCallersBody.
  destruct (decide (nodeKeyOf project node ∈ visited)) as [Hseen|Hnew].
  { split; [|exact Hseen]. apply tracedWithin_nil; set_solver. }
  set (entered := {[nodeKeyOf project node]} ∪ visited).
  assert (Hloop : tracedWithin relative (S remaining) entered entered
                    (fold_left (visitReference relative project recur)
                               (findReferencesAsNodes (project node)) ([], entered))).
  { apply fold_left_invariant; [apply tracedWithin_nil; set_solver|].
    intros acc ref Hacc _. by apply visitReference_traced. }
  destruct Hloop as (Hlow & Hrest).
  split; [|set_solver].
  split; [set_solver | exact Hrest].
Qed.

Lemma getCallersWithin_traced (remaining : nat) :
  forall node visited,
    tracedWithin relative remaining visited ({[nodeKeyOf project node]} ∪ visited)
                 (getCallersWithin relative project remaining node visited) /\
    ((0 < remaining)%nat ->
     nodeKeyOf project node ∈ (getCallersWithin relative project remaining node visited).2).
Proof.
  induction remaining as [|remaining IH]; intros node visited.
  - split; [|lia]. apply tracedWithin_nil; set_solver.
  - simpl. destruct (getCallersBody_traced remaining _ IH node visited) as [Ht Hk].
    split; [exact Ht | intros _; exact Hk].
Qed.

End Callers.

(** ** trace-calls.ts: the downward trace *)

Section Callees.
Import TraceCalls Props.

Variable relative : string -> string.
Variable project : nat -> Declaration.
Hypothesis relative_inj : forall p q, relative p = relative q -> p = q.

Lemma getCalleesBody_traced (remaining : nat)
    (recur : nat -> gset string -> list CallNode) :
  (forall d visited,
      calleesTraced relative (resolvesByDeclaredName project) remaining
                    ({[nodeKeyOf project d]} ∪ visited) (recur d visited)) ->
  forall node visited,
    calleesTraced relative (resolvesByDeclaredName project) (S remaining)
                  ({[nodeKeyOf project node]} ∪ visited)
                  (getCalleesBody relative project recur node visited).
Proof.
  intros Hrec node visited. unfold getCalleesBody.
  assert (Hnil : forall r keys,
             calleesTraced relative (resolvesByDeclaredName project) r keys []).
  { intros r keys. repeat split; try constructor; simpl; lia. }
  destruct (decide (nodeKeyOf project node ∈ visited)) as [Hseen|Hnew]; [apply Hnil|].
  destruct (getBody (project node)) as [calls|] eqn:Hbody; [|apply Hnil].
  set (entered := {[nodeKeyOf project node]} ∪ visited).
  apply fold_left_invariant; [apply Hnil|].
  intros callees call Hcallees Hcall.
  destruct (Js.truthy (calledNameOf (getExpression call))) eqn:Htruthy; [|exact Hcallees].
  apply fold_left_invariant; [exact Hcallees|].
  clear callees Hcallees. intros callees def Hcallees Hdef.
  assert (Hpush : forall d,
             (In (FunctionDeclarationNode d) (getDeclarations call)
              \/ In (MethodDeclarationNode d) (getDeclarations call)) ->
             calleesTraced relative (resolvesByDeclaredName project) (S remaining) entered
               (if decide (keyOf (getFilePath (project d))
                                 (calledNameOf (getExpression call)) ∈ entered)
                then callees
                else callees ++
                     [mkCallNode (calledNameOf (getExpression call))
                                 (relative (getFilePath (project d)))
                                 (getStartLineNumber (project d)) (recur d entered)])).
  { intros d Hd.
    destruct (decide (keyOf (getFilePath (project d))
                            (calledNameOf (getExpression call)) ∈ entered))
      as [Hin|Hout]; [exact Hcallees|].
    destruct Hcallees as (Hheight & Hfresh & Hpaths).
    destruct (Hrec d entered) as (Hheight' & Hfresh' & Hpaths').
    set (cn := mkCallNode _ _ _ _).
    split; [|split].
    - rewrite forestHeight_app. unfold cn. rewrite forestHeight_single. lia.
    - rewrite allNodes_app, allNodes_single. simpl children.
      apply List.Forall_app. split; [exact Hfresh|].
      constructor; [by apply pushed_fresh|].
      eapply List.Forall_impl; [|exact Hfresh'].
      intros x Hx.
      apply (freshFor_subseteq _ entered ({[nodeKeyOf project d]} ∪ entered));
        [set_solver | exact Hx].
    - intros Hconsistent.
      rewrite flat_map_app. apply List.Forall_app. split; [by apply Hpaths|].
      simpl. rewrite app_nil_r.
      destruct (recur d entered) as [|child rest] eqn:Hchildren.
      + constructor; [|constructor]. constructor; [simpl; tauto | constructor].
      + apply List.Forall_forall. intros p Hp.
        apply in_map_iff in Hp as (q & <- & Hq).
        apply List.NoDup_cons.
        * intros Hdup.
          pose proof (forest_path_identities _ _ _ Hq Hdup) as Hin.
          apply in_map_iff in Hin as (x & Hid & Hx).
          rewrite List.Forall_forall in Hfresh'.
          apply (fresh_carried_distinct relative
                   ({[nodeKeyOf project d]} ∪ entered) x cn (nodeKeyOf project d));
            [by apply Hfresh' | | set_solver | exact Hid].
          exists (getFilePath (project d)). split; [reflexivity|]. simpl.
          unfold nodeKeyOf.
          by rewrite (Hconsistent node calls call d Hbody Hcall Hd Htruthy).
        * specialize (Hpaths' Hconsistent).
          rewrite List.Forall_forall in Hpaths'. by apply Hpaths'. }
  destruct def as [d|d| |]; [apply Hpush; by left | apply Hpush; by right | | ];
    exact Hcallees.
Qed.

Lemma getCalleesWithin_traced (remaining : nat) :
  forall node visited,
    (forestHeight (getCalleesWithin relative project remaining node visited)
     <= remaining)%nat /\
    Forall (freshFor relative ({[nodeKeyOf project node]} ∪ visited))
           (allNodes (getCalleesWithin relative project remaining node visited)) /\
    (resolvesByDeclaredName project ->
     Forall (fun p => List.NoDup p)
            (flat_map pathsFrom (getCalleesWithin relative project remaining node visited))).
Proof.
  induction remaining as [|remaining IH]; intros node visited.
  - repeat split; try constructor; simpl; lia.
  - apply (getCalleesBody_traced remaining _ IH node visited).
Qed.

End Callees.

(** ** trace-calls.ts: the claims about the traces *)

Section Traces.
Import TraceCalls Props.

Variable relative : string -> string.
Variable project : nat -> Declaration.
Hypothesis relative_inj : forall p q, relative p = relative q -> p = q.

(** [getCallers] and [getCallees] satisfy the equations of the script:
    the depth test first, then the body with the recursive call at
    [depth + 1]. *)
Lemma getCallers_unfold (node : nat) (depth maxDepth : Z) (visited : gset string) :
  getCallers relative project node depth maxDepth visited
  = if depth >=? maxDepth then ([], visited)
    else getCallersBody relative project
           (fun c v => getCallers relative project c (depth + 1) maxDepth v)
           node visited.
Proof.
  unfold getCallers. destruct (Z.geb_spec depth maxDepth) as [Hge|Hlt].
  - by replace (Z.to_nat (maxDepth - depth)) with O by lia.
  - by replace (Z.to_nat (maxDepth - depth))
      with (S (Z.to_nat (maxDepth - (depth + 1)))) by lia.
Qed.

Lemma getCallees_unfold (node : nat) (depth maxDepth : Z) (visited : gset string) :
  getCallees relative project node depth maxDepth visited
  = if depth >=? maxDepth then []
    else getCalleesBody relative project
           (fun d v => getCallees relative project d (depth + 1) maxDepth v)
           node visited.
Proof.
  unfold getCallees. destruct (Z.geb_spec depth maxDepth) as [Hge|Hlt].
  - by replace (Z.to_nat (maxDepth - depth)) with O by lia.
  - by replace (Z.to_nat (maxDepth - depth))
      with (S (Z.to_nat (maxDepth - (depth + 1)))) by lia.
Qed.

Lemma indexOf_not_included (flag : string) (args : list string) :
  Js.includes flag args = false -> Js.indexOf flag args = None.
Proof.
  unfold Js.includes. induction args as [|a args IH]; simpl; [done|].
  rewrite (String.eqb_sym a flag).
  destruct (String.eqb flag a); simpl; [discriminate|].
  intros Hrest. by rewrite IH.
Qed.

(** The identity of the traced declaration is not repeated below it. *)
Lemma rootPaths_distinct (fn : nat) (visited : gset string) (forest : list CallNode) :
  Forall (freshFor relative ({[nodeKeyOf project fn]} ∪ visited)) (allNodes forest) ->
  Forall (fun p => List.NoDup p) (flat_map pathsFrom forest) ->
  forall p, In p (rootPaths (declaredIdentity relative project fn) forest) -> List.NoDup p.
Proof.
  intros Hfresh Hpaths p Hp. unfold rootPaths in Hp.
  destruct forest as [|n forest].
  - destruct Hp as [<-|[]]. constructor; [simpl; tauto | constructor].
  - apply in_map_iff in Hp as (q & <- & Hq).
    apply List.NoDup_cons.
    + intros Hdup.
      pose proof (forest_path_identities _ _ _ Hq Hdup) as Hin.
      apply in_map_iff in Hin as (x & Hid & Hx).
      rewrite List.Forall_forall in Hfresh.
      apply (fresh_carried_distinct relative ({[nodeKeyOf project fn]} ∪ visited) x
               (mkCallNode (nameOf project fn) (relative (getFilePath (project fn))) 0 [])
               (nodeKeyOf project fn));
        [by apply Hfresh | by exists (getFilePath (project fn)) | set_solver | exact Hid].
    + rewrite List.Forall_forall in Hpaths. by apply Hpaths.
Qed.

Variable parseInt : string -> Z.

(** C3 (as amended).  With a maximum depth [N >= 0], no path of the
    callers tree or of the callees tree has more than [N] edges.  No
    identity (file and name) repeats along a root-to-leaf path of the
    callers tree; the same holds for the callees tree when every resolved
    call is written with the declared name of its target.  Without a
    [--depth] argument the maximum depth is 3. *)
Theorem C3_depth_bound_and_distinct_paths (fn : nat) (options : TraceOptions) :
  0 <= maxDepth options ->
  (Z.of_nat (forestHeight (traceUp relative project fn options)) <= maxDepth options /\
   Z.of_nat (forestHeight (traceDown relative project fn options)) <= maxDepth options) /\
  (forall p, In p (rootPaths (declaredIdentity relative project fn)
                             (traceUp relative project fn options)) -> List.NoDup p) /\
  (resolvesByDeclaredName project ->
   forall p, In p (rootPaths (declaredIdentity relative project fn)
                             (traceDown relative project fn options)) -> List.NoDup p) /\
  (forall args, Js.includes "--depth" args = false ->
                maxDepth (parseOptions parseInt args) = 3).
Proof.
  intros Hdepth. unfold traceUp, traceDown, getCallers, getCallees.
  replace (maxDepth options - 0) with (maxDepth options) by lia.
  set (N := Z.to_nat (maxDepth options)).
  destruct (getCallersWithin_traced relative project relative_inj N fn ∅)
    as [(_ & Hup_height & Hup_fresh & _ & _ & Hup_paths & _) _].
  destruct (getCalleesWithin_traced relative project relative_inj N fn ∅)
    as (Hdown_height & Hdown_fresh & Hdown_paths).
  split; [split; lia|]. split; [|split].
  - by apply (rootPaths_distinct fn ∅).
  - intros Hconsistent. apply (rootPaths_distinct fn ∅); [exact Hdown_fresh|].
    by apply Hdown_paths.
  - intros args Hnone. unfold parseOptions, Js.optionValue. simpl.
    by rewrite (indexOf_not_included _ _ Hnone).
Qed.

(** Every node of the upward trace stands for a declaration, under its
    declared name. *)
Lemma getCallersWithin_declared (remaining : nat) :
  forall node visited,
    Forall (fun cn => exists d, identity cn = declaredIdentity relative project d)
           (allNodes (getCallersWithin relative project remaining node visited).1).
Proof.
  induction remaining as [|remaining IH]; intros node visited; [constructor|].
  cbn [getCallersWithin]. unfold getCallersBody.
  destruct (decide (nodeKeyOf project node ∈ visited)); [constructor|].
  apply (fold_left_invariant
           (fun acc : list CallNode * gset string =>
              Forall (fun cn => exists d, identity cn = declaredIdentity relative project d)
                     (allNodes acc.1))); [constructor|].
  intros acc ref Hacc _. unfold visitReference.
  destruct (refIsDefinition ref); [exact Hacc|].
  destruct (containingDeclaration ref) as [c|]; [|exact Hacc].
  destruct (decide (_ ∈ acc.2)); [exact Hacc|]. cbn [fst].
  rewrite allNodes_app, allNodes_single. apply List.Forall_app. split; [exact Hacc|].
  constructor; [by exists c | apply IH].
Qed.

(** The loop of [getCallees] over the calls of a body, call by call. *)
Lemma getCalleesBody_emitted (recur : nat -> gset string -> list CallNode)
    (node : nat) (visited : gset string) :
  nodeKeyOf project node ∉ visited ->
  getCalleesBody relative project recur node visited
  = flat_map (emittedForCall relative project ({[nodeKeyOf project node]} ∪ visited)
                (fun d => recur d ({[nodeKeyOf project node]} ∪ visited)))
             (default [] (getBody (project node))).
Proof.
  intros Hnew. unfold getCalleesBody.
  destruct (decide (nodeKeyOf project node ∈ visited)); [done|].
  destruct (getBody (project node)) as [calls|]; [|reflexivity]. cbn [default].
  rewrite (fold_left_push _
             (emittedForCall relative project ({[nodeKeyOf project node]} ∪ visited)
                (fun d => recur d ({[nodeKeyOf project node]} ∪ visited))));
    [reflexivity|].
  intros acc call. unfold emittedForCall. cbv zeta.
  destruct (Js.truthy (calledNameOf (getExpression call))); [|by rewrite app_nil_r].
  apply fold_left_push. intros acc' def.
  destruct def as [d|d| |]; try (by rewrite app_nil_r);
    (destruct (decide _); [by rewrite app_nil_r | reflexivity]).
Qed.

(** C4 (as amended).  In both directions a declaration whose key is in
    [visited] is not expanded again, and no node produced below a
    declaration carries the key of that declaration or a key of
    [visited]: none has the file and the declared name of a visited
    declaration.  Upward every node stands for a declaration under its
    declared name, so a visited declaration is left out.  Downward the
    loop emits, call by call, nothing for a call whose key, built from the
    name written at the call site, is visited, and otherwise a node under
    that name; when the declaration the call resolves to is visited, which
    can only be under another name, that node is a leaf. *)
Theorem C4_visited_declarations_are_left_out
    (node : nat) (depth maxDepth : Z) (visited : gset string) :
  (nodeKeyOf project node ∈ visited ->
   getCallers relative project node depth maxDepth visited = ([], visited) /\
   getCallees relative project node depth maxDepth visited = []) /\
  (forall cn key,
     In cn (allNodes (getCallers relative project node depth maxDepth visited).1) \/
     In cn (allNodes (getCallees relative project node depth maxDepth visited)) ->
     key ∈ {[nodeKeyOf project node]} ∪ visited ->
     ~ carriesKey relative cn key) /\
  (forall cn d,
     In cn (allNodes (getCallers relative project node depth maxDepth visited).1) \/
     In cn (allNodes (getCallees relative project node depth maxDepth visited)) ->
     nodeKeyOf project d ∈ {[nodeKeyOf project node]} ∪ visited ->
     identity cn <> declaredIdentity relative project d) /\
  (forall cn,
     In cn (allNodes (getCallers relative project node depth maxDepth visited).1) ->
     exists d,
       identity cn = declaredIdentity relative project d /\
       nodeKeyOf project d ∉ {[nodeKeyOf project node]} ∪ visited) /\
  (depth < maxDepth -> nodeKeyOf project node ∉ visited ->
   getCallees relative project node depth maxDepth visited
   = flat_map
       (emittedForCall relative project ({[nodeKeyOf project node]} ∪ visited)
          (fun d => getCallees relative project d (depth + 1) maxDepth
                      ({[nodeKeyOf project node]} ∪ visited)))
       (default [] (getBody (project node))) /\
   forall d,
     nodeKeyOf project d ∈ {[nodeKeyOf project node]} ∪ visited ->
     getCallees relative project d (depth + 1) maxDepth
       ({[nodeKeyOf project node]} ∪ visited) = []).
Proof.
  assert (Hskip : forall d level seen,
             nodeKeyOf project d ∈ seen ->
             getCallers relative project d level maxDepth seen = ([], seen) /\
             getCallees relative project d level maxDepth seen = []).
  { intros d level seen Hseen. rewrite getCallers_unfold, getCallees_unfold.
    unfold getCallersBody, getCalleesBody.
    destruct (level >=? maxDepth); [done|].
    by destruct (decide (nodeKeyOf project d ∈ seen)). }
  assert (Hfresh : forall cn key,
             In cn (allNodes (getCallers relative project node depth maxDepth visited).1) \/
             In cn (allNodes (getCallees relative project node depth maxDepth visited)) ->
             key ∈ {[nodeKeyOf project node]} ∪ visited ->
             ~ carriesKey relative cn key).
  { intros cn key Hcn Hkey Hcarry.
    unfold getCallers, getCallees in Hcn.
    set (r := Z.to_nat (maxDepth - depth)) in *.
    destruct (getCallersWithin_traced relative project relative_inj r node visited)
      as [(_ & _ & Hup_fresh & _) _].
    destruct (getCalleesWithin_traced relative project relative_inj r node visited)
      as (_ & Hdown_fresh & _).
    rewrite List.Forall_forall in Hup_fresh, Hdown_fresh.
    destruct Hcn as [Hcn|Hcn].
    + by apply (Hup_fresh cn Hcn key).
    + by apply (Hdown_fresh cn Hcn key). }
  assert (Hother : forall cn d,
             In cn (allNodes (getCallers relative project node depth maxDepth visited).1) \/
             In cn (allNodes (getCallees relative project node depth maxDepth visited)) ->
             nodeKeyOf project d ∈ {[nodeKeyOf project node]} ∪ visited ->
             identity cn <> declaredIdentity relative project d).
  { intros cn d Hcn Hseen Hidentity.
    apply (Hfresh cn (nodeKeyOf project d) Hcn Hseen).
    injection Hidentity as Hfile Hname.
    exists (getFilePath (project d)). split; [by symmetry|].
    unfold nodeKeyOf. by rewrite Hname. }
  split_and!.
  - apply Hskip.
  - exact Hfresh.
  - exact Hother.
  - intros cn Hcn.
    pose proof (getCallersWithin_declared (Z.to_nat (maxDepth - depth)) node visited)
      as Hdeclared.
    rewrite List.Forall_forall in Hdeclared.
    destruct (Hdeclared cn Hcn) as (d & Hidentity). exists d. split; [exact Hidentity|].
    intros Hseen. by apply (Hother cn d); [left|..].
  - intros Hlevel Hnew. split.
    + rewrite getCallees_unfold.
      destruct (Z.geb_spec depth maxDepth) as [Hge|_]; [lia|].
      by apply getCalleesBody_emitted.
    + intros d Hseen. by apply Hskip.
Qed.







End Traces.

(** ** trace-calls.ts: the claims on concrete projects *)

Section TracesOnExamples.
Import TraceCalls Props Examples.

Lemma relativeToW_inj (p q : string) : relativeToW p = relativeToW q -> p = q.
Proof. intros Heq. cbv in Heq. by injection Heq. Qed.

Lemma chainProject_resolvesByDeclaredName : resolvesByDeclaredName chainProject.
Proof.
  intros node calls call d Hbody Hcall Hd _.
  destruct node as [|[|[|node]]]; simpl in Hbody; injection Hbody as <-;
    simpl in Hcall;
    repeat match goal with
           | H : _ \/ _ |- _ => destruct H
           | H : False |- _ => destruct H
           | H : callTo _ _ = _ |- _ => subst; simpl in *
           | H : FunctionDeclarationNode _ = MethodDeclarationNode _ |- _ =>
               discriminate H
           | H : FunctionDeclarationNode _ = FunctionDeclarationNode _ |- _ =>
               injection H as <-
           end; reflexivity.
Qed.

(** A list in which an element follows itself is not duplicate-free. *)
Lemma repeated_not_NoDup {A : Type} (pre mid post : list A) (x : A) :
  ~ List.NoDup (pre ++ x :: mid ++ x :: post).
Proof.
  intros Hnodup. apply NoDup_remove_2 in Hnodup. apply Hnodup.
  apply in_app_iff. right. apply in_app_iff. right. by left.
Qed.

(** The theorem on the chain [target <- a <- b <- c] with the default
    depth. *)
Lemma C3_depth_bound_and_distinct_paths_witness :
  (forall p q, relativeToW p = relativeToW q -> p = q) /\
  0 <= maxDepth defaultTrace /\
  Z.of_nat (forestHeight (traceUp relativeToW chainProject 0 defaultTrace))
    <= maxDepth defaultTrace /\
  (forall p, In p (rootPaths (declaredIdentity relativeToW chainProject 3)
                             (traceDown relativeToW chainProject 3 defaultTrace)) ->
             List.NoDup p).
Proof.
  split; [exact relativeToW_inj|]. split; [simpl; lia|].
  destruct (C3_depth_bound_and_distinct_paths
              relativeToW chainProject relativeToW_inj (fun _ => 0) 0 defaultTrace)
    as ((Hup & _) & _); [simpl; lia|].
  split; [exact Hup|].
  destruct (C3_depth_bound_and_distinct_paths
              relativeToW chainProject relativeToW_inj (fun _ => 0) 3 defaultTrace)
    as (_ & _ & Hdown & _); [simpl; lia|].
  exact (Hdown chainProject_resolvesByDeclaredName).
Defined.

(** C3 as stated fails for a downward trace through aliases: in
    [aliasProject] both calls are written [go()], so the path of the trace
    of [f] is f, go, go, and the identity (file, ["go"]) occurs twice. *)
Lemma C3_counterexample :
  rootPaths (declaredIdentity relativeToW aliasProject 0)
            (traceDown relativeToW aliasProject 0 defaultTrace)
    = [[("../src/alias.ts", "f"); ("../src/alias.ts", "go"); ("../src/alias.ts", "go")]] /\
  ~ List.NoDup [("../src/alias.ts", "f"); ("../src/alias.ts", "go");
                ("../src/alias.ts", "go")].
Proof.
  split; [by vm_compute|].
  apply (repeated_not_NoDup [("../src/alias.ts", "f")] [] []).
Qed.

(** The theorem on the mutually recursive pair: [f] is not expanded
    again once its key is in the visited set; and on the pair where [g]
    calls [f] back under the name [again]: below [g], with the keys of [f]
    and [g] visited, the node emitted under [again] is a leaf. *)
Lemma C4_visited_declarations_are_left_out_witness :
  (forall p q, relativeToW p = relativeToW q -> p = q) /\
  (nodeKeyOf mutualProject 0 ∈ ({["/src/loop.ts:f"]} : gset string)) /\
  getCallees relativeToW mutualProject 0 1 3 {["/src/loop.ts:f"]} = [] /\
  getCallees relativeToW aliasBackProject 1 1 3 {["/src/again.ts:f"]}
    = [mkCallNode "again" "../src/again.ts" 1 []].
Proof.
  split; [exact relativeToW_inj|].
  assert (Hseen : nodeKeyOf mutualProject 0 ∈ ({["/src/loop.ts:f"]} : gset string))
    by by apply elem_of_singleton.
  split; [exact Hseen|]. split.
  - destruct (C4_visited_declarations_are_left_out
                relativeToW mutualProject relativeToW_inj 0 1 3 {["/src/loop.ts:f"]})
      as (Hskip & _).
    exact (proj2 (Hskip Hseen)).
  - destruct (C4_visited_declarations_are_left_out
                relativeToW aliasBackProject relativeToW_inj 1 1 3 {["/src/again.ts:f"]})
      as (_ & _ & _ & _ & Hdown).
    destruct Hdown as [Hloop _]; [lia | |].
    { change (nodeKeyOf aliasBackProject 1) with "/src/again.ts:g".
      intros Hin. apply elem_of_singleton in Hin. discriminate. }
    rewrite Hloop. by vm_compute.
Defined.

(** C4 as stated fails on the mutually recursive pair: [g] calls [f]
    and [f] is on the path, yet the node of [g] has no child, in the
    downward and in the upward trace; no leaf stands for [f]. *)
Lemma C4_counterexample :
  traceDown relativeToW mutualProject 0 defaultTrace
    = [mkCallNode "g" "../src/loop.ts" 5 []] /\
  traceUp relativeToW mutualProject 0 defaultTrace
    = [mkCallNode "g" "../src/loop.ts" 5 []] /\
  In (FunctionDeclarationNode 0)
     (flat_map getDeclarations (default [] (getBody (mutualProject 1)))) /\
  In (referenceIn 1) (findReferencesAsNodes (mutualProject 0)).
Proof.
  split; [by vm_compute|]. split; [by vm_compute|].
  split; [by left | right; by left].
Qed.





End TracesOnExamples.

(** ** code-smells.ts: dependency cycles *)

Section DependencyCycles.
Import Model CodeSmells Props.

Variable graph : list (string * list string).

Lemma indexOf_In (x : string) (l : list string) :
  In x l -> exists i, Js.indexOf x l = Some i.
Proof.
  induction l as [|a l IH]; simpl; [done|]. intros Hin.
  destruct (String.eqb a x) eqn:Heq; [by exists O|].
  destruct Hin as [->|Hin]; [by rewrite String.eqb_refl in Heq|].
  destruct (IH Hin) as (i & ->). by exists (S i).
Qed.

Lemma indexOf_drop (x : string) (l : list string) :
  forall i, Js.indexOf x l = Some i -> exists rest, drop i l = x :: rest.
Proof.
  induction l as [|a l IH]; simpl; [done|]. intros i.
  destruct (String.eqb a x) eqn:Heq.
  - intros [= <-]. apply String.eqb_eq in Heq as ->. by exists l.
  - destruct (Js.indexOf x l) as [j|]; [|done].
    intros [= <-]. simpl. by apply IH.
Qed.

Lemma chain_tail (a : string) (l : list string) : chain graph (a :: l) -> chain graph l.
Proof. destruct l as [|b l]; simpl; tauto. Qed.

Lemma chain_drop (l : list string) :
  forall i, chain graph l -> chain graph (drop i l).
Proof.
  induction l as [|a l IH]; intros [|i] Hchain; simpl; try done.
  apply IH. by apply chain_tail in Hchain.
Qed.

Lemma chain_snoc (l : list string) (a b : string) :
  chain graph (l ++ [a]) -> isEdge graph a b -> chain graph ((l ++ [a]) ++ [b]).
Proof.
  intros Hchain Hedge. induction l as [|x l IH]; simpl in *; [tauto|].
  destruct l as [|y l]; simpl in *; tauto.
Qed.

Lemma NoDup_drop {A : Type} (l : list A) (i : nat) : List.NoDup l -> List.NoDup (drop i l).
Proof.
  intros Hnodup. rewrite <- (take_drop i l) in Hnodup.
  by apply NoDup_app_remove_l in Hnodup.
Qed.

Lemma drop_snoc_nonempty {A : Type} (l : list A) (last x : A) (rest : list A) (i : nat) :
  drop i (l ++ [last]) = x :: rest -> exists front, x :: rest = front ++ [last].
Proof.
  intros Hdrop. destruct (decide (i <= length l)%nat) as [Hle|Hgt].
  - rewrite drop_app_le in Hdrop by exact Hle. exists (drop i l). by rewrite Hdrop.
  - rewrite drop_ge in Hdrop; [discriminate|]. rewrite length_app. simpl. lia.
Qed.

(** A dependency that is already visited: the report pushed, if any, is a
    simple cycle, and nothing else changes. *)
Lemma visitSeen_invariant (path : list string) (node dep : string) (st : DfsState) :
  dfsInvariant graph st -> pathStack st = path ++ [node] -> isEdge graph node dep ->
  dfsInvariant graph (visitSeen dep st) /\
  pathStack (visitSeen dep st) = pathStack st /\
  visited (visitSeen dep st) = visited st.
Proof.
  intros (Hnodup & Hstack & Hvisited & Hchain & Hreports) Hpath Hedge.
  unfold visitSeen.
  destruct (decide (dep ∈ recursionStack st)) as [Hactive|]; [|done].
  destruct (indexOf_In dep (pathStack st)) as (i & Hindex); [by apply Hstack|].
  rewrite Hindex. simpl. split; [|done].
  unfold dfsInvariant. simpl. split_and!; try done.
  apply List.Forall_app. split; [exact Hreports|]. constructor; [|constructor].
  destruct (indexOf_drop _ _ _ Hindex) as (rest & Hdrop).
  exists (drop i (pathStack st) ++ [dep]). split; [|by rewrite Hdrop].
  exists dep, rest. rewrite Hdrop. split; [reflexivity|]. split.
  - rewrite <- Hdrop. by apply NoDup_drop.
  - assert (Hsuffix : chain graph (dep :: rest))
      by (rewrite <- Hdrop; by apply chain_drop).
    rewrite Hpath in Hdrop.
    destruct (drop_snoc_nonempty _ _ _ _ _ Hdrop) as (front & Hfront).
    rewrite Hfront in *. by apply chain_snoc.
Qed.

(** The loop over the dependencies of [node], given the property of the
    recursive call. *)
Lemma visitDependencies_invariant (recur : string -> DfsState -> option DfsState)
    (path : list string) (node : string) :
  (forall dep st st',
      dfsInvariant graph st -> dep ∉ visited st -> chain graph (pathStack st ++ [dep]) ->
      recur dep st = Some st' ->
      dfsInvariant graph st' /\ pathStack st' = pathStack st /\
      visited st ⊆ visited st') ->
  forall deps st st',
    (forall dep, In dep deps -> isEdge graph node dep) ->
    dfsInvariant graph st -> pathStack st = path ++ [node] ->
    visitDependencies recur deps st = Some st' ->
    dfsInvariant graph st' /\ pathStack st' = path ++ [node] /\
    visited st ⊆ visited st'.
Proof.
  intros Hrecur. induction deps as [|dep deps IH]; intros st st' Hedges Hinv Hpath Hrun;
    simpl in Hrun.
  - injection Hrun as <-. done.
  - assert (Hedge : isEdge graph node dep) by (apply Hedges; by left).
    assert (Hrest : forall d, In d deps -> isEdge graph node d)
      by (intros d Hd; apply Hedges; by right).
    destruct (decide (dep ∈ visited st)) as [Hseen|Hnew].
    + destruct (visitSeen_invariant path node dep st Hinv Hpath Hedge)
        as (Hinv' & Hpath' & Hvis').
      destruct (IH _ _ Hrest Hinv' ltac:(by rewrite Hpath') Hrun) as (? & ? & Hsub).
      rewrite Hvis' in Hsub. done.
    + destruct (recur dep st) as [st1|] eqn:Hcall; [|discriminate].
      destruct (Hrecur dep st st1 Hinv Hnew) as (Hinv1 & Hpath1 & Hsub1); [|exact Hcall|].
      { rewrite Hpath. apply chain_snoc; [|exact Hedge].
        destruct Hinv as (_ & _ & _ & Hchain & _). by rewrite <- Hpath. }
      destruct (IH _ _ Hrest Hinv1 ltac:(by rewrite Hpath1) Hrun) as (? & ? & Hsub).
      split_and!; try done. set_solver.
Qed.

Lemma dfs_invariant (fuel : nat) :
  forall node st st',
    dfsInvariant graph st -> node ∉ visited st -> chain graph (pathStack st ++ [node]) ->
    dfs fuel graph node st = Some st' ->
    dfsInvariant graph st' /\ pathStack st' = pathStack st /\ visited st ⊆ visited st'.
Proof.
  induction fuel as [|fuel IH]; intros node st st' Hinv Hnew Hchain Hrun; [discriminate|].
  simpl in Hrun.
  set (entered := {| visited := {[node]} ∪ visited st;
                     recursionStack := {[node]} ∪ recursionStack st;
                     pathStack := pathStack st ++ [node];
                     reports := reports st |}) in Hrun.
  destruct (visitDependencies (dfs fuel graph) (default [] (mapGet graph node)) entered)
    as [st1|] eqn:Hloop; [|discriminate].
  injection Hrun as <-.
  destruct Hinv as (Hnodup & Hstack & Hvisited & _ & Hreports).
  assert (Hfresh : ~ In node (pathStack st)) by (intros Hin; by apply Hnew, Hvisited).
  assert (Hentered : dfsInvariant graph entered).
  { unfold dfsInvariant, entered. simpl. split_and!.
    - apply List.NoDup_app; [exact Hnodup | repeat constructor; simpl; tauto |].
      intros a Ha [<-|[]]. done.
    - intros x. split.
      + intros Hx. apply in_app_iff. apply elem_of_union in Hx as [Hx|Hx].
        * right. left. apply elem_of_singleton in Hx. by symmetry.
        * left. by apply Hstack.
      + intros Hx. apply in_app_iff in Hx as [Hx|[<-|[]]].
        * apply elem_of_union_r. by apply Hstack.
        * apply elem_of_union_l. by apply elem_of_singleton_2.
    - intros x Hx. apply in_app_iff in Hx as [Hx|[<-|[]]].
      + apply elem_of_union_r. by apply Hvisited.
      + apply elem_of_union_l. by apply elem_of_singleton_2.
    - exact Hchain.
    - exact Hreports. }
  destruct (visitDependencies_invariant (dfs fuel graph) (pathStack st) node IH
              (default [] (mapGet graph node)) entered st1)
    as ((Hnodup1 & Hstack1 & Hvisited1 & Hchain1 & Hreports1) & Hpath1 & Hsub1);
    [|exact Hentered|reflexivity|exact Hloop|].
  { intros dep Hdep. destruct (mapGet graph node) as [deps|] eqn:Hget; [|destruct Hdep].
    by exists deps. }
  simpl. rewrite Hpath1, removelast_last.
  split; [|split; [reflexivity|]].
  - unfold dfsInvariant. simpl.
    rewrite Hpath1 in Hnodup1, Hstack1, Hvisited1, Hchain1.
    split_and!.
    + exact Hnodup.
    + intros x. split.
      * intros Hx. apply elem_of_difference in Hx as [Hx Hne].
        apply Hstack1, in_app_iff in Hx as [Hx|[<-|[]]]; [exact Hx|].
        exfalso. apply Hne. by apply elem_of_singleton_2.
      * intros Hx. apply elem_of_difference. split.
        -- apply Hstack1, in_app_iff. by left.
        -- intros Heq. apply elem_of_singleton in Heq as ->. done.
    + intros x Hx. apply Hvisited1, in_app_iff. by left.
    + clear -Hchain1. induction (pathStack st) as [|a l IHl]; simpl in *; [done|].
      destruct l as [|b l]; simpl in *; [done|]. tauto.
    + exact Hreports1.
  - unfold entered in Hsub1. simpl in Hsub1. set_solver.
Qed.

Lemma dfsRoots_invariant (nodes : list string) :
  forall st st',
    dfsInvariant graph st -> pathStack st = [] ->
    dfsRoots graph nodes st = Some st' ->
    dfsInvariant graph st' /\ pathStack st' = [].
Proof.
  induction nodes as [|node nodes IH]; intros st st' Hinv Hpath Hrun;
    cbn [dfsRoots] in Hrun.
  - by injection Hrun as <-.
  - destruct (decide (node ∈ visited st)) as [Hseen|Hnew]; [by apply (IH st)|].
    destruct (dfs (dfsFuel graph) graph node st) as [st1|] eqn:Hdfs; [|discriminate].
    destruct (dfs_invariant _ _ _ _ Hinv Hnew ltac:(by rewrite Hpath) Hdfs)
      as (Hinv1 & Hpath1 & _).
    apply (IH st1); [exact Hinv1 | by rewrite Hpath1 | exact Hrun].
Qed.

(** *** The bound handed to [dfs] is large enough *)

Lemma mapGet_In (g : list (string * list string)) (node : string) (deps : list string) :
  mapGet g node = Some deps -> In deps (map snd g).
Proof.
  induction g as [|[k v] g IH]; simpl; [done|].
  destruct (String.eqb k node); [intros [= ->]; by left | intros Hget; right; by apply IH].
Qed.

Lemma dependency_in_graphNodes (node dep : string) :
  isEdge graph node dep -> dep ∈ (list_to_set (graphNodes graph) : gset string).
Proof.
  intros (deps & Hget & Hdep). apply elem_of_list_to_set, list_elem_of_In.
  unfold graphNodes. apply in_app_iff. right. apply in_concat.
  exists deps. split; [by apply (mapGet_In graph node) | exact Hdep].
Qed.

Lemma key_in_graphNodes (node : string) :
  In node (mapKeys graph) -> node ∈ (list_to_set (graphNodes graph) : gset string).
Proof.
  intros Hkey. apply elem_of_list_to_set, list_elem_of_In.
  unfold graphNodes. apply in_app_iff. by left.
Qed.

Lemma visitSeen_visited (dep : string) (st : DfsState) :
  visited (visitSeen dep st) = visited st.
Proof.
  unfold visitSeen. destruct (decide _); [|done].
  by destruct (Js.indexOf dep (pathStack st)).
Qed.

Lemma visitDependencies_total (recur : string -> DfsState -> option DfsState)
    (universe : gset string) (fuel : nat) :
  (forall dep st,
      dep ∈ universe -> dep ∉ visited st -> visited st ⊆ universe ->
      (size (universe ∖ visited st) <= fuel)%nat ->
      exists st', recur dep st = Some st' /\
                  visited st ⊆ visited st' /\ visited st' ⊆ universe) ->
  forall deps st,
    (forall dep, In dep deps -> dep ∈ universe) ->
    visited st ⊆ universe ->
    (size (universe ∖ visited st) <= fuel)%nat ->
    exists st', visitDependencies recur deps st = Some st' /\
                visited st ⊆ visited st' /\ visited st' ⊆ universe.
Proof.
  intros Hrecur. induction deps as [|dep deps IH]; intros st Hdeps Hsub Hsize; simpl.
  - by exists st.
  - assert (Hrest : forall d, In d deps -> d ∈ universe)
      by (intros d Hd; apply Hdeps; by right).
    destruct (decide (dep ∈ visited st)) as [Hseen|Hnew].
    + destruct (IH (visitSeen dep st) Hrest) as (st' & Hrun & Hgrow & Hbound);
        rewrite ?visitSeen_visited; try done.
      exists st'. by rewrite visitSeen_visited in Hgrow.
    + destruct (Hrecur dep st) as (st1 & -> & Hgrow1 & Hbound1); try done.
      { apply Hdeps. by left. }
      destruct (IH st1 Hrest Hbound1) as (st' & Hrun & Hgrow & Hbound).
      { etrans; [|exact Hsize]. apply subseteq_size. set_solver. }
      exists st'. split_and!; [exact Hrun | set_solver | exact Hbound].
Qed.

Lemma dfs_total (universe : gset string) (fuel : nat) :
  (forall node dep, isEdge graph node dep -> dep ∈ universe) ->
  forall node st,
    node ∈ universe -> node ∉ visited st -> visited st ⊆ universe ->
    (size (universe ∖ visited st) <= fuel)%nat ->
    exists st', dfs fuel graph node st = Some st' /\
                visited st ⊆ visited st' /\ visited st' ⊆ universe.
Proof.
  intros Hclosed.
  induction fuel as [|fuel IH]; intros node st Hnode Hnew Hsub Hsize.
  - exfalso. assert (Hempty : universe ∖ visited st ≡ ∅) by (apply size_empty_iff; lia).
    set_solver.
  - simpl.
    set (entered := {| visited := {[node]} ∪ visited st;
                       recursionStack := {[node]} ∪ recursionStack st;
                       pathStack := pathStack st ++ [node];
                       reports := reports st |}).
    destruct (visitDependencies_total (dfs fuel graph) universe fuel IH
                (default [] (mapGet graph node)) entered)
      as (st1 & -> & Hgrow & Hbound).
    + intros dep Hdep. apply (Hclosed node).
      destruct (mapGet graph node) as [deps|] eqn:Hget; [by exists deps | destruct Hdep].
    + unfold entered. simpl. set_solver.
    + unfold entered. simpl.
      assert (Hstrict : universe ∖ ({[node]} ∪ visited st) ⊂ universe ∖ visited st)
        by set_solver.
      apply subset_size in Hstrict. lia.
    + eexists. split; [reflexivity|]. simpl. unfold entered in Hgrow. simpl in Hgrow.
      split; [set_solver | exact Hbound].
Qed.

Lemma dfsRoots_total (nodes : list string) :
  forall st,
    (forall node, In node nodes -> node ∈ (list_to_set (graphNodes graph) : gset string)) ->
    visited st ⊆ list_to_set (graphNodes graph) ->
    exists st', dfsRoots graph nodes st = Some st'.
Proof.
  induction nodes as [|node nodes IH]; intros st Hnodes Hsub; cbn [dfsRoots];
    [by exists st|].
  assert (Hrest : forall n, In n nodes -> n ∈ (list_to_set (graphNodes graph) : gset string))
    by (intros n Hn; apply Hnodes; by right).
  destruct (decide (node ∈ visited st)) as [Hseen|Hnew]; [by apply IH|].
  destruct (dfs_total (list_to_set (graphNodes graph)) (dfsFuel graph)
              dependency_in_graphNodes node st) as (st1 & -> & _ & Hbound); try done.
  - apply Hnodes. by left.
  - unfold dfsFuel.
    assert ((size ((list_to_set (graphNodes graph) : gset string) ∖ visited st)
             <= size (list_to_set (graphNodes graph) : gset string))%nat)
      by (apply subseteq_size; set_solver).
    lia.
  - by apply IH.
Qed.

Lemma findCycles_total : exists st, findCycles graph = Some st.
Proof.
  unfold findCycles. apply dfsRoots_total.
  - apply key_in_graphNodes.
  - simpl. set_solver.
Qed.

Lemma findCycles_reports (st : DfsState) :
  findCycles graph = Some st -> Forall (reportsSimpleCycle graph) (reports st).
Proof.
  intros Hrun. unfold findCycles in Hrun.
  destruct (dfsRoots_invariant (mapKeys graph) initialDfsState st)
    as ((_ & _ & _ & _ & Hreports) & _); try done.
  unfold dfsInvariant, initialDfsState. simpl.
  split_and!; try done; constructor.
Qed.

End DependencyCycles.

(** C6.  The search for cycles over the dependency graph of a project
    always comes to an end, and every finding it reports is built from a
    cycle [first, ..., first] of the graph: no node occurs twice before the
    closing one, and every consecutive pair of nodes is an edge of the
    graph. *)
Theorem C6_reported_cycles_are_simple
    (relative : string -> string) (resolveSpecifier : string -> string -> string)
    (hasSourceFile : string -> bool) (project : list Model.SourceFile) :
  (exists st,
     CodeSmells.findCycles (CodeSmells.buildGraph relative resolveSpecifier hasSourceFile project)
       = Some st /\
     CodeSmells.checkCircularDeps relative resolveSpecifier hasSourceFile project
       = CodeSmells.reports st) /\
  (forall r,
     In r (CodeSmells.checkCircularDeps relative resolveSpecifier hasSourceFile project) ->
     Props.reportsSimpleCycle
       (CodeSmells.buildGraph relative resolveSpecifier hasSourceFile project) r).
Proof.
  set (graph := CodeSmells.buildGraph relative resolveSpecifier hasSourceFile project).
  destruct (findCycles_total graph) as (st & Hrun).
  assert (Hreports : CodeSmells.checkCircularDeps relative resolveSpecifier hasSourceFile
                       project = CodeSmells.reports st).
  { unfold CodeSmells.checkCircularDeps. fold graph. by rewrite Hrun. }
  split; [by exists st|].
  intros r Hr. rewrite Hreports in Hr.
  pose proof (findCycles_reports graph st Hrun) as Hall.
  rewrite List.Forall_forall in Hall. by apply Hall.
Qed.

(** On the project of the scenario ([a] imports [b], [b] imports [c], [c]
    imports [a]) the check reports the one cycle [a -> b -> c -> a]. *)
Example checkCircularDeps_scenario :
  map CodeSmells.details
      (CodeSmells.checkCircularDeps (fun p => p) Examples.resolveInRoot
                                    Examples.inCyclicProject Examples.cyclicProject)
    = [Some "a.ts → b.ts → c.ts → a.ts"].
Proof. by vm_compute. Qed.

(** * Further properties of the scripts *)

(** ** Grouping records in a [Map] of arrays *)

Section Grouping.
Import JsMap MoreProps.

Context {V : Type}.
Variable keyOf : V -> string.

Lemma setAdd_In (k x : string) (seen : list string) :
  In x (CodeSmells.setAdd k seen) <-> x = k \/ In x seen.
Proof.
  unfold CodeSmells.setAdd. destruct (existsb (String.eqb k) seen) eqn:Hseen.
  - split; [by right|]. intros [->|Hin]; [|exact Hin].
    apply existsb_exists in Hseen as (y & Hy & Heq).
    by apply String.eqb_eq in Heq as ->.
  - rewrite in_app_iff. simpl. intuition.
Qed.

Lemma setAdd_NoDup (k : string) (seen : list string) :
  List.NoDup seen -> List.NoDup (CodeSmells.setAdd k seen).
Proof.
  intros Hnodup. unfold CodeSmells.setAdd.
  destruct (existsb (String.eqb k) seen) eqn:Hseen; [exact Hnodup|].
  apply List.NoDup_app; [exact Hnodup | repeat constructor; simpl; tauto |].
  intros a Ha [Hk|[]]. subst a.
  assert (Hex : existsb (String.eqb k) seen = true)
    by (apply existsb_exists; exists k; split; [exact Ha | apply String.eqb_refl]).
  congruence.
Qed.

Lemma firstOccurrences_snoc (keys : list string) (k : string) :
  firstOccurrences (keys ++ [k]) = CodeSmells.setAdd k (firstOccurrences keys).
Proof. unfold firstOccurrences. by rewrite fold_left_app. Qed.

Lemma firstOccurrences_In (keys : list string) (x : string) :
  In x (firstOccurrences keys) <-> In x keys.
Proof.
  induction keys as [|k keys IH] using rev_ind; [done|].
  rewrite firstOccurrences_snoc, setAdd_In, in_app_iff, IH. simpl. intuition.
Qed.

Lemma firstOccurrences_NoDup (keys : list string) : List.NoDup (firstOccurrences keys).
Proof.
  induction keys as [|k keys IH] using rev_ind; [constructor|].
  rewrite firstOccurrences_snoc. by apply setAdd_NoDup.
Qed.

Lemma groupBy_snoc (items : list V) (item : V) :
  groupBy keyOf (items ++ [item]) = pushInto (keyOf item) item (groupBy keyOf items).
Proof. unfold groupBy. by rewrite fold_left_app. Qed.

Lemma itemsWithKey_absent (items : list V) (k : string) :
  ~ In k (map keyOf items) -> itemsWithKey keyOf items k = [].
Proof.
  induction items as [|x items IH]; simpl; [reflexivity|]. intros Hnot.
  destruct (String.eqb (keyOf x) k) eqn:Hx.
  - apply String.eqb_eq in Hx. tauto.
  - apply IH. tauto.
Qed.

(** Pushing an item into a map whose keys are distinct and whose arrays
    are given by [content]. *)
Lemma pushInto_map (key : string) (item : V) (content : string -> list V)
    (keys : list string) :
  List.NoDup keys ->
  pushInto key item (map (fun k => (k, content k)) keys)
  = if existsb (String.eqb key) keys
    then map (fun k => (k, if String.eqb k key then content k ++ [item] else content k))
             keys
    else map (fun k => (k, content k)) keys ++ [(key, [item])].
Proof.
  induction keys as [|k keys IH]; intros Hnodup; simpl; [reflexivity|].
  apply NoDup_cons_iff in Hnodup as [Hfresh Hnodup].
  rewrite (String.eqb_sym key k).
  destruct (String.eqb k key) eqn:Hk; simpl.
  - f_equal. apply String.eqb_eq in Hk as ->.
    apply map_ext_in. intros k' Hk'.
    destruct (String.eqb k' key) eqn:Heq; [|reflexivity].
    apply String.eqb_eq in Heq as ->. done.
  - rewrite (IH Hnodup). by destruct (existsb (String.eqb key) keys).
Qed.

(** The map built by the grouping loop: one entry per key, in the order
    in which the keys first occur, holding the items of that key in their
    order. *)
Lemma groupBy_entries (items : list V) :
  groupBy keyOf items
  = map (fun k => (k, itemsWithKey keyOf items k)) (firstOccurrences (map keyOf items)).
Proof.
  induction items as [|item items IH] using rev_ind; [reflexivity|].
  rewrite groupBy_snoc, IH, map_app. simpl (map keyOf [item]).
  rewrite firstOccurrences_snoc.
  rewrite pushInto_map by apply firstOccurrences_NoDup.
  unfold CodeSmells.setAdd.
  destruct (existsb (String.eqb (keyOf item)) (firstOccurrences (map keyOf items)))
    eqn:Hseen.
  - apply map_ext. intros k. unfold itemsWithKey.
    rewrite List.filter_app. simpl.
    destruct (String.eqb k (keyOf item)) eqn:Hk.
    + apply String.eqb_eq in Hk as ->. by rewrite String.eqb_refl.
    + rewrite String.eqb_sym, Hk. by rewrite app_nil_r.
  - rewrite map_app. simpl. f_equal.
    + apply map_ext_in. intros k Hk. unfold itemsWithKey.
      rewrite List.filter_app. simpl.
      destruct (String.eqb (keyOf item) k) eqn:Heq; [|by rewrite app_nil_r].
      apply String.eqb_eq in Heq as <-.
      assert (existsb (String.eqb (keyOf item)) (firstOccurrences (map keyOf items)) = true)
        by (apply existsb_exists; eexists; split; [exact Hk | apply String.eqb_refl]).
      congruence.
    + unfold itemsWithKey. rewrite List.filter_app. simpl.
      rewrite String.eqb_refl.
      assert (Hnone : itemsWithKey keyOf items (keyOf item) = []).
      { apply itemsWithKey_absent. intros Hin.
        apply firstOccurrences_In in Hin.
        assert (existsb (String.eqb (keyOf item)) (firstOccurrences (map keyOf items))
                = true)
          by (apply existsb_exists; eexists; split; [exact Hin | apply String.eqb_refl]).
        congruence. }
      unfold itemsWithKey in Hnone.
      by rewrite Hnone.
Qed.

Lemma pushInto_new (key : string) (item : V) (m : list (string * list V)) :
  ~ In key (map fst m) -> pushInto key item m = m ++ [(key, [item])].
Proof.
  induction m as [|[k items] m IH]; simpl; [reflexivity|]. intros Hnot.
  destruct (String.eqb k key) eqn:Hk; [apply String.eqb_eq in Hk; tauto|].
  rewrite IH; tauto.
Qed.

Lemma pushInto_last (key : string) (item : V) (m : list (string * list V))
    (items : list V) :
  ~ In key (map fst m) ->
  pushInto key item (m ++ [(key, items)]) = m ++ [(key, items ++ [item])].
Proof.
  induction m as [|[k its] m IH]; simpl; intros Hnot.
  - by rewrite String.eqb_refl.
  - destruct (String.eqb k key) eqn:Hk; [apply String.eqb_eq in Hk; tauto|].
    rewrite IH; tauto.
Qed.

(** Pushing a run of items that share a new key adds one entry. *)
Lemma pushInto_run (key : string) (items : list V) (m : list (string * list V)) :
  ~ In key (map fst m) -> items <> [] ->
  (forall item, In item items -> keyOf item = key) ->
  fold_left (fun m item => pushInto (keyOf item) item m) items m = m ++ [(key, items)].
Proof.
  intros Hnot Hne Hkey.
  induction items as [|item items IH] using rev_ind; [done|].
  rewrite fold_left_app. simpl.
  rewrite (Hkey item) by (apply in_app_iff; right; by left).
  destruct items as [|first items].
  - simpl. by apply pushInto_new.
  - rewrite IH; [by apply pushInto_last | done |].
    intros x Hx. apply Hkey. apply in_app_iff. by left.
Qed.

(** Grouping a concatenation of runs, each with its own key, gives the
    runs back, without the empty ones. *)
Lemma groupBy_runs (runs : list (string * list V)) :
  List.NoDup (map fst runs) ->
  (forall run item, In run runs -> In item run.2 -> keyOf item = run.1) ->
  groupBy keyOf (flat_map snd runs)
  = List.filter (fun run => match run.2 with [] => false | _ => true end) runs.
Proof.
  induction runs as [|run runs IH] using rev_ind; intros Hnodup Hkeys; [reflexivity|].
  rewrite flat_map_app, List.filter_app. simpl. rewrite app_nil_r.
  unfold groupBy. rewrite fold_left_app. fold (groupBy keyOf (flat_map snd runs)).
  rewrite map_app in Hnodup.
  rewrite IH.
  2:{ by apply NoDup_app_remove_r in Hnodup. }
  2:{ intros r x Hr Hx. apply Hkeys; [apply in_app_iff; by left | exact Hx]. }
  destruct run as [key items]. simpl.
  destruct items as [|item items]; [by rewrite app_nil_r|].
  apply pushInto_run; [|done|].
  - intros Hin. apply in_map_iff in Hin as (r & Hr & Hin).
    apply filter_In in Hin as [Hin _].
    apply NoDup_remove_2 in Hnodup. apply Hnodup. rewrite app_nil_r.
    apply in_map_iff. by exists r.
  - intros x Hx.
    apply (Hkeys (key, item :: items)); [apply in_app_iff; right; by left | exact Hx].
Qed.

End Grouping.

(** ** code-smells.ts: the textual report *)

Section TextualReport.
Import Model CodeSmells CodeSmellsReport MoreProps.

Lemma severity_counts (reports : list SmellReport) :
  (errorCount reports + warningCount reports = length reports)%nat.
Proof.
  unfold errorCount, warningCount.
  induction reports as [|r reports IH]; simpl; [reflexivity|].
  destruct (severity r); simpl; lia.
Qed.

Lemma reportLines_message (r : SmellReport) : In ("   " +:+ message r) (reportLines r).
Proof. unfold reportLines. simpl. right. by left. Qed.

(** X1.  [printReports] prints, for a run without finding, the one line
    that says so; otherwise the title, the line with the two counts, then
    one section for every type of finding, in the order in which the types
    first occur among the findings, and an empty line.  A section is the
    heading with the type and the number of its findings, followed by the
    lines of the findings of that type in their order.  The groups have
    pairwise distinct types; each holds exactly the findings of its type
    and is not empty; the two counts add up to the number of findings; and
    the message of every finding is printed. *)
Theorem X1_printReports_groups (reports : list SmellReport) :
  printReports reports
  = match reports with
    | [] => [newline +:+ "✅ No code smells detected!" +:+ newline]
    | _ =>
        [ newline +:+ "=== Code Smell Report ===";
          "Found " +:+ pretty (errorCount reports) +:+ " errors, "
                   +:+ pretty (warningCount reports) +:+ " warnings" +:+ newline ]
        ++ flat_map (reportSection reports) (firstOccurrences (map type reports))
        ++ [ "" ]
    end /\
  map fst (byType reports) = firstOccurrences (map type reports) /\
  List.NoDup (map fst (byType reports)) /\
  (forall t group, In (t, group) (byType reports) ->
     group = itemsWithKey type reports t /\ group <> []) /\
  (errorCount reports + warningCount reports = length reports)%nat /\
  (forall r, In r reports -> In ("   " +:+ message r) (printReports reports)).
Proof.
  split.
  { destruct reports as [|r0 reports]; [reflexivity|].
    unfold printReports. change (length (r0 :: reports) =? 0)%nat with false. cbv iota.
    unfold byType. rewrite (groupBy_entries type (r0 :: reports)), flat_map_map.
    reflexivity. }
  unfold byType. rewrite (groupBy_entries type reports).
  rewrite map_map. simpl. rewrite map_id.
  split; [reflexivity|]. split; [apply firstOccurrences_NoDup|]. split; [|split].
  - intros t group Hin. apply in_map_iff in Hin as (k & [= <- <-] & Hk).
    split; [reflexivity|].
    apply firstOccurrences_In, in_map_iff in Hk as (r & <- & Hr).
    intros Hempty.
    assert (Hin : In r (itemsWithKey type reports (type r)))
      by (apply filter_In; split; [exact Hr | apply String.eqb_refl]).
    rewrite Hempty in Hin. destruct Hin.
  - apply severity_counts.
  - intros r Hr. unfold printReports.
    destruct reports as [|r0 reports]; [destruct Hr|].
    change (length (r0 :: reports) =? 0)%nat with false. cbv iota.
    apply in_app_iff. right. apply in_app_iff. left.
    unfold byType. rewrite (groupBy_entries type (r0 :: reports)).
    apply in_flat_map. exists (type r, itemsWithKey type (r0 :: reports) (type r)).
    split.
    + apply in_map_iff. exists (type r). split; [reflexivity|].
      apply firstOccurrences_In, in_map_iff. by exists r.
    + right. cbn [snd]. apply in_flat_map. exists r.
      split; [|apply reportLines_message].
      unfold itemsWithKey. apply filter_In. split; [exact Hr | apply String.eqb_refl].
Qed.

End TextualReport.

(** ** extract-signatures.ts: what the filters let through *)

Section ExtractionFilters.
Import Model ExtractSignatures ExtractSignaturesOutput MoreProps.

Variable relative : string -> string.

Lemma extractFromSourceFile_filtered (sourceFile : SourceFile) (options : ExtractOptions) :
  Forall (passesExtractFilters (relative (sfGetFilePath sourceFile)) sourceFile options)
         (extractFromSourceFile relative sourceFile options).
Proof.
  unfold extractFromSourceFile.
  set (rp := relative (sfGetFilePath sourceFile)).
  set (Q := passesExtractFilters rp sourceFile options).
  assert (Hguard : forall b, exportedOnly options && negb b = false ->
                             exportedOnly options = true -> b = true).
  { intros b Hb Hexp. rewrite Hexp in Hb. by destruct b. }
  assert (Hfunctions :
            Forall Q (fold_left
                        (fun signatures fn =>
                           if exportedOnly options && negb (fnIsExported fn) then signatures
                           else signatures ++ [functionInfo rp fn])
                        (getFunctions sourceFile) [])).
  { apply fold_left_invariant; [constructor|]. intros acc fn Hacc _.
    destruct (exportedOnly options && negb (fnIsExported fn)) eqn:Hskip; [exact Hacc|].
    apply List.Forall_app. split; [exact Hacc|]. constructor; [|constructor].
    unfold Q, passesExtractFilters. simpl.
    split_and!; try done. by apply Hguard. }
  match type of Hfunctions with Forall _ ?l => set (afterFunctions := l) in * end.
  assert (Hclasses :
            Forall Q (fold_left
                        (fun signatures cls =>
                           if exportedOnly options && negb (clsIsExported cls)
                           then signatures
                           else
                             fold_left
                               (fun signatures method =>
                                  if negb (includePrivate options) && isPrivate method
                                  then signatures
                                  else signatures ++ [methodInfo rp cls method])
                               (clsGetMethods cls) (signatures ++ [classInfo rp cls]))
                        (getClasses sourceFile) afterFunctions)).
  { apply fold_left_invariant; [exact Hfunctions|]. intros acc cls Hacc Hcls.
    destruct (exportedOnly options && negb (clsIsExported cls)) eqn:Hskip; [exact Hacc|].
    apply fold_left_invariant.
    - apply List.Forall_app. split; [exact Hacc|]. constructor; [|constructor].
      unfold Q, passesExtractFilters. simpl. split_and!; try done. by apply Hguard.
    - intros acc' method Hacc' Hmethod.
      destruct (negb (includePrivate options) && isPrivate method) eqn:Hprivate;
        [exact Hacc'|].
      apply List.Forall_app. split; [exact Hacc'|]. constructor; [|constructor].
      unfold Q, passesExtractFilters. simpl. split_and!; try done.
      + by apply Hguard.
      + intros _. exists cls, method. split_and!; try done.
        intros Hno Hscope. rewrite Hno in Hprivate. unfold isPrivate in Hprivate.
        by rewrite Hscope in Hprivate. }
  match type of Hclasses with Forall _ ?l => set (afterClasses := l) in * end.
  destruct (includeTypes options) eqn:Htypes.
  - apply fold_left_invariant.
    + apply fold_left_invariant; [exact Hclasses|]. intros acc iface Hacc _.
      destruct (exportedOnly options && negb (ifaceIsExported iface)) eqn:Hskip;
        [exact Hacc|].
      apply List.Forall_app. split; [exact Hacc|]. constructor; [|constructor].
      unfold Q, passesExtractFilters. simpl. rewrite Htypes.
      split_and!; try done. by apply Hguard.
    + intros acc typeAlias Hacc _.
      destruct (exportedOnly options && negb (aliasIsExported typeAlias)) eqn:Hskip;
        [exact Hacc|].
      apply List.Forall_app. split; [exact Hacc|]. constructor; [|constructor].
      unfold Q, passesExtractFilters. simpl. rewrite Htypes.
      split_and!; try done. by apply Hguard.
  - exact Hclasses.
Qed.

(** X2.  Every record emitted for a file carries the relative path of the
    file; with [--exported] it is marked exported (a method inherits the
    mark of its class); without [--types] it is neither an interface nor a
    type alias; and a method record is the record of a method of a class of
    the file, which is not private unless [--private] is given. *)
Theorem X2_extraction_filters (sourceFile : SourceFile) (options : ExtractOptions)
    (sig : SignatureInfo) :
  In sig (extractFromSourceFile relative sourceFile options) ->
  passesExtractFilters (relative (sfGetFilePath sourceFile)) sourceFile options sig.
Proof.
  apply List.Forall_forall. apply extractFromSourceFile_filtered.
Qed.

(** X3.  When the files of the collection have pairwise distinct relative
    paths, grouping the records of the whole collection by file gives back,
    file by file and in the order of the collection, what was extracted
    from each file; a file without any record has no group. *)
Theorem X3_groupByFile_gives_back_the_files
    (sourceFiles : list SourceFile) (options : ExtractOptions) :
  List.NoDup (map (fun sf => relative (sfGetFilePath sf)) sourceFiles) ->
  groupByFile (extractAll relative sourceFiles options)
  = List.filter (fun group => match group.2 with [] => false | _ => true end)
                (map (fun sf => (relative (sfGetFilePath sf),
                                 extractFromSourceFile relative sf options))
                     sourceFiles).
Proof.
  intros Hdistinct. unfold groupByFile, extractAll.
  rewrite (fold_left_push _ (fun sf => extractFromSourceFile relative sf options))
    by reflexivity.
  simpl app.
  rewrite <- (flat_map_map snd
                (fun sf => (relative (sfGetFilePath sf),
                            extractFromSourceFile relative sf options))).
  apply groupBy_runs.
  - by rewrite map_map.
  - intros run sig Hrun Hsig. apply in_map_iff in Hrun as (sf & <- & _).
    simpl in *.
    pose proof (extractFromSourceFile_filtered sf options) as Hall.
    rewrite List.Forall_forall in Hall. by destruct (Hall sig Hsig).
Qed.

End ExtractionFilters.

(** The theorem at the collection of [users.ts] and [big.ts]. *)
Lemma X3_groupByFile_gives_back_the_files_witness :
  List.NoDup (map (fun sf => Examples.relativeToW (Model.sfGetFilePath sf))
                  [Examples.usersFile; Examples.bigFile]) /\
  map fst (ExtractSignaturesOutput.groupByFile
             (ExtractSignatures.extractAll Examples.relativeToW
                [Examples.usersFile; Examples.bigFile] Examples.extractEverything))
    = ["../src/users.ts"; "../src/big.ts"].
Proof.
  assert (Hdistinct : List.NoDup (map (fun sf => Examples.relativeToW (Model.sfGetFilePath sf))
                                      [Examples.usersFile; Examples.bigFile])).
  { repeat constructor; simpl; intuition discriminate. }
  split; [exact Hdistinct|].
  rewrite (X3_groupByFile_gives_back_the_files Examples.relativeToW _ _ Hdistinct).
  reflexivity.
Defined.

(** The theorem at the method of [UserService] under [--exported]. *)
Lemma X2_extraction_filters_witness :
  In (ExtractSignatures.methodInfo "../src/users.ts" Examples.userServiceClass
                                   Examples.fetchMethod)
     (ExtractSignatures.extractFromSourceFile Examples.relativeToW Examples.usersFile
                                              MoreExamples.exportedSignatures) /\
  ExtractSignatures.exported
    (ExtractSignatures.methodInfo "../src/users.ts" Examples.userServiceClass
                                  Examples.fetchMethod) = true.
Proof.
  assert (Hin : In (ExtractSignatures.methodInfo "../src/users.ts"
                      Examples.userServiceClass Examples.fetchMethod)
                   (ExtractSignatures.extractFromSourceFile
                      Examples.relativeToW Examples.usersFile
                      MoreExamples.exportedSignatures)).
  { right. right. left. reflexivity. }
  split; [exact Hin|].
  destruct (X2_extraction_filters Examples.relativeToW _ _ _ Hin) as (_ & Hexported & _).
  by apply Hexported.
Defined.

(** ** code-smells.ts: the nesting depth *)

Section NestingDepth.
Import Ast Model CodeSmells MoreProps.

Lemma nestingOf_unfold (k : SyntaxKind) (cs : list Node) :
  nestingOf (mkNode k cs)
  = (if isNestingConstruct (mkNode k cs) then 1 else 0)
    + fold_right (fun c deepest => Z.max (nestingOf c) deepest) 0 cs.
Proof.
  cbn [nestingOf]. destruct (isNestingConstruct (mkNode k cs)); [reflexivity|].
  symmetry. apply Z.add_0_l.
Qed.

Lemma deepest_nonneg (cs : list Node) :
  0 <= fold_right (fun c deepest => Z.max (nestingOf c) deepest) 0 cs.
Proof.
  induction cs as [|c cs IHcs]; simpl; lia.
Qed.

Lemma nestingOf_nonneg (n : Node) : 0 <= nestingOf n.
Proof.
  destruct n as [k cs]. pose proof (deepest_nonneg cs) as Hbelow.
  rewrite nestingOf_unfold. destruct (isNestingConstruct (mkNode k cs)); lia.
Qed.

Lemma fold_traverse (cs : list Node) (d : Z) :
  Forall (fun c => forall depth m, depth <= m ->
                   traverse c depth m = Z.max m (depth + nestingOf c)) cs ->
  forall m, d <= m ->
  fold_left (fun acc child => traverse child d acc) cs m
  = Z.max m (d + fold_right (fun c deepest => Z.max (nestingOf c) deepest) 0 cs).
Proof.
  induction 1 as [|c cs Hc _ IHcs]; intros m Hm; simpl; [lia|].
  rewrite Hc by exact Hm. rewrite IHcs by lia. lia.
Qed.

(** The counter of [traverse] ends at the larger of its value and of the
    depth of the node plus the nesting found below it. *)
Lemma traverse_nestingOf (n : Node) :
  forall depth maxDepth, depth <= maxDepth ->
  traverse n depth maxDepth = Z.max maxDepth (depth + nestingOf n).
Proof.
  induction n as [k cs IH] using Node_forall_ind. intros depth maxDepth Hle.
  rewrite nestingOf_unfold. cbn [traverse].
  destruct (isNestingConstruct (mkNode k cs)).
  - rewrite (fold_traverse cs (depth + 1) IH) by lia.
    pose proof (deepest_nonneg cs). lia.
  - rewrite (fold_traverse cs depth IH) by lia. lia.
Qed.

(** X4.  The nesting depth computed for a node is the length of the longest
    chain of [if], [for], [for-in], [for-of], [while], [do], [try] and
    [switch] statements nested in one another anywhere in its subtree; a
    deep-nesting finding is added for a function exactly when that length
    exceeds the threshold, whether the function is exported or not. *)
Theorem X4_nesting_depth_is_longest_chain
    (options : SmellOptions) (filePath : string) (reports : list SmellReport)
    (fn : FunctionLike) (className : option string) :
  getMaxNestingDepth (fnNode fn) = nestingOf (fnNode fn) /\
  (nestingOf (fnNode fn) <= maxNestingDepth (thresholds options) ->
   checkFn_deepNesting options filePath reports fn className = reports) /\
  (nestingOf (fnNode fn) > maxNestingDepth (thresholds options) ->
   exists finding,
     checkFn_deepNesting options filePath reports fn className = reports ++ [finding] /\
     type finding = "deep-nesting" /\
     line finding = Some (fnStartLineNumber fn) /\
     (severity finding = error <->
      nestingOf (fnNode fn) > maxNestingDepth (thresholds options) + 2)).
Proof.
  assert (Hdepth : getMaxNestingDepth (fnNode fn) = nestingOf (fnNode fn)).
  { unfold getMaxNestingDepth. rewrite traverse_nestingOf by lia.
    pose proof (nestingOf_nonneg (fnNode fn)). lia. }
  split; [exact Hdepth|]. unfold checkFn_deepNesting. rewrite Hdepth.
  split.
  - intros Hle.
    destruct (Z.gtb_spec (nestingOf (fnNode fn)) (maxNestingDepth (thresholds options)));
      [lia | reflexivity].
  - intros Hgt.
    destruct (Z.gtb_spec (nestingOf (fnNode fn)) (maxNestingDepth (thresholds options)));
      [|lia].
    eexists. split; [reflexivity|]. cbn.
    split_and!; try reflexivity.
    destruct (Z.gtb_spec (nestingOf (fnNode fn))
                         (maxNestingDepth (thresholds options) + 2));
      split; intros; (lia || done).
Qed.

End NestingDepth.

(** ** code-smells.ts: which check raises which finding *)

(** A loop step that pushes one finding keeps what holds of all findings. *)
Ltac pushes_finding :=
  apply List.Forall_app; split; [try assumption | constructor; [|constructor]].

Section CheckSelection.
Import Ast Model CodeSmells MoreProps.

Variable relative : string -> string.
Variable resolveSpecifier : string -> string -> string.
Variable hasSourceFile : string -> bool.
Variable parseInt : string -> Z.

Lemma forEachFunctionAndMethod_invariant (P : list SmellReport -> Prop)
    (checkFn : list SmellReport -> FunctionLike -> option string -> list SmellReport)
    (sourceFile : SourceFile) :
  P [] ->
  (forall reports fn className, P reports -> P (checkFn reports fn className)) ->
  P (forEachFunctionAndMethod checkFn sourceFile).
Proof.
  intros Hnil Hstep. unfold forEachFunctionAndMethod.
  apply fold_left_invariant.
  - apply fold_left_invariant; [exact Hnil|]. intros; by apply Hstep.
  - intros acc cls Hacc _. apply fold_left_invariant; [exact Hacc|].
    intros; by apply Hstep.
Qed.

Lemma checkLargeFunctions_raisedBy sourceFile options :
  Forall (raisedBy "large-functions") (checkLargeFunctions relative sourceFile options).
Proof.
  unfold checkLargeFunctions.
  apply (forEachFunctionAndMethod_invariant (Forall (raisedBy "large-functions"))); [constructor|].
  intros reports fn className Hreports. unfold checkFn_largeFunctions.
  destruct (exportedOnly options && negb (fnIsExported fn)); [assumption|].
  destruct (countLines fn >? _), (getCyclomaticComplexity _ >? _);
    repeat pushes_finding; solve [assumption | reflexivity].
Qed.

Lemma checkManyParams_raisedBy sourceFile options :
  Forall (raisedBy "many-params") (checkManyParams relative sourceFile options).
Proof.
  unfold checkManyParams.
  apply (forEachFunctionAndMethod_invariant (Forall (raisedBy "many-params"))); [constructor|].
  intros reports fn className Hreports. unfold checkFn_manyParams.
  destruct (exportedOnly options && negb (fnIsExported fn)); [assumption|].
  destruct (_ >? _); [pushes_finding; reflexivity | assumption].
Qed.

Lemma checkDeepNesting_raisedBy sourceFile options :
  Forall (raisedBy "deep-nesting") (checkDeepNesting relative sourceFile options).
Proof.
  unfold checkDeepNesting.
  apply (forEachFunctionAndMethod_invariant (Forall (raisedBy "deep-nesting"))); [constructor|].
  intros reports fn className Hreports. unfold checkFn_deepNesting.
  destruct (_ >? _); [pushes_finding; reflexivity | assumption].
Qed.

(** Every finding of the missing-JSDoc check is a warning of that type. *)
Lemma checkMissingJsDoc_warnings sourceFile options :
  Forall (fun r => raisedBy "missing-jsdoc" r /\ severity r = warning)
         (checkMissingJsDoc relative sourceFile options).
Proof.
  unfold checkMissingJsDoc. apply fold_left_invariant.
  - apply fold_left_invariant; [constructor|]. intros acc fn Hacc _.
    destruct (negb (fnIsExported fn)); [assumption|].
    destruct (lacksJsDoc _); [pushes_finding; by split | assumption].
  - intros acc cls Hacc _.
    destruct (negb (clsIsExported cls)); [assumption|].
    apply fold_left_invariant.
    + destruct (lacksJsDoc _); [pushes_finding; by split | assumption].
    + intros acc' method Hacc' _.
      destruct (fnGetScope method); try assumption;
        (destruct (lacksJsDoc _); [pushes_finding; by split | assumption]).
Qed.

Lemma checkLargeFiles_raisedBy sourceFile options :
  Forall (raisedBy "large-files") (checkLargeFiles relative sourceFile options).
Proof.
  unfold checkLargeFiles. destruct (_ >? _); repeat constructor.
Qed.

Lemma checkGodClasses_raisedBy sourceFile options :
  Forall (raisedBy "god-classes") (checkGodClasses relative sourceFile options).
Proof.
  unfold checkGodClasses. apply fold_left_invariant; [constructor|].
  intros acc cls Hacc _.
  destruct (_ >? 20), (_ >? 15);
    repeat pushes_finding; solve [assumption | reflexivity].
Qed.

Lemma checkCircularDeps_raisedBy project :
  Forall (raisedBy "circular-deps")
         (checkCircularDeps relative resolveSpecifier hasSourceFile project).
Proof.
  unfold checkCircularDeps.
  destruct (findCycles _) as [st|] eqn:Hrun; [|constructor].
  eapply List.Forall_impl; [|exact (findCycles_reports _ st Hrun)].
  intros r (cycle & _ & Htype & _). unfold raisedBy. by rewrite Htype.
Qed.

(** What holds of every finding of a run: its check is enabled, and it is
    a warning when the check is the missing-JSDoc one. *)
Lemma runChecks_enabled (options : SmellOptions) (sourceFiles : list SourceFile) :
  Forall (fun r => exists check,
                     raisedBy check r /\ check ∈ checks options /\
                     (check = "missing-jsdoc" -> severity r = warning))
         (runChecks relative resolveSpecifier hasSourceFile options sourceFiles).
Proof.
  unfold runChecks.
  set (Q := fun r => exists check,
                       raisedBy check r /\ check ∈ checks options /\
                       (check = "missing-jsdoc" -> severity r = warning)).
  assert (Hfrom : forall check reports,
             Forall (fun r => raisedBy check r /\
                              (check = "missing-jsdoc" -> severity r = warning)) reports ->
             forall acc,
               Forall Q acc ->
               Forall Q (if bool_decide (check ∈ checks options)
                         then acc ++ reports else acc)).
  { intros check reports Hreports acc Hacc. case_bool_decide; [|assumption].
    apply List.Forall_app. split; [assumption|].
    eapply List.Forall_impl; [|exact Hreports]. intros r [Hr Hsev]. by exists check. }
  assert (Hother : forall check reports,
             check <> "missing-jsdoc" ->
             Forall (raisedBy check) reports ->
             Forall (fun r => raisedBy check r /\
                              (check = "missing-jsdoc" -> severity r = warning)) reports).
  { intros check reports Hcheck. apply List.Forall_impl. intros r Hr. by split. }
  apply fold_left_invariant.
  - case_bool_decide; [|constructor].
    eapply List.Forall_impl; [|apply checkCircularDeps_raisedBy].
    intros r Hr. exists "circular-deps". by split_and!.
  - intros acc sourceFile Hacc _.
    apply Hfrom; [apply Hother; [done | apply checkGodClasses_raisedBy]|].
    apply Hfrom; [apply Hother; [done | apply checkLargeFiles_raisedBy]|].
    apply Hfrom; [apply Hother; [done | apply checkDeepNesting_raisedBy]|].
    apply Hfrom.
    { eapply List.Forall_impl; [|apply checkMissingJsDoc_warnings].
      by intros r [Hr Hsev]. }
    apply Hfrom; [apply Hother; [done | apply checkManyParams_raisedBy]|].
    apply Hfrom; [apply Hother; [done | apply checkLargeFunctions_raisedBy]|].
    exact Hacc.
Qed.

Lemma raisedBy_known (check : string) (r : SmellReport) :
  raisedBy check r -> In check ALL_CHECKS.
Proof.
  unfold raisedBy, checkOfType. intros Hraised.
  repeat match type of Hraised with
         | (if ?c then _ else _) = _ => destruct c
         end;
    inversion Hraised; subst; simpl; tauto.
Qed.

(** X5.  Every finding of a run was raised by a check that is enabled: a
    circular-dependency finding needs [circular-deps], a large-function or
    a high-complexity finding needs [large-functions], and so on for the
    seven checks; no other type of finding exists. *)
Theorem X5_findings_come_from_enabled_checks
    (options : SmellOptions) (sourceFiles : list SourceFile) (r : SmellReport) :
  In r (runChecks relative resolveSpecifier hasSourceFile options sourceFiles) ->
  exists check,
    checkOfType (type r) = Some check /\ check ∈ checks options /\ In check ALL_CHECKS.
Proof.
  intros Hin.
  pose proof (runChecks_enabled options sourceFiles) as Hall.
  rewrite List.Forall_forall in Hall.
  destruct (Hall r Hin) as (check & Hraised & Henabled & _).
  exists check. split_and!; [exact Hraised | exact Henabled |].
  by apply (raisedBy_known check r).
Qed.

(** X6.  A run that names a target and whose [--check] values name none
    of the seven checks, for instance because of a misspelt name, reports
    nothing and ends with the exit code 0, whatever the project holds. *)
Theorem X6_unknown_checks_report_nothing
    (args : list string) (targetPath : string) (sourceFiles : list SourceFile) :
  Js.includes "--help" args = false ->
  find (fun arg => negb (Js.startsWith arg "--")) args = Some targetPath ->
  targetPath <> "" ->
  sourceFiles <> [] ->
  (forall check, In check ALL_CHECKS -> check ∉ checks (parseOptions parseInt args)) ->
  main relative resolveSpecifier hasSourceFile parseInt args (Some sourceFiles) = (0, []).
Proof.
  intros Hhelp Htarget Hnamed Hfiles Hunknown. unfold main.
  rewrite Hhelp, Htarget.
  destruct targetPath as [|c targetPath]; [done|]. cbn [Js.truthy negb].
  destruct args as [|arg args]; [discriminate|]. simpl negb. cbn [orb length Nat.eqb].
  destruct sourceFiles as [|sf rest]; [done|]. cbn [length Nat.eqb].
  assert (Hnone : runChecks relative resolveSpecifier hasSourceFile
                            (parseOptions parseInt (arg :: args)) (sf :: rest) = []).
  { pose proof (runChecks_enabled (parseOptions parseInt (arg :: args)) (sf :: rest)) as Hall.
    destruct (runChecks _ _ _ _ _) as [|r reports]; [reflexivity|].
    apply List.Forall_inv in Hall. destruct Hall as (check & Hraised & Henabled & _).
    exfalso. apply (Hunknown check); [|exact Henabled].
    by apply (raisedBy_known check r). }
  by rewrite Hnone.
Qed.

(** X7.  A run that names a target, loads at least one file and has no
    enabled check other than [missing-jsdoc] ends with the exit code 0:
    all its findings are warnings of the type missing-jsdoc, however many
    declarations lack their documentation. *)
Theorem X7_missing_jsdoc_never_fails_the_run
    (args : list string) (targetPath : string) (sourceFiles : list SourceFile) :
  Js.includes "--help" args = false ->
  find (fun arg => negb (Js.startsWith arg "--")) args = Some targetPath ->
  targetPath <> "" ->
  sourceFiles <> [] ->
  (forall check, In check ALL_CHECKS -> check ∈ checks (parseOptions parseInt args) ->
                 check = "missing-jsdoc") ->
  exists findings,
    main relative resolveSpecifier hasSourceFile parseInt args (Some sourceFiles)
    = (0, findings) /\
    findings = flat_map (fun sf => checkMissingJsDoc relative sf (parseOptions parseInt args))
                        (if bool_decide ("missing-jsdoc" ∈ checks (parseOptions parseInt args))
                         then sourceFiles else []) /\
    Forall (fun r => type r = "missing-jsdoc" /\ severity r = warning) findings.
Proof.
  intros Hhelp Htarget Hnamed Hfiles Honly. unfold main.
  rewrite Hhelp, Htarget.
  destruct targetPath as [|c targetPath]; [done|]. cbn [Js.truthy negb].
  destruct args as [|arg args]; [discriminate|]. cbn [orb length Nat.eqb].
  destruct sourceFiles as [|sf rest]; [done|]. cbn [length Nat.eqb].
  set (options := parseOptions parseInt (arg :: args)) in *.
  set (files := sf :: rest) in *. clearbody files options.
  assert (Hoff : forall check, In check ALL_CHECKS -> check <> "missing-jsdoc" ->
                               bool_decide (check ∈ checks options) = false).
  { intros check Hknown Hother. apply bool_decide_eq_false. intros Hin.
    by apply Hother, Honly. }
  assert (Hrun : runChecks relative resolveSpecifier hasSourceFile options files
                 = flat_map (fun sf => checkMissingJsDoc relative sf options)
                            (if bool_decide ("missing-jsdoc" ∈ checks options)
                             then files else [])).
  { unfold runChecks. cbv beta zeta.
    rewrite (Hoff "circular-deps"), (Hoff "large-functions"), (Hoff "many-params"),
      (Hoff "deep-nesting"), (Hoff "large-files"), (Hoff "god-classes")
      by (simpl; first [done | tauto]).
    destruct (bool_decide ("missing-jsdoc" ∈ checks options)).
    - by rewrite (fold_left_push _ (fun sf => checkMissingJsDoc relative sf options)).
    - rewrite (fold_left_push _ (fun _ => [])) by (intros; by rewrite app_nil_r).
      by rewrite flat_map_constant_nil. }
  assert (Hwarnings : Forall (fun r => type r = "missing-jsdoc" /\ severity r = warning)
                             (runChecks relative resolveSpecifier hasSourceFile options files)).
  { rewrite Hrun. apply List.Forall_forall. intros r Hr.
    apply in_flat_map in Hr as (sf' & _ & Hr).
    pose proof (checkMissingJsDoc_warnings sf' options) as Hall.
    rewrite List.Forall_forall in Hall. destruct (Hall r Hr) as [Hraised Hsev].
    split; [|exact Hsev].
    unfold raisedBy, checkOfType in Hraised.
    destruct (type r =? "missing-jsdoc")%string eqn:Htype;
      [by apply String.eqb_eq in Htype|].
    repeat match type of Hraised with
           | (if ?c then _ else _) = _ => destruct c
           end; discriminate. }
  assert (Hclean : hasErrors (runChecks relative resolveSpecifier hasSourceFile options files)
                   = false).
  { unfold hasErrors. apply not_true_is_false. intros Herr.
    apply existsb_exists in Herr as (r & Hr & Hsev).
    rewrite List.Forall_forall in Hwarnings. destruct (Hwarnings r Hr) as [_ Hwarn].
    by rewrite Hwarn in Hsev. }
  rewrite Hclean. eexists. split_and!; [reflexivity | exact Hrun | exact Hwarnings].
Qed.

Lemma checkMissingJsDoc_by_declaration (sourceFile : SourceFile) (options : SmellOptions) :
  checkMissingJsDoc relative sourceFile options
  = flat_map (undocumentedFunction (relative (sfGetFilePath sourceFile)))
             (getFunctions sourceFile)
    ++ flat_map (undocumentedClass (relative (sfGetFilePath sourceFile)))
                (getClasses sourceFile).
Proof.
  unfold checkMissingJsDoc.
  set (filePath := relative (sfGetFilePath sourceFile)).
  rewrite (fold_left_push _ (undocumentedFunction filePath) ).
  2:{ intros acc fn. unfold undocumentedFunction.
      destruct (fnIsExported fn); simpl; [|by rewrite app_nil_r].
      destruct (lacksJsDoc _); [reflexivity | by rewrite app_nil_r]. }
  simpl app.
  apply fold_left_push. intros acc cls. unfold undocumentedClass.
  destruct (clsIsExported cls); simpl; [|by rewrite app_nil_r].
  rewrite (fold_left_push _ (undocumentedMethod filePath cls)).
  2:{ intros acc' method. unfold undocumentedMethod.
      destruct (fnGetScope method); try (by rewrite app_nil_r);
        (destruct (lacksJsDoc _); [reflexivity | by rewrite app_nil_r]). }
  destruct (lacksJsDoc (clsJsDocs cls)); [by rewrite <- app_assoc | reflexivity].
Qed.

(** X8.  The missing-JSDoc check reports exactly: the exported functions
    without JSDoc, the exported classes without JSDoc, and the methods
    without JSDoc of exported classes that are not private (protected ones
    included, under the words "Public method").  The flag [--exported]
    plays no part; nothing is reported for a declaration that is not
    exported or for a private method. *)
Theorem X8_missing_jsdoc_targets
    (sourceFile : SourceFile) (options : SmellOptions) (r : SmellReport) :
  In r (checkMissingJsDoc relative sourceFile options) <->
  (exists fn,
     In fn (getFunctions sourceFile) /\ fnIsExported fn = true /\
     lacksJsDoc (fnJsDocs fn) = true /\
     r = undocumentedFunctionFinding (relative (sfGetFilePath sourceFile)) fn) \/
  (exists cls,
     In cls (getClasses sourceFile) /\ clsIsExported cls = true /\
     lacksJsDoc (clsJsDocs cls) = true /\
     r = undocumentedClassFinding (relative (sfGetFilePath sourceFile)) cls) \/
  (exists cls method,
     In cls (getClasses sourceFile) /\ clsIsExported cls = true /\
     In method (clsGetMethods cls) /\ fnGetScope method <> ScopePrivate /\
     lacksJsDoc (fnJsDocs method) = true /\
     r = undocumentedMethodFinding (relative (sfGetFilePath sourceFile)) cls method).
Proof.
  rewrite checkMissingJsDoc_by_declaration, in_app_iff, !in_flat_map.
  set (filePath := relative (sfGetFilePath sourceFile)).
  split.
  - intros [(fn & Hfn & Hr)|(cls & Hcls & Hr)].
    + left. exists fn. unfold undocumentedFunction in Hr.
      destruct (fnIsExported fn), (lacksJsDoc (fnJsDocs fn)); simpl in Hr; try done.
      destruct Hr as [<-|[]]. by split_and!.
    + right. unfold undocumentedClass in Hr.
      destruct (clsIsExported cls) eqn:Hexported; [|done].
      apply in_app_iff in Hr as [Hr|Hr].
      * left. exists cls. destruct (lacksJsDoc (clsJsDocs cls)); [|done].
        destruct Hr as [<-|[]]. by split_and!.
      * right. apply in_flat_map in Hr as (method & Hmethod & Hr).
        exists cls, method. unfold undocumentedMethod in Hr.
        destruct (fnGetScope method) eqn:Hscope, (lacksJsDoc (fnJsDocs method));
          try done; destruct Hr as [<-|[]]; by split_and!.
  - intros [(fn & Hfn & Hexported & Hlacks & ->)
           |[(cls & Hcls & Hexported & Hlacks & ->)
            |(cls & method & Hcls & Hexported & Hmethod & Hscope & Hlacks & ->)]].
    + left. exists fn. split; [exact Hfn|]. unfold undocumentedFunction.
      rewrite Hexported, Hlacks. by left.
    + right. exists cls. split; [exact Hcls|]. unfold undocumentedClass.
      rewrite Hexported, Hlacks. by left.
    + right. exists cls. split; [exact Hcls|]. unfold undocumentedClass.
      rewrite Hexported. apply in_app_iff. right. apply in_flat_map.
      exists method. split; [exact Hmethod|]. unfold undocumentedMethod.
      rewrite Hlacks. destruct (fnGetScope method); try done; by left.
Qed.

End CheckSelection.

(** The theorem at the findings of a run of all checks over [big.ts]
    with a limit of 50 lines. *)
Lemma X5_findings_come_from_enabled_checks_witness :
  exists r check,
    In r (CodeSmells.runChecks Examples.relativeToW Examples.resolveInRoot
            Examples.inCyclicProject (Examples.optionsWith false 50) [Examples.bigFile]) /\
    MoreProps.checkOfType (CodeSmells.type r) = Some check /\
    check = "large-functions".
Proof.
  pose (r := {| CodeSmells.type := "large-function";
                CodeSmells.severity := CodeSmells.error;
                CodeSmells.file := "../src/big.ts";
                CodeSmells.line := Some 1;
                CodeSmells.message := "load is 120 lines (max: 50)";
                CodeSmells.details := None |}).
  assert (Hin : In r (CodeSmells.runChecks Examples.relativeToW Examples.resolveInRoot
                        Examples.inCyclicProject (Examples.optionsWith false 50)
                        [Examples.bigFile])).
  { vm_compute. left. reflexivity. }
  destruct (X5_findings_come_from_enabled_checks Examples.relativeToW Examples.resolveInRoot
              Examples.inCyclicProject _ _ r Hin) as (check & Hcheck & _ & _).
  exists r, check. split_and!; [exact Hin | exact Hcheck |].
  vm_compute in Hcheck. by inversion Hcheck.
Defined.

(** The theorem at [code-smells.ts src --check large-function] over
    [big.ts]. *)
Lemma X6_unknown_checks_report_nothing_witness :
  CodeSmells.main Examples.relativeToW Examples.resolveInRoot Examples.inCyclicProject
    MoreExamples.parseSmallInt MoreExamples.misspeltCheck (Some [Examples.bigFile])
  = (0, []).
Proof.
  apply (X6_unknown_checks_report_nothing Examples.relativeToW Examples.resolveInRoot
           Examples.inCyclicProject MoreExamples.parseSmallInt
           MoreExamples.misspeltCheck "src" [Examples.bigFile]).
  - reflexivity.
  - reflexivity.
  - discriminate.
  - discriminate.
  - intros check Hcheck. vm_compute in Hcheck.
    assert (Hchecks : CodeSmells.checks
                        (CodeSmells.parseOptions MoreExamples.parseSmallInt
                           MoreExamples.misspeltCheck)
                      = {["large-function"]}).
    { unfold CodeSmells.parseOptions, MoreExamples.misspeltCheck. cbn [CodeSmells.checks].
      cbn [CodeSmells.parseChecks String.eqb Ascii.eqb Bool.eqb Js.truthy].
      simpl. rewrite decide_False by set_solver. set_solver. }
    rewrite Hchecks.
    repeat destruct Hcheck as [<-|Hcheck]; [set_solver..|destruct Hcheck].
Defined.

(** The theorem at [code-smells.ts src --check missing-jsdoc] over
    [users.ts]. *)
Lemma X7_missing_jsdoc_never_fails_the_run_witness :
  exists findings,
    CodeSmells.main Examples.relativeToW Examples.resolveInRoot Examples.inCyclicProject
      MoreExamples.parseSmallInt MoreExamples.onlyMissingJsDoc (Some [Examples.usersFile])
    = (0, findings) /\ length findings = 3%nat.
Proof.
  destruct (X7_missing_jsdoc_never_fails_the_run Examples.relativeToW Examples.resolveInRoot
              Examples.inCyclicProject MoreExamples.parseSmallInt
              MoreExamples.onlyMissingJsDoc "src" [Examples.usersFile])
    as (findings & Hmain & Hfindings & _).
  - reflexivity.
  - reflexivity.
  - discriminate.
  - discriminate.
  - assert (Hchecks : CodeSmells.checks
                        (CodeSmells.parseOptions MoreExamples.parseSmallInt
                           MoreExamples.onlyMissingJsDoc)
                      = {["missing-jsdoc"]}).
    { unfold CodeSmells.parseOptions, MoreExamples.onlyMissingJsDoc. cbn [CodeSmells.checks].
      simpl. rewrite decide_False by set_solver. set_solver. }
    rewrite Hchecks. intros check _ Hcheck. set_solver.
  - exists findings. split; [exact Hmain|].
    assert (Hchecks : CodeSmells.checks
                        (CodeSmells.parseOptions MoreExamples.parseSmallInt
                           MoreExamples.onlyMissingJsDoc)
                      = {["missing-jsdoc"]}).
    { unfold CodeSmells.parseOptions, MoreExamples.onlyMissingJsDoc. cbn [CodeSmells.checks].
      simpl. rewrite decide_False by set_solver. set_solver. }
    rewrite Hchecks in Hfindings.
    rewrite bool_decide_eq_true_2 in Hfindings by set_solver.
    rewrite Hfindings. reflexivity.
Defined.

(** ** code-smells.ts: the search for cycles misses none *)

Section CycleSearch.
Import Model CodeSmells Props MoreProps.

Variable graph : list (string * list string).

Lemma dependenciesFirst_snoc (order : list string) (node : string) :
  dependenciesFirst graph order ->
  (forall dep, isEdge graph node dep -> In dep order) ->
  dependenciesFirst graph (order ++ [node]).
Proof.
  intros Horder Hnode before u after Hsplit dep Hedge.
  destruct after as [|x after _] using rev_ind.
  - apply app_inj_tail in Hsplit as [-> ->]. by apply Hnode.
  - rewrite app_comm_cons, app_assoc in Hsplit.
    apply app_inj_tail in Hsplit as [Horder' _].
    by apply (Horder before u after).
Qed.

(** A walk that starts at a node of the list only meets nodes that stand
    before it. *)
Lemma walk_descends (order : list string) :
  dependenciesFirst graph order ->
  forall walk a before after,
    order = before ++ a :: after -> chain graph (a :: walk) ->
    forall x, In x walk -> In x before.
Proof.
  intros Horder. induction walk as [|b walk IH]; intros a before after Hsplit Hchain x Hx;
    [destruct Hx|].
  destruct Hchain as [Hedge Hchain].
  pose proof (Horder before a after Hsplit b Hedge) as Hb.
  destruct Hx as [<-|Hx]; [exact Hb|].
  apply in_split in Hb as (before' & after' & ->).
  apply in_app_iff. left.
  apply (IH b before' (after' ++ a :: after)); [|exact Hchain|exact Hx].
  rewrite Hsplit, <- app_assoc. reflexivity.
Qed.

Lemma dependenciesFirst_acyclic (order : list string) (first : string) (body : list string) :
  dependenciesFirst graph order ->
  chain graph (first :: body ++ [first]) ->
  ~ In first order.
Proof.
  intros Horder Hwalk Hin.
  assert (Hdescent : forall n before after,
             (length before <= n)%nat -> order = before ++ first :: after -> False).
  { induction n as [|n IH]; intros before after Hlen Hsplit;
      assert (Hagain : In first before)
        by (apply (walk_descends order Horder (body ++ [first]) first before after Hsplit Hwalk);
            apply in_app_iff; right; by left).
    - destruct before; [destruct Hagain | simpl in Hlen; lia].
    - apply in_split in Hagain as (before' & after' & ->).
      apply (IH before' (after' ++ first :: after)).
      + rewrite length_app in Hlen. simpl in Hlen. lia.
      + rewrite Hsplit, <- app_assoc. reflexivity. }
  apply in_split in Hin as (before & after & Hsplit).
  by apply (Hdescent (length before) before after).
Qed.

(** *** The reports only grow *)

Lemma visitSeen_clean (dep : string) (st : DfsState) :
  dfsInvariant graph st -> reports (visitSeen dep st) = [] ->
  visitSeen dep st = st /\ dep ∉ recursionStack st.
Proof.
  intros (_ & Hstack & _) Hclean. unfold visitSeen in *.
  destruct (decide (dep ∈ recursionStack st)) as [Hactive|Hleft]; [|done].
  destruct (indexOf_In dep (pathStack st)) as (i & Hindex); [by apply Hstack|].
  rewrite Hindex in Hclean. simpl in Hclean.
  by destruct (reports st).
Qed.

Lemma visitSeen_reports (dep : string) (st : DfsState) :
  reports (visitSeen dep st) = [] -> reports st = [].
Proof.
  unfold visitSeen. destruct (decide _); [|done].
  destruct (Js.indexOf dep (pathStack st)); [|done].
  simpl. by destruct (reports st).
Qed.

Lemma visitDependencies_reports (recur : string -> DfsState -> option DfsState) :
  (forall dep st st', recur dep st = Some st' -> reports st' = [] -> reports st = []) ->
  forall deps st st',
    visitDependencies recur deps st = Some st' -> reports st' = [] -> reports st = [].
Proof.
  intros Hrecur. induction deps as [|dep deps IH]; intros st st' Hrun Hclean;
    simpl in Hrun.
  - by injection Hrun as <-.
  - destruct (decide (dep ∈ visited st)).
    + apply (visitSeen_reports dep). by apply (IH _ st').
    + destruct (recur dep st) as [st1|] eqn:Hcall; [|discriminate].
      apply (Hrecur dep st st1 Hcall). by apply (IH _ st').
Qed.

Lemma dfs_reports (fuel : nat) :
  forall node st st',
    dfs fuel graph node st = Some st' -> reports st' = [] -> reports st = [].
Proof.
  induction fuel as [|fuel IH]; intros node st st' Hrun Hclean; [discriminate|].
  simpl in Hrun.
  destruct (visitDependencies _ _ _) as [st1|] eqn:Hloop; [|discriminate].
  injection Hrun as <-. simpl in Hclean.
  by apply (visitDependencies_reports (dfs fuel graph) IH _ _ _ Hloop) in Hclean.
Qed.

Lemma dfsRoots_reports (nodes : list string) :
  forall st st',
    dfsRoots graph nodes st = Some st' -> reports st' = [] -> reports st = [].
Proof.
  induction nodes as [|node nodes IH]; intros st st' Hrun Hclean; cbn [dfsRoots] in Hrun.
  - by injection Hrun as <-.
  - destruct (decide (node ∈ visited st)); [by apply (IH st st')|].
    destruct (dfs (dfsFuel graph) graph node st) as [st1|] eqn:Hdfs; [|discriminate].
    apply (dfs_reports _ _ _ _ Hdfs). by apply (IH st1 st').
Qed.

(** *** A search without report leaves the nodes in a dependency order *)

Lemma visitDependencies_finishes (recur : string -> DfsState -> option DfsState)
    (path : list string) (node : string) :
  (forall dep st st',
      dfsInvariant graph st -> dep ∉ visited st -> chain graph (pathStack st ++ [dep]) ->
      recur dep st = Some st' ->
      dfsInvariant graph st' /\ pathStack st' = pathStack st /\
      visited st ⊆ visited st') ->
  (forall dep st st', recur dep st = Some st' -> reports st' = [] -> reports st = []) ->
  (forall dep st st' order,
      dfsInvariant graph st -> dep ∉ visited st -> chain graph (pathStack st ++ [dep]) ->
      finishedInOrder graph st order ->
      recur dep st = Some st' -> reports st' = [] ->
      exists order', finishedInOrder graph st' order' /\ incl order order' /\
                     In dep order') ->
  forall deps st st' order,
    (forall dep, In dep deps -> isEdge graph node dep) ->
    dfsInvariant graph st -> pathStack st = path ++ [node] ->
    finishedInOrder graph st order ->
    visitDependencies recur deps st = Some st' -> reports st' = [] ->
    exists order', finishedInOrder graph st' order' /\ incl order order' /\
                   (forall dep, In dep deps -> In dep order').
Proof.
  intros Hinvariant Hgrow Hfinish.
  induction deps as [|dep deps IH]; intros st st' order Hedges Hinv Hpath Horder Hrun Hclean;
    simpl in Hrun.
  - injection Hrun as <-. exists order. split_and!; [exact Horder | apply incl_refl | by intros ? []].
  - assert (Hedge : isEdge graph node dep) by (apply Hedges; by left).
    assert (Hrest : forall d, In d deps -> isEdge graph node d)
      by (intros d Hd; apply Hedges; by right).
    destruct (decide (dep ∈ visited st)) as [Hseen|Hnew].
    + assert (Hclean0 : reports (visitSeen dep st) = [])
        by (by apply (visitDependencies_reports recur Hgrow deps _ st')).
      destruct (visitSeen_clean dep st Hinv Hclean0) as [Hsame Hleft].
      rewrite Hsame in Hrun.
      destruct (IH st st' order Hrest Hinv Hpath Horder Hrun Hclean)
        as (order' & Horder' & Hincl & Hdeps).
      exists order'. split_and!; [exact Horder' | exact Hincl |].
      intros d [<-|Hd]; [|by apply Hdeps].
      apply Hincl. by apply Horder.
    + destruct (recur dep st) as [st1|] eqn:Hcall; [|discriminate].
      assert (Hchain : chain graph (pathStack st ++ [dep])).
      { rewrite Hpath. apply chain_snoc; [|exact Hedge].
        destruct Hinv as (_ & _ & _ & Hchain & _). by rewrite <- Hpath. }
      destruct (Hinvariant dep st st1 Hinv Hnew Hchain Hcall) as (Hinv1 & Hpath1 & _).
      assert (Hclean1 : reports st1 = [])
        by (by apply (visitDependencies_reports recur Hgrow deps st1 st')).
      destruct (Hfinish dep st st1 order Hinv Hnew Hchain Horder Hcall Hclean1)
        as (order1 & Horder1 & Hincl1 & Hdep1).
      destruct (IH st1 st' order1 Hrest Hinv1 ltac:(by rewrite Hpath1) Horder1 Hrun Hclean)
        as (order' & Horder' & Hincl & Hdeps).
      exists order'. split_and!; [exact Horder' | |].
      * intros x Hx. by apply Hincl, Hincl1.
      * intros d [<-|Hd]; [by apply Hincl | by apply Hdeps].
Qed.

(** The state on entry of [dfs] keeps the invariant. *)
Lemma entered_invariant (node : string) (st : DfsState) :
  dfsInvariant graph st -> node ∉ visited st -> chain graph (pathStack st ++ [node]) ->
  dfsInvariant graph {| visited := {[node]} ∪ visited st;
                        recursionStack := {[node]} ∪ recursionStack st;
                        pathStack := pathStack st ++ [node];
                        reports := reports st |}.
Proof.
  intros (Hnodup & Hstack & Hvisited & _ & Hreports) Hnew Hchain.
  assert (Hfresh : ~ In node (pathStack st)) by (intros Hin; by apply Hnew, Hvisited).
  unfold dfsInvariant. simpl. split_and!.
  - apply List.NoDup_app; [exact Hnodup | repeat constructor; simpl; tauto |].
    intros a Ha [<-|[]]. done.
  - intros x. rewrite in_app_iff, elem_of_union, elem_of_singleton, Hstack. simpl.
    intuition.
  - intros x Hx. apply in_app_iff in Hx as [Hx|[<-|[]]].
    + apply elem_of_union_r. by apply Hvisited.
    + apply elem_of_union_l. by apply elem_of_singleton_2.
  - exact Hchain.
  - exact Hreports.
Qed.

Lemma dfs_finishes (fuel : nat) :
  forall node st st' order,
    dfsInvariant graph st -> node ∉ visited st -> chain graph (pathStack st ++ [node]) ->
    finishedInOrder graph st order ->
    dfs fuel graph node st = Some st' -> reports st' = [] ->
    exists order', finishedInOrder graph st' order' /\ incl order order' /\ In node order'.
Proof.
  induction fuel as [|fuel IH];
    intros node st st' order Hinv Hnew Hchain Horder Hrun Hclean; [discriminate|].
  simpl in Hrun.
  set (entered := {| visited := {[node]} ∪ visited st;
                     recursionStack := {[node]} ∪ recursionStack st;
                     pathStack := pathStack st ++ [node];
                     reports := reports st |}) in Hrun.
  destruct (visitDependencies (dfs fuel graph) (default [] (mapGet graph node)) entered)
    as [st1|] eqn:Hloop; [|discriminate].
  injection Hrun as <-. simpl in Hclean.
  pose proof (entered_invariant node st Hinv Hnew Hchain) as Hentered.
  fold entered in Hentered.
  assert (Hedges : forall dep, In dep (default [] (mapGet graph node)) ->
                               isEdge graph node dep).
  { intros dep Hdep. destruct (mapGet graph node) as [deps|] eqn:Hget; [|destruct Hdep].
    by exists deps. }
  assert (Hentered_order : finishedInOrder graph entered order).
  { destruct Horder as [Hmembers Hfirst]. split; [|exact Hfirst].
    intros x. rewrite Hmembers. unfold entered. simpl.
    rewrite !elem_of_union, !elem_of_singleton. split.
    - intros [Hx Hout]. split; [by right|]. intros [->|Hin]; done.
    - intros [[->|Hx] Hout]; [exfalso; apply Hout; by left|].
      split; [exact Hx|]. intros Hin. apply Hout. by right. }
  destruct (visitDependencies_invariant graph (dfs fuel graph) (pathStack st) node
              (dfs_invariant graph fuel)
              (default [] (mapGet graph node)) entered st1 Hedges Hentered eq_refl Hloop)
    as ((_ & Hstack1 & _) & Hpath1 & Hsub1).
  destruct (visitDependencies_finishes (dfs fuel graph) (pathStack st) node
              (dfs_invariant graph fuel) (dfs_reports fuel) IH
              (default [] (mapGet graph node)) entered st1 order
              Hedges Hentered eq_refl Hentered_order Hloop Hclean)
    as (order1 & [Hmembers1 Hfirst1] & Hincl1 & Hdeps1).
  assert (Hnode1 : node ∈ visited st1) by (apply Hsub1; unfold entered; simpl; set_solver).
  exists (order1 ++ [node]). split_and!.
  - split.
    + intros x. rewrite in_app_iff, Hmembers1. simpl.
      rewrite elem_of_difference, elem_of_singleton. split.
      * intros [[Hx Hout]|[<-|[]]]; [split; [exact Hx | tauto]|].
        split; [exact Hnode1 | tauto].
      * intros [Hx Hout].
        destruct (decide (x = node)) as [->|Hother]; [right; by left|].
        left. split; [exact Hx|]. intros Hin. apply Hout. by split.
    + apply dependenciesFirst_snoc; [exact Hfirst1|].
      intros dep (deps & Hget & Hdep). apply Hdeps1. by rewrite Hget.
  - intros x Hx. apply in_app_iff. left. by apply Hincl1.
  - apply in_app_iff. right. by left.
Qed.

Lemma dfsRoots_finishes (nodes : list string) :
  forall st st' order,
    dfsInvariant graph st -> pathStack st = [] ->
    finishedInOrder graph st order ->
    dfsRoots graph nodes st = Some st' -> reports st' = [] ->
    exists order', finishedInOrder graph st' order' /\ incl order order' /\
                   (forall node, In node nodes -> In node order').
Proof.
  induction nodes as [|node nodes IH]; intros st st' order Hinv Hpath Horder Hrun Hclean;
    cbn [dfsRoots] in Hrun.
  - injection Hrun as <-. exists order. split_and!; [exact Horder | apply incl_refl | by intros ? []].
  - destruct (decide (node ∈ visited st)) as [Hseen|Hnew].
    + destruct (IH st st' order Hinv Hpath Horder Hrun Hclean)
        as (order' & Horder' & Hincl & Hnodes).
      exists order'. split_and!; [exact Horder' | exact Hincl |].
      intros n [<-|Hn]; [|by apply Hnodes].
      apply Hincl. apply Horder. split; [exact Hseen|].
      destruct Hinv as (_ & Hstack & _). intros Hin. apply Hstack in Hin.
      by rewrite Hpath in Hin.
    + destruct (dfs (dfsFuel graph) graph node st) as [st1|] eqn:Hdfs; [|discriminate].
      assert (Hchain : chain graph (pathStack st ++ [node])) by (by rewrite Hpath).
      destruct (dfs_invariant graph _ _ _ _ Hinv Hnew Hchain Hdfs) as (Hinv1 & Hpath1 & _).
      assert (Hclean1 : reports st1 = []) by (by apply (dfsRoots_reports nodes st1 st')).
      destruct (dfs_finishes _ _ _ _ order Hinv Hnew Hchain Horder Hdfs Hclean1)
        as (order1 & Horder1 & Hincl1 & Hnode1).
      destruct (IH st1 st' order1 Hinv1 ltac:(by rewrite Hpath1) Horder1 Hrun Hclean)
        as (order' & Horder' & Hincl & Hnodes).
      exists order'. split_and!; [exact Horder' | |].
      * intros x Hx. by apply Hincl, Hincl1.
      * intros n [<-|Hn]; [by apply Hincl | by apply Hnodes].
Qed.

Lemma mapGet_key (g : list (string * list string)) (node : string) (deps : list string) :
  mapGet g node = Some deps -> In node (mapKeys g).
Proof.
  induction g as [|[k v] g IH]; simpl; [done|].
  destruct (String.eqb k node) eqn:Hk.
  - apply String.eqb_eq in Hk. by left.
  - intros Hget. right. by apply IH.
Qed.

Lemma findCycles_complete (st : DfsState) :
  findCycles graph = Some st -> reports st = [] -> ~ hasCycle graph.
Proof.
  intros Hrun Hclean (first & body & Hwalk). unfold findCycles in Hrun.
  assert (Hinitial : dfsInvariant graph initialDfsState).
  { unfold dfsInvariant, initialDfsState. simpl. split_and!; try done; constructor. }
  assert (Hnone : finishedInOrder graph initialDfsState []).
  { split.
    - intros x. unfold initialDfsState. simpl. set_solver.
    - intros before node after Hsplit. by destruct before. }
  destruct (dfsRoots_finishes (mapKeys graph) initialDfsState st [] Hinitial eq_refl
              Hnone Hrun Hclean) as (order & [_ Hfirst] & _ & Hkeys).
  apply (dependenciesFirst_acyclic order first body Hfirst Hwalk).
  apply Hkeys.
  destruct body; simpl in Hwalk; destruct Hwalk as [(deps & Hget & _) _];
    by apply (mapGet_key graph first deps).
Qed.

End CycleSearch.

(** X10.  The circular-dependency check is complete: it reports nothing
    exactly when the import graph of the project has no cycle, that is, no
    file from which a chain of resolved local imports leads back to it. *)
Theorem X10_no_report_iff_no_cycle
    (relative : string -> string) (resolveSpecifier : string -> string -> string)
    (hasSourceFile : string -> bool) (project : list Model.SourceFile) :
  CodeSmells.checkCircularDeps relative resolveSpecifier hasSourceFile project = [] <->
  ~ MoreProps.hasCycle (CodeSmells.buildGraph relative resolveSpecifier hasSourceFile project).
Proof.
  set (graph := CodeSmells.buildGraph relative resolveSpecifier hasSourceFile project).
  unfold CodeSmells.checkCircularDeps. fold graph.
  destruct (findCycles_total graph) as (st & Hrun). rewrite Hrun.
  split.
  - intros Hclean. by apply (findCycles_complete graph st).
  - intros Hacyclic.
    pose proof (findCycles_reports graph st Hrun) as Hreports.
    destruct (CodeSmells.reports st) as [|r reports]; [reflexivity|].
    exfalso. apply Hacyclic.
    apply List.Forall_inv in Hreports as (cycle & (first & body & -> & _ & Hchain) & _).
    by exists first, body.
Qed.

(** ** code-smells.ts: the import graph *)

Section ImportGraph.
Import Model CodeSmells Props MoreProps.

Variable relative : string -> string.
Variable resolveSpecifier : string -> string -> string.
Variable hasSourceFile : string -> bool.

Lemma mapGet_mapSet (g : list (string * list string)) (k k' : string) (v : list string) :
  mapGet (mapSet k v g) k' = if String.eqb k k' then Some v else mapGet g k'.
Proof.
  induction g as [|[k0 v0] g IH]; simpl; [reflexivity|].
  destruct (String.eqb k0 k) eqn:Hk0; simpl.
  - apply String.eqb_eq in Hk0 as ->. by destruct (String.eqb k k').
  - rewrite IH. destruct (String.eqb k0 k') eqn:Hk0'; [|reflexivity].
    apply String.eqb_eq in Hk0' as ->. by rewrite String.eqb_sym, Hk0.
Qed.

Lemma mapKeys_mapSet (g : list (string * list string)) (k : string) (v : list string) :
  mapKeys (mapSet k v g) = setAdd k (mapKeys g).
Proof.
  unfold setAdd, mapKeys. induction g as [|[k0 v0] g IH]; simpl; [reflexivity|].
  rewrite (String.eqb_sym k k0).
  destruct (String.eqb k0 k) eqn:Hk0; simpl.
  - by apply String.eqb_eq in Hk0 as ->.
  - rewrite IH. by destruct (existsb (String.eqb k) (map fst g)).
Qed.

Lemma buildGraph_snoc (project : list SourceFile) (sourceFile : SourceFile) :
  buildGraph relative resolveSpecifier hasSourceFile (project ++ [sourceFile])
  = mapSet (relative (sfGetFilePath sourceFile))
      (firstOccurrences
         (map (resolveImport resolveSpecifier hasSourceFile
                             (relative (sfGetFilePath sourceFile)))
              (List.filter isLocalSpecifier (getImportDeclarations sourceFile))))
      (buildGraph relative resolveSpecifier hasSourceFile project).
Proof.
  unfold buildGraph at 1. rewrite fold_left_app. simpl. f_equal.
  unfold firstOccurrences. generalize (@nil string).
  induction (getImportDeclarations sourceFile) as [|spec specs IH]; intros acc; simpl;
    [reflexivity|].
  rewrite IH. unfold isLocalSpecifier at 2.
  by destruct (Js.startsWith spec "." || Js.startsWith spec "/").
Qed.

(** The keys of the graph are the relative paths of the files, in the
    order of the project. *)
Lemma buildGraph_keys (project : list SourceFile) :
  mapKeys (buildGraph relative resolveSpecifier hasSourceFile project)
  = firstOccurrences (map (fun sf => relative (sfGetFilePath sf)) project).
Proof.
  induction project as [|sf project IH] using rev_ind; [reflexivity|].
  by rewrite buildGraph_snoc, mapKeys_mapSet, IH, map_app, <- firstOccurrences_snoc.
Qed.

Lemma firstOccurrences_distinct (keys : list string) :
  List.NoDup keys -> firstOccurrences keys = keys.
Proof.
  induction keys as [|k keys IH] using rev_ind; intros Hnodup; [reflexivity|].
  rewrite firstOccurrences_snoc, IH by (by apply NoDup_app_remove_r in Hnodup).
  unfold setAdd. destruct (existsb (String.eqb k) keys) eqn:Hseen; [|reflexivity].
  exfalso. apply existsb_exists in Hseen as (y & Hy & Heq).
  apply String.eqb_eq in Heq as <-.
  apply NoDup_remove_2 in Hnodup. rewrite app_nil_r in Hnodup. done.
Qed.

(** X9.  When the files of the project have pairwise distinct relative
    paths, the graph searched for cycles has one node per file, in the
    order of the project, and an edge from a file to a path exactly when
    the file has an import whose specifier starts with a dot or a slash
    and resolves to that path; imports of packages leave no edge. *)
Theorem X9_import_graph_edges (project : list SourceFile) :
  List.NoDup (map (fun sf => relative (sfGetFilePath sf)) project) ->
  mapKeys (buildGraph relative resolveSpecifier hasSourceFile project)
  = map (fun sf => relative (sfGetFilePath sf)) project /\
  forall a b,
    isEdge (buildGraph relative resolveSpecifier hasSourceFile project) a b <->
    exists sourceFile moduleSpecifier,
      In sourceFile project /\ relative (sfGetFilePath sourceFile) = a /\
      In moduleSpecifier (getImportDeclarations sourceFile) /\
      isLocalSpecifier moduleSpecifier = true /\
      resolveImport resolveSpecifier hasSourceFile a moduleSpecifier = b.
Proof.
  intros Hdistinct. split; [by rewrite buildGraph_keys, firstOccurrences_distinct|].
  intros a b. unfold isEdge.
  induction project as [|sf project IH] using rev_ind.
  - simpl. split; [by intros (deps & Hget & _) | by intros (? & ? & [] & _)].
  - rewrite map_app in Hdistinct. simpl in Hdistinct.
    pose proof (NoDup_remove_2 _ _ _ Hdistinct) as Hfresh. rewrite app_nil_r in Hfresh.
    apply NoDup_app_remove_r in Hdistinct. specialize (IH Hdistinct).
    rewrite buildGraph_snoc.
    setoid_rewrite mapGet_mapSet.
    destruct (String.eqb (relative (sfGetFilePath sf)) a) eqn:Ha.
    + apply String.eqb_eq in Ha. split.
      * intros (deps & [= <-] & Hb).
        apply firstOccurrences_In, in_map_iff in Hb as (spec & Hb & Hspec).
        apply filter_In in Hspec as [Hspec Hlocal].
        exists sf, spec. rewrite in_app_iff. simpl. rewrite <- Ha. by split_and!; [right; left|..].
      * intros (sf' & spec & Hsf' & Ha' & Hspec & Hlocal & Hb).
        apply in_app_iff in Hsf' as [Hsf'|[<-|[]]].
        { exfalso. apply Hfresh. apply in_map_iff. exists sf'. by rewrite Ha', Ha. }
        eexists. split; [reflexivity|].
        apply firstOccurrences_In, in_map_iff. exists spec.
        rewrite Ha. split; [exact Hb|]. by apply filter_In.
    + rewrite IH. split.
      * intros (sf' & spec & Hsf' & Hrest). exists sf', spec.
        split; [apply in_app_iff; by left | exact Hrest].
      * intros (sf' & spec & Hsf' & Ha' & Hrest). exists sf', spec.
        apply in_app_iff in Hsf' as [Hsf'|[<-|[]]]; [split; [exact Hsf' | by split] |].
        rewrite Ha', String.eqb_refl in Ha. discriminate.
Qed.

End ImportGraph.

(** The theorem at the project of three files that import one another in
    a circle. *)
Lemma X9_import_graph_edges_witness :
  List.NoDup (map (fun sf => Model.sfGetFilePath sf) Examples.cyclicProject) /\
  Props.isEdge (CodeSmells.buildGraph (fun p => p) Examples.resolveInRoot
                  Examples.inCyclicProject Examples.cyclicProject) "b.ts" "c.ts" /\
  ~ Props.isEdge (CodeSmells.buildGraph (fun p => p) Examples.resolveInRoot
                    Examples.inCyclicProject Examples.cyclicProject) "b.ts" "lodash".
Proof.
  assert (Hdistinct : List.NoDup (map (fun sf => Model.sfGetFilePath sf)
                                      Examples.cyclicProject)).
  { repeat constructor; simpl; intuition discriminate. }
  destruct (X9_import_graph_edges (fun p => p) Examples.resolveInRoot
              Examples.inCyclicProject Examples.cyclicProject Hdistinct) as [_ Hedges].
  split; [exact Hdistinct|]. split.
  - apply Hedges. exists (Examples.importing "b.ts" ["./c"; "lodash"]), "./c".
    split_and!; try reflexivity; [right; by left | by left].
  - intros Hedge. apply Hedges in Hedge as (sf & spec & Hsf & Hpath & Hspec & Hlocal & Hb).
    simpl in Hsf. destruct Hsf as [<-|[<-|[<-|[]]]]; try discriminate.
    simpl in Hspec. destruct Hspec as [<-|[<-|[]]]; [|discriminate].
    vm_compute in Hb. discriminate.
Defined.

(** ** trace-calls.ts: finding the declaration *)

Section FindFunction.
Import TraceCalls TraceCallsOutput.

Variable project : nat -> Declaration.
Variable getSourceFile : string -> option SourceFileDeclarations.

Lemma find_app {A : Type} (p : A -> bool) (l1 l2 : list A) :
  find p (l1 ++ l2) = match find p l1 with Some x => Some x | None => find p l2 end.
Proof.
  induction l1 as [|x l1 IH]; simpl; [reflexivity|]. by destruct (p x).
Qed.

Lemma findMethod_concat (functionName : string) (classes : list (list nat)) :
  findMethod project functionName classes
  = find (hasName project functionName) (concat classes).
Proof.
  induction classes as [|methods classes IH]; simpl; [reflexivity|].
  rewrite find_app, IH. by destruct (find _ methods).
Qed.

(** X11.  In a file that is loaded, [findFunctionByName] returns the first
    declaration with the requested name in this order: the top-level
    functions, then the methods of the classes, class by class, then the
    function and method declarations met anywhere in the file; it returns
    nothing exactly when none of them has the name.  A top-level function
    therefore wins over a method of the same name written before it. *)
Theorem X11_findFunctionByName_order
    (filePath functionName : string) (sourceFile : SourceFileDeclarations) :
  getSourceFile filePath = Some sourceFile ->
  findFunctionByName project getSourceFile filePath functionName
  = find (hasName project functionName)
         (getFunctions sourceFile ++ concat (getClassesMethods sourceFile)
            ++ getDescendantDeclarations sourceFile) /\
  (forall d,
     findFunctionByName project getSourceFile filePath functionName = Some d ->
     getName (project d) = Some functionName) /\
  (findFunctionByName project getSourceFile filePath functionName = None <->
   forall d,
     In d (getFunctions sourceFile ++ concat (getClassesMethods sourceFile)
             ++ getDescendantDeclarations sourceFile) ->
     getName (project d) <> Some functionName).
Proof.
  intros Hfile.
  assert (Horder : findFunctionByName project getSourceFile filePath functionName
                   = find (hasName project functionName)
                          (getFunctions sourceFile ++ concat (getClassesMethods sourceFile)
                             ++ getDescendantDeclarations sourceFile)).
  { unfold findFunctionByName. rewrite Hfile, !find_app, findMethod_concat.
    destruct (find _ (getFunctions sourceFile)); [reflexivity|].
    by destruct (find _ (concat _)). }
  assert (Hname : forall d, hasName project functionName d = true <->
                            getName (project d) = Some functionName).
  { intros d. unfold hasName. destruct (getName (project d)) as [n|]; [|done].
    rewrite String.eqb_eq. split; [by intros -> | by intros [= ->]]. }
  split; [exact Horder|]. rewrite Horder. split.
  - intros d Hfound. apply find_some in Hfound as [_ Hd]. by apply Hname.
  - split.
    + intros Hnone d Hd Hnamed. apply Hname in Hnamed.
      pose proof (find_none _ _ Hnone d Hd) as Hnot. congruence.
    + intros Hnone. destruct (find _ _) as [d|] eqn:Hfound; [|reflexivity].
      apply find_some in Hfound as [Hd Hnamed]. apply Hname in Hnamed.
      by destruct (Hnone d Hd).
Qed.

End FindFunction.

(** The theorem at the lookup of [b] in [/src/chain.ts]. *)
Lemma X11_findFunctionByName_order_witness :
  TraceCallsOutput.findFunctionByName Examples.chainProject MoreExamples.chainSourceFile
    "/src/chain.ts" "b" = Some 2%nat.
Proof.
  destruct (X11_findFunctionByName_order Examples.chainProject MoreExamples.chainSourceFile
              "/src/chain.ts" "b" _ eq_refl) as (-> & _).
  reflexivity.
Defined.

(** ** trace-calls.ts: printing the trees *)

Section PrintTrees.
Import TraceCalls TraceCallsOutput MoreProps.

Variable direction : Direction.

Lemma printTreeNode_unfold (prefix : string) (isLastNode : bool)
    (nm f : string) (l : Z) (cs : list CallNode) :
  printTreeNode direction prefix isLastNode (mkCallNode nm f l cs)
  = (prefix +:+ (if isLastNode then "└── " else "├── ")
            +:+ nodeText direction (mkCallNode nm f l cs))
    :: printTree direction (prefix +:+ (if isLastNode then "    " else "│   ")) cs.
Proof.
  cbn [printTreeNode]. f_equal.
  induction cs as [|c cs IH]; [reflexivity|]. cbn [printTree]. by rewrite <- IH.
Qed.

Lemma string_app_assoc (a b c : string) : (a +:+ b) +:+ c = a +:+ (b +:+ c).
Proof.
  induction a as [|x a IH]; [reflexivity|].
  change (String x ((a +:+ b) +:+ c) = String x (a +:+ (b +:+ c))). by rewrite IH.
Qed.

Lemma printTreeNode_shows (n : CallNode) :
  forall prefix isLastNode,
    Forall2 (showsNode direction) (printTreeNode direction prefix isLastNode n) (nodesOf n).
Proof.
  induction n as [nm f l cs IH] using CallNode_forall_ind. intros prefix isLastNode.
  rewrite printTreeNode_unfold. cbn [nodesOf]. constructor.
  - exists (prefix +:+ (if isLastNode then "└── " else "├── ")).
    by rewrite string_app_assoc.
  - generalize (prefix +:+ (if isLastNode then "    " else "│   ")). intros childPrefix.
    induction IH as [|c cs Hc _ IHcs]; cbn [printTree flat_map]; [constructor|].
    apply Forall2_app; [apply Hc | exact IHcs].
Qed.

Lemma printFlatNode_shows (n : CallNode) :
  forall indent,
    Forall2 (showsNode direction) (printFlatNode direction indent n) (nodesOf n).
Proof.
  induction n as [nm f l cs IH] using CallNode_forall_ind. intros indent.
  cbn [printFlatNode nodesOf]. constructor; [by eexists|].
  induction IH as [|c cs Hc _ IHcs]; cbn [flat_map]; [constructor|].
  apply Forall2_app; [apply Hc | exact IHcs].
Qed.

(** X12.  With [--tree] or without, the printed trace has exactly one
    line for every node of the call trees, parents before their children
    and siblings in their order, and each line ends with the label, name,
    file and line of its node. *)
Theorem X12_one_line_per_node (showTree : bool) (forest : list CallNode) :
  forest <> [] ->
  Forall2 (showsNode direction) (printTrace direction showTree forest) (allNodes forest) /\
  length (printTrace direction showTree forest) = length (allNodes forest).
Proof.
  intros Hnodes.
  assert (Hlines : Forall2 (showsNode direction) (printTrace direction showTree forest)
                           (allNodes forest)).
  { unfold printTrace. destruct forest as [|n forest]; [done|]. cbn [length Nat.eqb].
    unfold allNodes. destruct showTree.
    - generalize "". generalize (n :: forest). clear. intros nodes prefix.
      induction nodes as [|c cs IH]; cbn [printTree flat_map]; [constructor|].
      apply Forall2_app; [apply printTreeNode_shows | exact IH].
    - unfold printFlat. generalize 1%nat. generalize (n :: forest). clear.
      intros nodes indent.
      induction nodes as [|c cs IH]; cbn [flat_map]; [constructor|].
      apply Forall2_app; [apply printFlatNode_shows | exact IH]. }
  split; [exact Hlines|]. by apply Forall2_length in Hlines.
Qed.

End PrintTrees.

(** The theorem at the callers of [target] in [/src/chain.ts], traced to
    the depth 3 and printed as a tree. *)
Lemma X12_one_line_per_node_witness :
  length (TraceCallsOutput.printTrace TraceCalls.up true
            (TraceCalls.traceUp Examples.relativeToW Examples.chainProject 0
               Examples.defaultTrace))
  = 4%nat.
Proof.
  destruct (X12_one_line_per_node TraceCalls.up true
              (TraceCalls.traceUp Examples.relativeToW Examples.chainProject 0
                 Examples.defaultTrace)) as [_ ->].
  - by vm_compute.
  - by vm_compute.
Defined.

(** ** trace-calls.ts: a deeper trace of the callees extends a shallower one *)

Section CalleesByDepth.
Import TraceCalls MoreProps.

Variable relative : string -> string.
Variable project : nat -> Declaration.

Lemma fold_left_mapped {A B C : Type} (g : A -> C) (step1 : A -> B -> A)
    (step2 : C -> B -> C) (l : list B) :
  (forall acc x, In x l -> g (step1 acc x) = step2 (g acc) x) ->
  forall acc, g (fold_left step1 l acc) = fold_left step2 l (g acc).
Proof.
  induction l as [|x l IH]; intros Hstep acc; simpl; [reflexivity|].
  rewrite IH by (intros; apply Hstep; by right). f_equal. apply Hstep. by left.
Qed.

(** The body of [getCallees] builds the same nodes whatever the recursive
    call returns; only their children differ. *)
Lemma getCalleesBody_children (h : list CallNode -> list CallNode)
    (recur1 recur2 : nat -> gset string -> list CallNode)
    (node : nat) (visited : gset string) :
  (forall d v, h (recur1 d v) = recur2 d v) ->
  map (fun n => mkCallNode (name n) (file n) (line n) (h (children n)))
      (getCalleesBody relative project recur1 node visited)
  = getCalleesBody relative project recur2 node visited.
Proof.
  intros Hrecur. unfold getCalleesBody.
  destruct (decide (nodeKeyOf project node ∈ visited)); [reflexivity|].
  destruct (getBody (project node)) as [calls|]; [|reflexivity].
  rewrite (fold_left_mapped _ _
             (fun callees call =>
                let calledName := calledNameOf (getExpression call) in
                if Js.truthy calledName then
                  fold_left
                    (fun callees def =>
                       match def with
                       | FunctionDeclarationNode d | MethodDeclarationNode d =>
                           let calleeFile := relative (getFilePath (project d)) in
                           let calleeLine := getStartLineNumber (project d) in
                           let calleeKey := keyOf (getFilePath (project d)) calledName in
                           if decide (calleeKey ∈ {[nodeKeyOf project node]} ∪ visited)
                           then callees else
                           callees ++ [mkCallNode calledName calleeFile calleeLine
                                         (recur2 d ({[nodeKeyOf project node]} ∪ visited))]
                       | _ => callees
                       end)
                    (getDeclarations call) callees
                else callees)); [reflexivity|].
  intros acc call _. cbv zeta.
  destruct (Js.truthy (calledNameOf (getExpression call))); [|reflexivity].
  apply fold_left_mapped. intros acc' def _.
  destruct def as [d|d| |]; try reflexivity;
    (destruct (decide _); [reflexivity|]; rewrite map_app; simpl; by rewrite Hrecur).
Qed.

Lemma getCalleesWithin_truncate (shallow : nat) :
  forall deep node visited,
    (shallow <= deep)%nat ->
    truncate shallow (getCalleesWithin relative project deep node visited)
    = getCalleesWithin relative project shallow node visited.
Proof.
  induction shallow as [|shallow IH]; intros deep node visited Hle; [reflexivity|].
  destruct deep as [|deep]; [lia|]. cbn [truncate getCalleesWithin].
  apply getCalleesBody_children. intros d v. apply IH. lia.
Qed.

(** X13.  Raising [--depth] only adds levels to the tree of callees: the
    tree traced to a smaller depth is the tree traced to a larger depth
    cut below the smaller depth. *)
Theorem X13_callees_deeper_extends_shallower
    (node : nat) (depth shallow deep : Z) (visited : gset string) :
  shallow <= deep ->
  truncate (Z.to_nat (shallow - depth)) (getCallees relative project node depth deep visited)
  = getCallees relative project node depth shallow visited.
Proof.
  intros Hle. unfold getCallees. apply getCalleesWithin_truncate. lia.
Qed.

End CalleesByDepth.

(** The theorem at the callees of [c] in [/src/chain.ts], traced to the
    depths 1 and 3. *)
Lemma X13_callees_deeper_extends_shallower_witness :
  MoreProps.truncate 1
    (TraceCalls.getCallees Examples.relativeToW Examples.chainProject 3 0 3 ∅)
  = TraceCalls.getCallees Examples.relativeToW Examples.chainProject 3 0 1 ∅.
Proof.
  apply (X13_callees_deeper_extends_shallower Examples.relativeToW Examples.chainProject
           3%nat 0 1 3 ∅).
  lia.
Defined.

(** ** code-smells.ts: the findings of a run, file by file *)

Section FindingsOfRun.
Import Ast Model CodeSmells Props MoreProps.

Variable relative : string -> string.
Variable resolveSpecifier : string -> string -> string.
Variable hasSourceFile : string -> bool.

Lemma runChecks_by_file (options : SmellOptions) (sourceFiles : list SourceFile) :
  runChecks relative resolveSpecifier hasSourceFile options sourceFiles
  = whenEnabled options "circular-deps"
      (checkCircularDeps relative resolveSpecifier hasSourceFile sourceFiles)
    ++ flat_map (findingsOfFile relative options) sourceFiles.
Proof.
  unfold runChecks. cbv beta zeta. apply fold_left_push.
  intros acc sourceFile. unfold findingsOfFile, whenEnabled.
  repeat case_bool_decide; rewrite ?app_nil_r, <- ?app_assoc; simpl;
    rewrite ?app_nil_r; reflexivity.
Qed.

(** X14.  The findings of a run are those of the circular-dependency
    check, followed file by file, in the order of the project, by the
    findings of the enabled checks on that file in the fixed order
    large-functions, many-params, missing-jsdoc, deep-nesting, large-files,
    god-classes. *)
Theorem X14_findings_file_by_file (options : SmellOptions) (sourceFiles : list SourceFile) :
  runChecks relative resolveSpecifier hasSourceFile options sourceFiles
  = whenEnabled options "circular-deps"
      (checkCircularDeps relative resolveSpecifier hasSourceFile sourceFiles)
    ++ flat_map (findingsOfFile relative options) sourceFiles.
Proof.
  unfold runChecks. cbv beta zeta.
  rewrite (fold_left_push _ (findingsOfFile relative options)); [reflexivity|].
  intros acc sourceFile. unfold findingsOfFile, whenEnabled.
  repeat case_bool_decide; rewrite ?app_nil_r, <- ?app_assoc; simpl;
    rewrite ?app_nil_r; reflexivity.
Qed.

Lemma checkFn_manyParams_appends options filePath reports fn className :
  checkFn_manyParams options filePath reports fn className
  = reports ++ manyParamsPart options filePath fn className.
Proof.
  unfold manyParamsPart, checkFn_manyParams.
  destruct (exportedOnly options && negb (fnIsExported fn)); [by rewrite app_nil_r|].
  destruct (_ >? _); [reflexivity | by rewrite app_nil_r].
Qed.

Lemma checkManyParams_by_declaration (sourceFile : SourceFile) (options : SmellOptions) :
  checkManyParams relative sourceFile options
  = flat_map (fun fn => manyParamsPart options (relative (sfGetFilePath sourceFile)) fn None)
             (getFunctions sourceFile)
    ++ flat_map
         (fun cls =>
            flat_map (fun method =>
                        manyParamsPart options (relative (sfGetFilePath sourceFile))
                                       method (clsGetName cls))
                     (clsGetMethods cls))
         (getClasses sourceFile).
Proof.
  unfold checkManyParams, forEachFunctionAndMethod.
  set (filePath := relative (sfGetFilePath sourceFile)).
  rewrite (fold_left_push _ (fun fn => manyParamsPart options filePath fn None))
    by (intros; apply checkFn_manyParams_appends).
  apply fold_left_push. intros acc cls.
  apply fold_left_push. intros; apply checkFn_manyParams_appends.
Qed.

Lemma sublist_flat_map {A B : Type} (f g : A -> list B) (l : list A) :
  (forall x, f x `sublist_of` g x) -> flat_map f l `sublist_of` flat_map g l.
Proof.
  intros Hsub. induction l as [|x l IH]; simpl; [constructor|].
  by apply sublist_app.
Qed.

(** X15.  The flag [--exported] only removes findings: with the same
    checks and limits, the findings of a run with the flag are, in the
    same order, among the findings of the run without it. *)
Theorem X15_exported_only_removes_findings
    (options : SmellOptions) (sourceFiles : list SourceFile) :
  runChecks relative resolveSpecifier hasSourceFile (withExportedOnly true options)
            sourceFiles
  `sublist_of`
  runChecks relative resolveSpecifier hasSourceFile (withExportedOnly false options)
            sourceFiles.
Proof.
  rewrite !runChecks_by_file. apply sublist_app; [reflexivity|].
  apply sublist_flat_map. intros sf. unfold findingsOfFile, whenEnabled.
  cbn [checks withExportedOnly].
  assert (Hlarge : checkLargeFunctions relative sf (withExportedOnly true options)
                   `sublist_of`
                   checkLargeFunctions relative sf (withExportedOnly false options)).
  { rewrite !checkLargeFunctions_by_declaration.
    apply sublist_app; [|apply sublist_flat_map; intros cls];
      apply sublist_flat_map; intros fn;
      unfold largeFunctionPart, checkFn_largeFunctions; cbn [exportedOnly withExportedOnly];
      (destruct (negb (fnIsExported fn)); [apply sublist_nil_l | reflexivity]). }
  assert (Hparams : checkManyParams relative sf (withExportedOnly true options)
                    `sublist_of`
                    checkManyParams relative sf (withExportedOnly false options)).
  { rewrite !checkManyParams_by_declaration.
    apply sublist_app; [|apply sublist_flat_map; intros cls];
      apply sublist_flat_map; intros fn;
      unfold manyParamsPart, checkFn_manyParams; cbn [exportedOnly withExportedOnly];
      (destruct (negb (fnIsExported fn)); [apply sublist_nil_l | reflexivity]). }
  repeat apply sublist_app;
    try (destruct (bool_decide _); [|reflexivity]); try reflexivity; assumption.
Qed.

(** X16.  The many-params check reports exactly the functions of the
    file and the methods of its classes that pass the exported-only guard
    and have more parameters than [maxParams]; the finding is an error when
    the count exceeds [maxParams + 3] and a warning otherwise. *)
Theorem X16_many_params_targets
    (sourceFile : SourceFile) (options : SmellOptions) (r : SmellReport) :
  In r (checkManyParams relative sourceFile options) <->
  exists fn className,
    declaredIn sourceFile fn className /\
    passesExportFilter options fn = true /\
    Z.of_nat (length (fnParameters fn)) > maxParams (thresholds options) /\
    r = manyParamsFinding options (relative (sfGetFilePath sourceFile)) fn className.
Proof.
  rewrite checkManyParams_by_declaration, in_app_iff, !in_flat_map.
  set (filePath := relative (sfGetFilePath sourceFile)).
  assert (Hpart : forall fn className,
             In r (manyParamsPart options filePath fn className) <->
             passesExportFilter options fn = true /\
             Z.of_nat (length (fnParameters fn)) > maxParams (thresholds options) /\
             r = manyParamsFinding options filePath fn className).
  { intros fn className.
    unfold manyParamsPart, checkFn_manyParams, passesExportFilter, manyParamsFinding.
    destruct (exportedOnly options && negb (fnIsExported fn)); simpl;
      [by split; [intros [] | intros [? _]]|].
    destruct (Z.gtb_spec (Z.of_nat (length (fnParameters fn)))
                         (maxParams (thresholds options))); simpl.
    - split; [intros [<-|[]]; split_and!; [done | lia | done] | intros (_ & _ & ->); by left].
    - split; [intros [] | intros (_ & ? & _); lia]. }
  split.
  - intros [(fn & Hfn & Hr)|(cls & Hcls & Hr)].
    + exists fn, None. apply Hpart in Hr. split; [left; by split | exact Hr].
    + apply in_flat_map in Hr as (method & Hmethod & Hr).
      exists method, (clsGetName cls). apply Hpart in Hr.
      split; [right; by exists cls | exact Hr].
  - intros (fn & className & [[Hfn ->]|(cls & Hcls & Hmethod & ->)] & Hr).
    + left. exists fn. split; [exact Hfn | by apply Hpart].
    + right. exists cls. split; [exact Hcls|]. apply in_flat_map.
      exists fn. split; [exact Hmethod | by apply Hpart].
Qed.

End FindingsOfRun.

(** ** code-smells.ts: the [--check] arguments *)

Section CheckArguments.
Import Model CodeSmells MoreProps.

Variable parseInt : string -> Z.

Lemma parseChecks_arguments (arguments : list Argument) :
  Forall wellFormedArgument arguments ->
  forall checks,
    parseChecks (flat_map renderArgument arguments) checks
    = checks ∪ list_to_set (checkValues arguments).
Proof.
  induction 1 as [|[text|value] arguments Hok _ IH]; intros checks.
  - simpl. set_solver.
  - simpl in Hok. cbn [flat_map renderArgument app parseChecks checkValues].
    destruct (String.eqb text "--check") eqn:Htext;
      [by apply String.eqb_eq in Htext|].
    apply IH.
  - simpl in Hok. cbn [flat_map renderArgument app parseChecks checkValues].
    rewrite String.eqb_refl.
    destruct value as [|c value]; [done|]. cbn [Js.truthy].
    rewrite IH. cbn [list_to_set]. set_solver.
Qed.

(** X17.  However the pairs [--check <value>] are mixed with the other
    arguments, the checks of the run are the values of all the pairs; when
    there is no pair, all seven checks run. *)
Theorem X17_check_arguments_are_collected (arguments : list Argument) :
  Forall wellFormedArgument arguments ->
  checks (parseOptions parseInt (flat_map renderArgument arguments))
  = match checkValues arguments with
    | [] => list_to_set ALL_CHECKS
    | values => list_to_set values
    end.
Proof.
  intros Hok. unfold parseOptions. cbn [checks].
  rewrite (parseChecks_arguments arguments Hok ∅).
  destruct (checkValues arguments) as [|value values].
  - rewrite decide_True by set_solver. reflexivity.
  - rewrite decide_False by set_solver. set_solver.
Qed.

End CheckArguments.

(** The theorem at [src --check many-params --exported --check
    large-files]. *)
Lemma X17_check_arguments_are_collected_witness :
  CodeSmells.checks
    (CodeSmells.parseOptions MoreExamples.parseSmallInt
       ["src"; "--check"; "many-params"; "--exported"; "--check"; "large-files"])
  = {["many-params"; "large-files"]}.
Proof.
  assert (Hok : Forall MoreProps.wellFormedArgument MoreExamples.twoChecks)
    by (repeat constructor; discriminate).
  pose proof (X17_check_arguments_are_collected MoreExamples.parseSmallInt
                MoreExamples.twoChecks Hok) as Hchecks.
  etransitivity; [exact Hchecks|]. simpl. set_solver.
Defined.

(** The theorem at the function of eight parameters of [wide.ts], with
    the limit of 5 parameters. *)
Lemma X16_many_params_targets_witness :
  exists r,
    In r (CodeSmells.checkManyParams Examples.relativeToW MoreExamples.wideFile
            (Examples.optionsWith true 50)) /\
    CodeSmells.severity r = CodeSmells.warning.
Proof.
  eexists. split.
  - apply (X16_many_params_targets Examples.relativeToW MoreExamples.wideFile
             (Examples.optionsWith true 50)).
    exists (MoreExamples.wideFunction true), None.
    split_and!; [left; split; [by left | reflexivity] | reflexivity | by vm_compute
                | reflexivity].
  - reflexivity.
Defined.

(** ** extract-signatures.ts: the listing *)

Section Listing.
Import Model ExtractSignatures ExtractSignaturesOutput MoreProps.

(** One record of the loop: its line is appended, after at most one
    closing brace, and a brace is left open only by a class record. *)
Lemma printSignature_step (acc : list string * option string) (sig : SignatureInfo) :
  exists closers,
    (printSignature acc sig).1 = acc.1 ++ closers ++ [printedLine sig] /\
    (length closers + openBraces (printSignature acc sig).2
     <= openBraces acc.2 + (if isClassKind (kind sig) then 1 else 0))%nat.
Proof.
  unfold printSignature, printedLine. destruct acc as [lines currentClass]. simpl.
  destruct (isClassKind (kind sig)); simpl.
  - exists []. split; [reflexivity|]. destruct currentClass; simpl; lia.
  - destruct (isMethodKind (kind sig) && sameClass (className sig) currentClass); simpl.
    + exists []. split; [reflexivity|]. destruct currentClass; simpl; lia.
    + destruct currentClass as [c|]; simpl.
      * destruct (sameClass (className sig) (Some c)); simpl.
        -- exists []. split; [reflexivity | simpl; lia].
        -- eexists [_]. split; [reflexivity | simpl; lia].
      * exists []. split; [reflexivity | simpl; lia].
Qed.

Lemma classRecords_cons (sig : SignatureInfo) (sigs : list SignatureInfo) :
  classRecords (sig :: sigs)
  = ((if isClassKind (kind sig) then 1 else 0) + classRecords sigs)%nat.
Proof. unfold classRecords. simpl. by destruct (isClassKind (kind sig)). Qed.

Lemma printSignatures_lines (sigs : list SignatureInfo) :
  forall acc,
    (acc.1 ++ map printedLine sigs) `sublist_of` (fold_left printSignature sigs acc).1 /\
    (length (fold_left printSignature sigs acc).1
     + openBraces (fold_left printSignature sigs acc).2
     <= length acc.1 + openBraces acc.2 + length sigs + classRecords sigs)%nat.
Proof.
  induction sigs as [|sig sigs IH]; intros acc; simpl.
  - rewrite app_nil_r. split; [reflexivity | unfold classRecords; simpl; lia].
  - destruct (printSignature_step acc sig) as (closers & Hlines & Hopen).
    destruct (IH (printSignature acc sig)) as [Hsub Hlen].
    rewrite classRecords_cons. split.
    + etransitivity; [|exact Hsub]. rewrite Hlines, <- !app_assoc.
      apply sublist_app; [reflexivity|]. by apply sublist_inserts_l.
    + rewrite Hlines, !length_app in Hlen. simpl in Hlen. lia.
Qed.

(** One record of the loop, with the closing brace told apart. *)
Lemma printSignature_closes (acc : list string * option string) (sig : SignatureInfo) :
  exists closing : bool,
    (printSignature acc sig).1 = acc.1 ++ listedRecord closing sig /\
    ((if closing then 1 else 0) + openBraces (printSignature acc sig).2
     <= openBraces acc.2 + (if isClassKind (kind sig) then 1 else 0))%nat.
Proof.
  unfold printSignature, listedRecord, printedLine. destruct acc as [lines currentClass].
  simpl.
  destruct (isClassKind (kind sig)); simpl.
  - exists false. split; [reflexivity|]. destruct currentClass; simpl; lia.
  - destruct (isMethodKind (kind sig) && sameClass (className sig) currentClass); simpl.
    + exists false. split; [reflexivity|]. destruct currentClass; simpl; lia.
    + destruct currentClass as [c|]; simpl.
      * destruct (sameClass (className sig) (Some c)); simpl.
        -- exists false. split; [reflexivity | simpl; lia].
        -- exists true. split; [reflexivity | simpl; lia].
      * exists false. split; [reflexivity | simpl; lia].
Qed.

(** The whole loop: every record is printed, after a closing brace or
    not, and the braces closed or left open are at most those opened. *)
Lemma printSignatures_structure (sigs : list SignatureInfo) :
  forall acc,
    exists closings : list bool,
      length closings = length sigs /\
      (fold_left printSignature sigs acc).1
      = acc.1 ++ flat_map (fun entry => listedRecord entry.1 entry.2)
                          (combine closings sigs) /\
      (countWhere (fun closing => closing) closings
       + openBraces (fold_left printSignature sigs acc).2
       <= openBraces acc.2 + classRecords sigs)%nat.
Proof.
  induction sigs as [|sig sigs IH]; intros acc.
  - exists []. simpl. rewrite app_nil_r. unfold countWhere, classRecords. simpl.
    split_and!; [reflexivity | reflexivity | lia].
  - destruct (printSignature_closes acc sig) as (closing & Hlines & Hopen).
    destruct (IH (printSignature acc sig)) as (closings & Hlength & Hrest & Hbraces).
    exists (closing :: closings). cbn [fold_left combine flat_map length fst snd].
    rewrite classRecords_cons. split_and!.
    + by rewrite Hlength.
    + by rewrite Hrest, Hlines, <- app_assoc.
    + unfold countWhere in *. simpl. destruct closing; simpl in *; lia.
Qed.

(** X18.  The listing of a file is the header with the path, then every
    record of the file, once and in order (a class record with an opening
    brace), each after at most one closing brace, and at the end at most
    one more closing brace; it prints nothing else, and it closes at most
    as many braces as there are class records. *)
Theorem X18_listing_prints_every_record (path : string) (sigs : list SignatureInfo) :
  (exists (closings : list bool) (closingAtEnd : bool),
     length closings = length sigs /\
     printFile (path, sigs)
     = (newline +:+ "// " +:+ path +:+ newline)
       :: flat_map (fun entry => listedRecord entry.1 entry.2) (combine closings sigs)
       ++ (if closingAtEnd then ["}"] else []) /\
     (countWhere (fun closing => closing) closings + (if closingAtEnd then 1 else 0)
      <= classRecords sigs)%nat) /\
  ((newline +:+ "// " +:+ path +:+ newline) :: map printedLine sigs)
    `sublist_of` printFile (path, sigs) /\
  (1 + length sigs <= length (printFile (path, sigs)))%nat /\
  (length (printFile (path, sigs)) <= 1 + length sigs + classRecords sigs)%nat.
Proof.
  split.
  { unfold printFile. cbn [fst snd].
    destruct (printSignatures_structure sigs
                ([newline +:+ "// " +:+ path +:+ newline], None))
      as (closings & Hlength & Hlines & Hbraces).
    cbn [fst snd openBraces] in Hlines, Hbraces.
    destruct (fold_left printSignature sigs _) as [lines currentClass].
    cbn [fst snd] in *. subst lines.
    destruct currentClass as [c|]; cbn [openBraces] in Hbraces.
    - exists closings, true. split_and!; [exact Hlength | by rewrite <- app_assoc | lia].
    - exists closings, false. split_and!; [exact Hlength | by rewrite app_nil_r | lia]. }
  assert (Hsub : ((newline +:+ "// " +:+ path +:+ newline) :: map printedLine sigs)
                   `sublist_of` printFile (path, sigs)).
  { unfold printFile. cbn [fst snd].
    destruct (printSignatures_lines sigs ([newline +:+ "// " +:+ path +:+ newline], None))
      as [Hsub _].
    destruct (fold_left printSignature sigs _).2; [|exact Hsub].
    etransitivity; [exact Hsub|]. by apply sublist_inserts_r. }
  split; [exact Hsub|]. split.
  - apply sublist_length in Hsub. simpl in Hsub. by rewrite length_map in Hsub.
  - unfold printFile. cbn [fst snd].
    destruct (printSignatures_lines sigs ([newline +:+ "// " +:+ path +:+ newline], None))
      as [_ Hlen].
    destruct (fold_left printSignature sigs _).2; simpl in Hlen;
      rewrite ?length_app; simpl; lia.
Qed.

End Listing.

(** ** code-smells.ts: god classes *)

Section GodClasses.
Import Model CodeSmells CodeSmellsReport MoreProps.

Variable relative : string -> string.

Lemma errorCount_app (a b : list SmellReport) :
  errorCount (a ++ b) = (errorCount a + errorCount b)%nat.
Proof. unfold errorCount. by rewrite List.filter_app, length_app. Qed.

Lemma warningCount_app (a b : list SmellReport) :
  warningCount (a ++ b) = (warningCount a + warningCount b)%nat.
Proof. unfold warningCount. by rewrite List.filter_app, length_app. Qed.

(** X19.  The god-class check ignores the options: its limits are fixed.
    Among its findings the errors are as many as the classes of the file
    with more than 30 methods, and the warnings as many as the classes
    with 21 to 30 methods plus the classes with more than 15 properties;
    too many properties alone never make an error. *)
Theorem X19_god_class_counts (sourceFile : SourceFile) (options : SmellOptions) :
  errorCount (checkGodClasses relative sourceFile options)
  = countWhere (fun cls => methodCount cls >? 30) (getClasses sourceFile) /\
  warningCount (checkGodClasses relative sourceFile options)
  = (countWhere (fun cls => (methodCount cls >? 20) && negb (methodCount cls >? 30))
                (getClasses sourceFile)
     + countWhere (fun cls => propertyCount cls >? 15) (getClasses sourceFile))%nat.
Proof.
  unfold checkGodClasses.
  set (filePath := relative (sfGetFilePath sourceFile)).
  set (step := fun (reports : list SmellReport) (cls : ClassDeclaration) => _).
  assert (Hstep : forall reports cls,
             errorCount (step reports cls)
             = (errorCount reports + (if methodCount cls >? 30 then 1 else 0))%nat /\
             warningCount (step reports cls)
             = (warningCount reports
                + (if (methodCount cls >? 20) && negb (methodCount cls >? 30) then 1 else 0)
                + (if propertyCount cls >? 15 then 1 else 0))%nat).
  { intros reports cls. unfold step, methodCount, propertyCount. cbv zeta.
    destruct (Z.gtb_spec (Z.of_nat (length (clsGetMethods cls))) 20) as [H20|H20];
      destruct (Z.gtb_spec (Z.of_nat (length (clsGetMethods cls))) 30) as [H30|H30];
      try lia;
      destruct (Z.of_nat (length (clsGetProperties cls)) >? 15);
      rewrite ?errorCount_app, ?warningCount_app;
      unfold errorCount, warningCount; simpl; split; lia. }
  clearbody step. unfold countWhere.
  assert (Hfold : forall classes reports,
             errorCount (fold_left step classes reports)
             = (errorCount reports
                + length (List.filter (fun cls => methodCount cls >? 30) classes))%nat /\
             warningCount (fold_left step classes reports)
             = (warningCount reports
                + length (List.filter
                            (fun cls => (methodCount cls >? 20)
                                        && negb (methodCount cls >? 30)) classes)
                + length (List.filter (fun cls => propertyCount cls >? 15) classes))%nat).
  { induction classes as [|cls classes IH]; intros reports; simpl; [split; lia|].
    destruct (IH (step reports cls)) as [-> ->].
    destruct (Hstep reports cls) as [-> ->].
    destruct (methodCount cls >? 30), (methodCount cls >? 20),
      (propertyCount cls >? 15); simpl; split; lia. }
  destruct (Hfold (getClasses sourceFile) []) as [-> ->]. split; reflexivity.
Qed.

End GodClasses.

(** ** code-smells.ts: the limits given on the command line *)

Section ThresholdArguments.
Import Model CodeSmells MoreProps.

Variable parseInt : string -> Z.

Lemma indexOf_first (flag : string) (pre post : list string) :
  ~ In flag pre -> Js.indexOf flag (pre ++ flag :: post) = Some (length pre).
Proof.
  induction pre as [|a pre IH]; intros Hfresh; simpl.
  - by rewrite String.eqb_refl.
  - destruct (String.eqb a flag) eqn:Ha.
    + apply String.eqb_eq in Ha. exfalso. apply Hfresh. by left.
    + rewrite IH; [reflexivity|]. intros Hin. apply Hfresh. by right.
Qed.

Lemma optionValue_first (flag value : string) (pre post : list string) :
  ~ In flag pre -> value <> "" ->
  Js.optionValue flag (pre ++ flag :: value :: post) = Some value.
Proof.
  intros Hfresh Hvalue. unfold Js.optionValue. rewrite indexOf_first by exact Hfresh.
  replace (nth_error (pre ++ flag :: value :: post) (S (length pre))) with (Some value).
  - by destruct value.
  - symmetry. rewrite (nth_error_app2 pre) by lia.
    by replace (S (length pre) - length pre)%nat with 1%nat by lia.
Qed.

Lemma optionValue_absent (flag : string) (args : list string) :
  ~ In flag args -> Js.optionValue flag args = None.
Proof.
  intros Habsent. unfold Js.optionValue.
  destruct (Js.indexOf flag args) as [i|] eqn:Hindex; [|reflexivity].
  exfalso. apply Habsent. clear Habsent. revert i Hindex.
  induction args as [|a args IH]; intros i Hindex; simpl in Hindex; [discriminate|].
  destruct (String.eqb a flag) eqn:Ha; [apply String.eqb_eq in Ha; by left|].
  destruct (Js.indexOf flag args) as [j|]; [|discriminate]. right. by apply (IH j).
Qed.

(** X20.  Each of [--max-params], [--max-fn-lines], [--max-file-lines] and
    [--max-nesting] sets its limit to the number that follows its first
    occurrence, later occurrences being ignored; a flag that does not
    occur leaves the default; and no argument changes the limit of the
    cyclomatic complexity, which stays at 10. *)
Theorem X20_limits_from_first_occurrence
    (flag : string) (limit : Thresholds -> Z) (value : string) (pre post : list string) :
  In (flag, limit) thresholdFlags ->
  ~ In flag pre -> value <> "" ->
  limit (thresholds (parseOptions parseInt (pre ++ flag :: value :: post))) = parseInt value /\
  (forall args, ~ In flag args ->
                limit (thresholds (parseOptions parseInt args)) = limit DEFAULT_THRESHOLDS) /\
  (forall args, maxComplexity (thresholds (parseOptions parseInt args)) = 10).
Proof.
  intros Hflag Hfresh Hvalue. split_and!.
  - simpl in Hflag.
    destruct Hflag as [[= <- <-]|[[= <- <-]|[[= <- <-]|[[= <- <-]|[]]]]];
      cbn [parseOptions thresholds parseThresholds maxParams maxFunctionLines
           maxFileLines maxNestingDepth];
      by rewrite optionValue_first.
  - intros args Habsent. simpl in Hflag.
    destruct Hflag as [[= <- <-]|[[= <- <-]|[[= <- <-]|[[= <- <-]|[]]]]];
      cbn [parseOptions thresholds parseThresholds maxParams maxFunctionLines
           maxFileLines maxNestingDepth];
      by rewrite optionValue_absent.
  - reflexivity.
Qed.

End ThresholdArguments.

(** The theorem at [src --max-params 3 --max-params 8]: the limit is 3. *)
Lemma X20_limits_from_first_occurrence_witness :
  CodeSmells.maxParams
    (CodeSmells.thresholds
       (CodeSmells.parseOptions MoreExamples.parseSmallInt
          ["src"; "--max-params"; "3"; "--max-params"; "8"]))
  = 3.
Proof.
  destruct (X20_limits_from_first_occurrence MoreExamples.parseSmallInt
              "--max-params" CodeSmells.maxParams "3" ["src"] ["--max-params"; "8"])
    as (Hlimit & _).
  - by left.
  - intros [Heq|[]]. discriminate.
  - discriminate.
  - exact Hlimit.
Defined.
